(** * nhanes_ols: a regression walkthrough on the NHANES data

    The program [basic_regression/python/nhanes_ols.py] is a straight-line
    script: it reads one CSV with pandas, keeps seven columns, drops the
    incomplete rows, fits eight models through statsmodels formulas and
    draws a few diagnostic figures.

    The development below embeds the script statement by statement:
    - binary64 arithmetic is the Standard Library's [SpecFloat] at
      precision 53 (module [F64]);
    - the column reductions ([sum], [mean], [std]) add in the order of
      numpy's pairwise summation; they and the two derived-column
      expressions are written over an arithmetic interface, whose
      instance [binary64] is what the script computes with;
    - a pandas DataFrame is an ordered list of named columns;
    - statsmodels, numpy, seaborn and matplotlib are a parameter: one
      function from a call name and its arguments to a value or an
      exception;
    - the interpreter state is the outside world (network, disk) together
      with a log of every library call, result and exception.

    The [import] statements (lines 92-96, 412, 512, 556, 578) bind names
    and are not part of the embedding: the libraries are taken as
    installed.  The script leaves the values of its bare expressions
    ([result.summary()], [da.BPXSY1.std()], the correlation tables)
    unused; they are computed and dropped here too. *)

From Stdlib Require Import List String Ascii ZArith Bool Arith Lia.
From Stdlib Require Import SpecFloat.
Import ListNotations.

Set Implicit Arguments.

(* ================================================================== *)
(** * Binary64 arithmetic *)
(* ================================================================== *)

Module F64.

Definition prec : Z := 53.
Definition emax : Z := 1024.

Definition float := spec_float.

Definition zero : float := S754_zero false.
Definition nan : float := S754_nan.

Definition add : float -> float -> float := SFadd prec emax.
Definition sub : float -> float -> float := SFsub prec emax.
Definition mul : float -> float -> float := SFmul prec emax.
Definition div : float -> float -> float := SFdiv prec emax.
Definition sqrt : float -> float := SFsqrt prec emax.
Definition eqb : float -> float -> bool := SFeqb.
Definition ltb : float -> float -> bool := SFltb.

(** Conversion of a Python [int] (or an integer CSV field). *)
Definition of_Z (n : Z) : float := binary_normalize prec emax n 0 false.
Definition of_nat (n : nat) : float := of_Z (Z.of_nat n).

(** A decimal literal [m / 10^k], correctly rounded: [dec 4 1] is the
    double that Python reads for [0.4]. *)
Definition dec (m : Z) (k : nat) : float := div (of_Z m) (of_Z (10 ^ Z.of_nat k)).

Definition is_nan (x : float) : bool :=
  match x with S754_nan => true | _ => false end.

(** Neither NaN nor an infinity. *)
Definition is_finite (x : float) : bool :=
  match x with S754_zero _ | S754_finite _ _ _ => true | _ => false end.

(** Finite and different from both zeros. *)
Definition is_nonzero_finite (x : float) : bool :=
  match x with S754_finite _ _ _ => true | _ => false end.

(** A finite double as a multiple of [2^-1074], the spacing of the
    smallest doubles: the real number it stands for, without rounding. *)
Definition scaled (x : float) : option Z :=
match x with
| S754_zero _ => Some 0%Z
| S754_finite s m e =>
    Some (Z.shiftl (if s then Zneg m else Zpos m) (e + 1074))
| _ => None
end.

(** The sum of finite doubles as a real number, in the same unit. *)
Fixpoint exact_sum (xs : list float) : option Z :=
match xs with
| [] => Some 0%Z
| x :: rest =>
    match scaled x, exact_sum rest with
    | Some a, Some b => Some (a + b)%Z
    | _, _ => None
    end
end.

End F64.

(* ================================================================== *)
(** * The arithmetic interface of the column expressions *)
(* ================================================================== *)

Record Arith : Type := {
  num :> Type;
  a_zero : num;
  a_nan : num;
  a_add : num -> num -> num;
  a_sub : num -> num -> num;
  a_mul : num -> num -> num;
  a_div : num -> num -> num;
  a_sqrt : num -> num;
  a_of_nat : nat -> num
}.

(** What the script runs on. *)
Definition binary64 : Arith := {|
  num := F64.float;
  a_zero := F64.zero;
  a_nan := F64.nan;
  a_add := F64.add;
  a_sub := F64.sub;
  a_mul := F64.mul;
  a_div := F64.div;
  a_sqrt := F64.sqrt;
  a_of_nat := F64.of_nat
|}.


(* ================================================================== *)
(** * Series reductions and the derived-column expressions *)
(* ================================================================== *)

Section Series.
Variable A : Arith.

(** [Series.sum()] is numpy's sum of the values, which adds them in
    the order of its pairwise routine and not from left to right.  (The
    columns that the script reduces come out of [dropna], so that
    skipping NaN, which pandas does by default, plays no part.)

    Fewer than eight values are added one after the other. *)
Definition sum_few (xs : list A) : A :=
match xs with
| [] => a_zero A
| x :: rest => fold_left (a_add A) rest x
end.

(** Eight accumulators take the values in turn, eight at a time; what
    is left when fewer than eight remain is handed back. *)
Fixpoint sum_lanes (r0 r1 r2 r3 r4 r5 r6 r7 : A) (xs : list A)
  : A * A * A * A * A * A * A * A * list A :=
match xs with
| x0 :: x1 :: x2 :: x3 :: x4 :: x5 :: x6 :: x7 :: rest =>
    sum_lanes (a_add A r0 x0) (a_add A r1 x1) (a_add A r2 x2) (a_add A r3 x3)
              (a_add A r4 x4) (a_add A r5 x5) (a_add A r6 x6) (a_add A r7 x7)
              rest
| _ => (r0, r1, r2, r3, r4, r5, r6, r7, xs)
end.

(** A block of at most 128 values: the eight accumulators are added
    two by two, and the values left over one after the other. *)
Definition sum_block (xs : list A) : A :=
match xs with
| x0 :: x1 :: x2 :: x3 :: x4 :: x5 :: x6 :: x7 :: rest =>
    let '(r0, r1, r2, r3, r4, r5, r6, r7, tail) :=
      sum_lanes x0 x1 x2 x3 x4 x5 x6 x7 rest in
    fold_left (a_add A) tail
      (a_add A (a_add A (a_add A r0 r1) (a_add A r2 r3))
               (a_add A (a_add A r4 r5) (a_add A r6 r7)))
| _ => sum_few xs
end.

(** More than 128 values are split near the middle, at a multiple of
    eight, and the sums of the two parts are added.  Both parts are
    shorter by at least 57 values, so that [fuel] equal to the number
    of values is never used up ([pairwise_sum_fuel]). *)
Fixpoint pairwise_sum (fuel : nat) (xs : list A) : A :=
match fuel with
| O => sum_block xs
| S fuel' =>
    let n := List.length xs in
    if (n <=? 128)%nat then sum_block xs
    else
      let n2 := (n / 2 - (n / 2) mod 8)%nat in
      a_add A (pairwise_sum fuel' (firstn n2 xs)) (pairwise_sum fuel' (skipn n2 xs))
end.

Definition series_sum (xs : list A) : A :=
  pairwise_sum (List.length xs) xs.

(** [Series.mean()]: the sum over the count. *)
Definition series_mean (xs : list A) : A :=
  a_div A (series_sum xs) (a_of_nat A (List.length xs)).

(** [Series.std()]: pandas' default [ddof=1]; NaN when there are not
    at least two values. *)
Definition series_var (xs : list A) : A :=
  let avg := series_mean xs in
  a_div A
    (series_sum (map (fun x => let d := a_sub A avg x in a_mul A d d) xs))
    (a_of_nat A (List.length xs - 1)).

Definition series_std (xs : list A) : A :=
  if (List.length xs <=? 1)%nat then a_nan A else a_sqrt A (series_var xs).

(** Line 686: [da.RIDAGEYR - da.RIDAGEYR.mean()]. *)
Definition centered (xs : list A) : list A :=
  let m := series_mean xs in
  map (fun x => a_sub A x m) xs.

(** Line 612:
    [(da.RIDAGEYR - da.RIDAGEYR.mean()) / da.RIDAGEYR.std()]. *)
Definition standardized (xs : list A) : list A :=
  let m := series_mean xs in
  let s := series_std xs in
  map (fun x => a_div A (a_sub A x m) s) xs.

End Series.

(* ================================================================== *)
(** * Whole numbers in binary64 *)
(* ================================================================== *)

(** The ages of the survey are whole numbers of years.  What follows
    names what is needed to say that binary64 adds, subtracts and
    averages such numbers without rounding. *)

(** [shl p k] is [p * 2^k]. *)
Definition shl (p : positive) (k : nat) : positive := Nat.iter k xO p.

(** The double of a whole number of at most 53 digits: its mantissa
    shifted to 53 digits. *)
Definition canon (s : bool) (p : positive) : F64.float :=
  S754_finite s (shl p (Z.to_nat (53 - Zpos (digits2_pos p))))
              (Zpos (digits2_pos p) - 53).

(** A whole number that binary64 holds without rounding. *)
Definition whole (z : Z) : Prop := (Z.abs z < 2 ^ 53)%Z.

(** A whole number other than zero, by sign and magnitude. *)
Definition signed (s : bool) (p : positive) : Z := cond_Zopp s (Zpos p).

(** The sum of a list of whole numbers. *)
Definition total (zs : list Z) : Z := fold_right Z.add 0%Z zs.

(** The sum of the magnitudes: a bound on every partial sum. *)
Definition weight (zs : list Z) : Z := fold_right (fun z w => Z.abs z + w)%Z 0%Z zs.

(** [a] is at most [w] in magnitude. *)
Definition within (a w : Z) : Prop := (Z.abs a <= w)%Z.


(* ================================================================== *)
(** * Python values, exceptions and pandas frames *)
(* ================================================================== *)

(** A Python exception: its class and its argument. *)
Record exn : Type := Exn { exn_class : string; exn_arg : string }.

Definition KeyError (k : string) : exn := Exn "KeyError" k.
Definition AttributeError (k : string) : exn := Exn "AttributeError" k.
Definition TypeError (k : string) : exn := Exn "TypeError" k.
Definition ValueError (k : string) : exn := Exn "ValueError" k.
Definition URLError (k : string) : exn := Exn "URLError" k.

(** A fallible operation returns the exception on the left. *)
Definition result (A : Type) : Type := (exn + A)%type.

(** The cells of a column as [read_csv] produces them: a number (a
    missing field is NaN) or a string. *)
Inductive cell : Type :=
| CNum (x : F64.float)
| CStr (s : string).

Definition Column : Type := list cell.

(** A DataFrame: its columns in order, each with its label. *)
Definition Frame : Type := list (string * Column).

(** [pandas.isna] on one cell. *)
Definition is_missing (c : cell) : bool :=
match c with
| CNum x => F64.is_nan x
| CStr _ => false
end.

Definition no_missing (col : Column) : bool :=
forallb (fun c => negb (is_missing c)) col.

Definition columns (f : Frame) : list string := map fst f.

Fixpoint frame_get (f : Frame) (name : string) : option Column :=
match f with
| [] => None
| (n, col) :: rest => if String.eqb n name then Some col else frame_get rest name
end.

(** [da.NAME]: attribute access to a column. *)
Definition getattr_col (f : Frame) (name : string) : result Column :=
match frame_get f name with
| Some col => inr col
| None => inl (AttributeError name)
end.

(** [da[[n1, ..., nk]]]: a new frame with the listed columns, in the
    listed order; [KeyError] on the first label that is absent. *)
Fixpoint getitem_list (f : Frame) (names : list string) : result Frame :=
match names with
| [] => inr []
| n :: rest =>
    match frame_get f n with
    | None => inl (KeyError n)
    | Some col =>
        match getitem_list f rest with
        | inl e => inl e
        | inr g => inr ((n, col) :: g)
        end
    end
end.

Definition nrows (f : Frame) : nat :=
match f with
| [] => 0
| (_, col) :: _ => List.length col
end.

(** Row [i] has a value in every column. *)
Definition row_complete (f : Frame) (i : nat) : bool :=
forallb (fun nc : string * Column =>
           match nth_error (snd nc) i with
           | Some c => negb (is_missing c)
           | None => false
           end) f.

Fixpoint keep_rows (A : Type) (mask : list bool) (col : list A) : list A :=
match mask, col with
| b :: mask', x :: col' =>
    if b then x :: keep_rows mask' col' else keep_rows mask' col'
| _, _ => []
end.

(** [DataFrame.dropna()]: the rows without a missing cell. *)
Definition dropna (f : Frame) : Frame :=
let mask := map (row_complete f) (seq 0 (nrows f)) in
map (fun nc : string * Column => (fst nc, keep_rows mask (snd nc))) f.

(** The frame with [col] under the label [name]: in the place of the
    column that has the label, else as the last column. *)
Fixpoint set_column (f : Frame) (name : string) (col : Column) : Frame :=
match f with
| [] => [(name, col)]
| (n, c) :: rest =>
    if String.eqb n name then (n, col) :: rest
    else (n, c) :: set_column rest name col
end.

(** [da[name] = col].  The values are taken by position, as pandas does
    for an array and for a Series that has the index of the frame (the
    script assigns Series computed from columns of [da] itself).  A
    frame that has columns takes only as many values as it has rows:
    pandas raises [ValueError] otherwise. *)
Definition setitem (f : Frame) (name : string) (col : Column) : result Frame :=
match f with
| [] => inr (set_column f name col)
| _ :: _ =>
    if Nat.eqb (List.length col) (nrows f)
    then inr (set_column f name col)
    else inl (ValueError "Length of values does not match length of index")
end.

Fixpoint frame_remove (f : Frame) (name : string) : Frame :=
match f with
| [] => []
| (n, c) :: rest =>
    if String.eqb n name then rest else (n, c) :: frame_remove rest name
end.

(** [del da[name]]. *)
Definition delitem (f : Frame) (name : string) : result Frame :=
match frame_get f name with
| Some _ => inr (frame_remove f name)
| None => inl (KeyError name)
end.

(** [Series.replace({k1: v1, ...})] with integer keys: a numeric cell
    equal to a key becomes the value of the first such key; every other
    cell is kept. *)
Fixpoint replace_cell (mapping : list (Z * cell)) (c : cell) : cell :=
match mapping with
| [] => c
| (k, v) :: rest =>
    match c with
    | CNum x => if F64.eqb x (F64.of_Z k) then v else replace_cell rest c
    | CStr _ => c
    end
end.

Definition series_replace (mapping : list (Z * cell)) (col : Column) : Column :=
map (replace_cell mapping) col.

(** The numbers of a numeric column; arithmetic and reductions on a
    column that holds a string raise [TypeError]. *)
Fixpoint to_numeric (col : Column) : result (list F64.float) :=
match col with
| [] => inr []
| CStr s :: _ => inl (TypeError s)
| CNum x :: rest =>
    match to_numeric rest with
    | inl e => inl e
    | inr xs => inr (x :: xs)
    end
end.

Definition of_numeric (xs : list F64.float) : Column := map CNum xs.

(** The values that flow between the script and its libraries.  [V] is
    the type of the objects the libraries hand back (models, fit
    results, arrays, axes, figures). *)
Unset Elimination Schemes.
Inductive value (V : Type) : Type :=
| VNone
| VInt (n : Z)
| VFloat (x : F64.float)
| VStr (s : string)
| VSlice
| VTuple (l : list (value V))
| VDict (d : list (string * value V))
| VSeries (c : Column)
| VFrame (f : Frame)
| VObj (o : V).
Set Elimination Schemes.

Arguments VNone {V}.
Arguments VInt {V} n.
Arguments VFloat {V} x.
Arguments VStr {V} s.
Arguments VSlice {V}.
Arguments VSeries {V} c.
Arguments VFrame {V} f.

(** A Python [dict] with string keys, in insertion order. *)
Definition dict (V : Type) : Type := list (string * value V).

Fixpoint dict_get (V : Type) (d : dict V) (k : string) : option (value V) :=
match d with
| [] => None
| (k', v) :: rest => if String.eqb k' k then Some v else dict_get rest k
end.

(** [d[k] = v]. *)
Fixpoint dict_set (V : Type) (d : dict V) (k : string) (v : value V) : dict V :=
match d with
| [] => [(k, v)]
| (k', v') :: rest =>
    if String.eqb k' k then (k', v) :: rest else (k', v') :: dict_set rest k v
end.

(** [del d[k]]. *)
Definition dict_del (V : Type) (d : dict V) (k : string) : result (dict V) :=
match dict_get d k with
| Some _ => inr (filter (fun kv => negb (String.eqb (fst kv) k)) d)
| None => inl (KeyError k)
end.

(** What iterating a value yields: the items of a tuple, the
    characters of a string, the keys of a dict, the values of a Series,
    the column labels of a DataFrame.  [None], an int, a float and a
    slice are not iterable.  An object of a library is opaque: what
    iterating it would yield is not known here, and it is taken as not
    iterable ([predict_functional], whose result the script unpacks,
    returns a tuple). *)
Definition iterate (V : Type) (v : value V) : option (list (value V)) :=
match v with
| VTuple l => Some l
| VStr s =>
    Some (map (fun c => VStr (String c EmptyString)) (list_ascii_of_string s))
| VDict d => Some (map (fun kv => VStr (fst kv)) d)
| VSeries col =>
    Some (map (fun c => match c with CNum x => VFloat x | CStr s => VStr s end) col)
| VFrame f => Some (map (fun n => VStr n) (columns f))
| VNone | VInt _ | VFloat _ | VSlice | VObj _ => None
end.

(** [a, b, c = v]: [TypeError] when [v] is not iterable, [ValueError]
    when it does not yield three items. *)
Definition unpack3 (V : Type) (v : value V) : result (value V * value V * value V) :=
match iterate v with
| Some [a; b; c] => inr (a, b, c)
| Some _ => inl (ValueError "unpack")
| None => inl (TypeError "unpack")
end.

(* ================================================================== *)
(** * Model formulas *)
(* ================================================================== *)

(** The formulas are the strings of the script.  A formula is cut at
    the separators that stand outside every parenthesis, the way the
    formula reader of statsmodels tokenises it. *)

Definition space : ascii := " "%char.

Fixpoint split_top (sep : ascii) (depth : nat) (s : string) : list string :=
match s with
| EmptyString => [EmptyString]
| String c r =>
    if (Nat.eqb depth 0 && Ascii.eqb c sep)%bool
    then EmptyString :: split_top sep 0 r
    else
      let depth' :=
        if Ascii.eqb c "("%char then S depth
        else if Ascii.eqb c ")"%char then Nat.pred depth
        else depth in
      match split_top sep depth' r with
      | [] => [String c EmptyString]
      | h :: t => String c h :: t
      end
end.

Fixpoint ltrim (s : string) : string :=
match s with
| String c r => if Ascii.eqb c space then ltrim r else s
| EmptyString => EmptyString
end.

Fixpoint rtrim (s : string) : string :=
match s with
| EmptyString => EmptyString
| String c r =>
    let r' := rtrim r in
    if (Ascii.eqb c space && String.eqb r' EmptyString)%bool
    then EmptyString
    else String c r'
end.

Definition trim (s : string) : string := rtrim (ltrim s).

(** The outcome: what stands left of [~]. *)
Definition formula_lhs (f : string) : option string :=
match split_top "~"%char 0 f with
| l :: _ :: _ => Some (trim l)
| _ => None
end.

Definition formula_rhs (f : string) : string :=
match split_top "~"%char 0 f with
| _ :: r :: _ => r
| r :: _ => r
| [] => EmptyString
end.

(** [a*b] stands for [a + b + a:b]. *)
Fixpoint expand_product (factors : list string) : list string :=
match factors with
| [] => []
| a :: rest =>
    let r := expand_product rest in
    a :: r ++ map (fun t => (a ++ ":" ++ t)%string) r
end.

(** The terms of the right-hand side, the intercept left implicit. *)
Definition formula_terms (f : string) : list string :=
flat_map (fun t => expand_product (map trim (split_top "*"%char 0 t)))
         (split_top "+"%char 0 (formula_rhs f)).

Definition mem_string (x : string) (l : list string) : bool :=
existsb (String.eqb x) l.

Definition subset_terms (l1 l2 : list string) : bool :=
forallb (fun x => mem_string x l2) l1.

(** The second model has every term of the first and at least one
    more. *)
Definition adds_terms (f g : string) : bool :=
(subset_terms (formula_terms f) (formula_terms g)
 && negb (subset_terms (formula_terms g) (formula_terms f)))%bool.

Fixpoint strictly_increasing (fs : list string) : bool :=
match fs with
| f :: (g :: _) as rest => (adds_terms f g && strictly_increasing rest)%bool
| _ => true
end.

(* ================================================================== *)
(** * The interpreter: world, log, exceptions *)
(* ================================================================== *)

(** What lies outside the process.  [network u] is the table that the
    CSV served at [u] parses to, if the download and the parse succeed;
    [disk] is the file system. *)
Record World : Type := {
  network : string -> option Frame;
  disk : string -> option string
}.

(** Everything the run does that can be observed: a download, a call
    into a library with its arguments, the value it returns, a line on
    the standard output, a file written, an exception raised. *)
Inductive event (V : Type) : Type :=
| EvRead (url : string)
| EvCall (fn : string) (args : list (value V)) (kwargs : dict V)
| EvReturn (v : value V)
| EvPrint (v : value V)
| EvWrite (path : string)
| EvRaise (e : exn).

Arguments EvRead {V} url.
Arguments EvWrite {V} path.
Arguments EvRaise {V} e.

(** The log holds the newest event first. *)
Record State (V : Type) : Type := {
  world : World;
  log : list (event V)
}.

Inductive Outcome (A : Type) : Type :=
| Ok (a : A)
| Raised (e : exn).

Arguments Raised {A} e.

(** The numerical and plotting routines (statsmodels, numpy, seaborn,
    matplotlib, and [DataFrame.corr] of pandas): the function named
    [fn], applied to positional and keyword arguments, returns a value
    or raises.  Nothing is assumed of what it returns. *)
Definition Library (V : Type) : Type :=
string -> list (value V) -> dict V -> result (value V).

Section Interp.
Variable V : Type.

Definition M (A : Type) : Type := State V -> Outcome A * State V.

Definition ret (A : Type) (a : A) : M A := fun s => (Ok a, s).

(** Sequencing: an exception in the first statement skips the rest. *)
Definition bind (A B : Type) (m : M A) (k : A -> M B) : M B :=
fun s =>
  match m s with
  | (Ok a, s') => k a s'
  | (Raised e, s') => (Raised e, s')
  end.

Definition emit (ev : event V) : M unit :=
fun s => (Ok tt, {| world := world s; log := ev :: log s |}).

Definition raise (A : Type) (e : exn) : M A :=
fun s => (Raised e, {| world := world s; log := EvRaise e :: log s |}).

(** A pandas or built-in operation: its value, or its exception
    raised. *)
Definition lift (A : Type) (r : result A) : M A :=
match r with
| inr a => ret a
| inl e => raise A e
end.

(** [pd.read_csv(url)]. *)
Definition read_csv (url : string) : M Frame :=
bind (emit (EvRead url)) (fun _ s =>
  match network (world s) url with
  | Some f => ret f s
  | None => raise Frame (URLError url) s
  end).

(** [print(v)]. *)
Definition print (v : value V) : M unit := emit (EvPrint v).

(** [try: m  except Exception as e: h e].  The script has no such
    statement; it is defined to say what catching would be. *)
Definition try_except (A : Type) (m : M A) (h : exn -> M A) : M A :=
fun s =>
  match m s with
  | (Raised e, s') => h e s'
  | r => r
  end.

(** Writing a file, as [DataFrame.to_csv(path)] or [plt.savefig(path)]
    would.  The script has no such call either. *)
Definition write_file (path content : string) : M unit :=
fun s =>
  (Ok tt,
   {| world := {| network := network (world s);
                  disk := fun p => if String.eqb p path then Some content
                                   else disk (world s) p |};
      log := EvWrite path :: log s |}).

Variable lib : Library V.

(** A call into statsmodels, numpy, seaborn or matplotlib. *)
Definition call (fn : string) (args : list (value V)) (kwargs : dict V)
  : M (value V) :=
bind (emit (EvCall fn args kwargs)) (fun _ =>
  match lib fn args kwargs with
  | inr v => bind (emit (EvReturn v)) (fun _ => ret v)
  | inl e => raise (value V) e
  end).

(** [o.name], [o[i]], [o**n] and [o.name(args)] on a library object. *)
Definition getattr (o : value V) (name : string) : M (value V) :=
call "getattr" [o; VStr name] [].

Definition getitem (o i : value V) : M (value V) :=
call "getitem" [o; i] [].

Definition pow (o : value V) (n : Z) : M (value V) :=
call "pow" [o; VInt n] [].

Definition method (name : string) (o : value V) (args : list (value V))
  (kwargs : dict V) : M (value V) :=
call name (o :: args) kwargs.

End Interp.

Arguments ret {V A} a.
Arguments bind {V A B} m k.
Arguments lift {V A} r.
Arguments raise {V A} e.
Arguments print {V} v.
Arguments read_csv {V} url.
Arguments try_except {V A} m h.

Notation "x <- m ;; k" := (bind m (fun x => k))
  (at level 61, m at next level, right associativity).
Notation "m ;; k" := (bind m (fun _ => k))
  (at level 61, right associativity).
Notation "' pat <- m ;; k" := (bind m (fun x => match x with pat => k end))
  (at level 61, pat pattern, m at next level, right associativity).

(* ================================================================== *)
(** * The script *)
(* ================================================================== *)

(** Lines 107 and 111. *)
Definition url : string :=
"https://raw.githubusercontent.com/kshedden/statswpy/master/NHANES/merged/nhanes_2015_2016.csv".

Definition vars : list string :=
["BPXSY1"; "RIDAGEYR"; "RIAGENDR"; "RIDRETH1"; "DMDEDUC2"; "BMXBMI"; "SMQ020"]%string.

(** Lines 417-418 (and again 640-641): reference values of the
    variables that are not the focus of a plot. *)
Definition reference_values (V : Type) : dict V :=
[("RIAGENDRx", VStr "Female"); ("RIAGENDR", VInt 2); ("BMXBMI", VInt 25);
 ("DMDEDUC2", VInt 1); ("RIDRETH1", VInt 1); ("SMQ020", VInt 1)]%string.

Section Script.
Variable V : Type.
Variable lib : Library V.

Local Open Scope string_scope.

(** ** NHANES (lines 107-112) *)
Definition nhanes : M V Frame :=
da <- read_csv url ;;
sel <- lift (getitem_list da vars) ;;
ret (dropna sel).

(** ** Interpreting regression parameters in a basic model;
       R-squared and correlation (lines 178-241) *)
Definition basic_model (da : Frame) : M V unit :=
model <- call lib "sm.OLS.from_formula" [VStr "BPXSY1 ~ RIDAGEYR"] [("data", VFrame da)] ;;
result <- method lib "fit" model [] [] ;;
method lib "summary" result [] [] ;;
(* 204 *)
sbp <- lift (getattr_col da "BPXSY1") ;;
ys <- lift (to_numeric sbp) ;;
_ <- ret (series_std binary64 ys) ;;
(* 227-228 *)
sub <- lift (getitem_list da ["BPXSY1"; "RIDAGEYR"]) ;;
cc <- method lib "corr" (VFrame sub) [] [] ;;
c <- getattr lib cc "BPXSY1" ;;
c <- getattr lib c "RIDAGEYR" ;;
c <- pow lib c 2 ;;
print c ;;
(* 240-241 *)
sbp <- lift (getattr_col da "BPXSY1") ;;
fitted <- getattr lib result "fittedvalues" ;;
cc <- call lib "np.corrcoef" [VSeries sbp; fitted] [] ;;
c <- getitem lib cc (VTuple [VInt 0; VInt 1]) ;;
c <- pow lib c 2 ;;
print c.

(** ** Adding a second variable (lines 261-318) *)
Definition second_variable (da : Frame) : M V Frame :=
gender <- lift (getattr_col da "RIAGENDR") ;;
da <- lift (setitem da "RIAGENDRx"
              (series_replace [(1%Z, CStr "Male"); (2%Z, CStr "Female")] gender)) ;;
(* 265-267 *)
model <- call lib "sm.OLS.from_formula" [VStr "BPXSY1 ~ RIDAGEYR + RIAGENDRx"] [("data", VFrame da)] ;;
result <- method lib "fit" model [] [] ;;
method lib "summary" result [] [] ;;
(* 306 *)
sub <- lift (getitem_list da ["RIDAGEYR"; "RIAGENDR"]) ;;
method lib "corr" (VFrame sub) [] [] ;;
(* 317-318 *)
sbp <- lift (getattr_col da "BPXSY1") ;;
fitted <- getattr lib result "fittedvalues" ;;
cc <- call lib "np.corrcoef" [VSeries sbp; fitted] [] ;;
c <- getitem lib cc (VTuple [VInt 0; VInt 1]) ;;
c <- pow lib c 2 ;;
print c ;;
ret da.

(** ** A model with three variables (lines 366-378) *)
Definition three_variables (da : Frame) : M V (value V) :=
model <- call lib "sm.OLS.from_formula" [VStr "BPXSY1 ~ RIDAGEYR + BMXBMI + RIAGENDRx"] [("data", VFrame da)] ;;
result <- method lib "fit" model [] [] ;;
method lib "summary" result [] [] ;;
(* 378 *)
sub <- lift (getitem_list da ["RIDAGEYR"; "RIAGENDR"; "BMXBMI"]) ;;
method lib "corr" (VFrame sub) [] [] ;;
ret result.

(** Lines 420-426, 434-440 and 643-649: the fitted mean against one
    focus variable, with its simultaneous confidence band. *)
Definition plot_fitted (result : value V) (focus : string) (values : dict V)
  (xlabel : string) : M V unit :=
t <- call lib "predict_functional" [result; VStr focus]
       [("values", VDict values); ("ci_method", VStr "simultaneous")] ;;
'(pr, cb, fv) <- lift (unpack3 t) ;;
ax <- call lib "sns.lineplot" [fv; pr] [("lw", VInt 4)] ;;
lo <- getitem lib cb (VTuple [VSlice; VInt 0]) ;;
hi <- getitem lib cb (VTuple [VSlice; VInt 1]) ;;
method lib "fill_between" ax [fv; lo; hi]
  [("color", VStr "grey"); ("alpha", VFloat (F64.dec 4 1))] ;;
method lib "set_xlabel" ax [VStr xlabel] [] ;;
method lib "set_ylabel" ax [VStr "SBP"] [] ;;
ret tt.

(** ** Visualization of the fitted models (lines 417-440) *)
Definition visualization (result : value V) : M V unit :=
values <- ret (reference_values V) ;;
plot_fitted result "RIDAGEYR" values "Age" ;;
(* 432-433 *)
values <- lift (dict_del values "BMXBMI") ;;
values <- ret (dict_set values "RIDAGEYR" (VInt 50)) ;;
plot_fitted result "BMXBMI" values "BMI".

(** Lines 514-517 and 527-530: a component plus residual plot. *)
Definition ccpr_plot (result : value V) (focus : string) : M V unit :=
ax <- call lib "plt.axes" [] [] ;;
call lib "plot_ccpr" [result; VStr focus; ax] [] ;;
lines <- getattr lib ax "lines" ;;
line <- getitem lib lines (VInt 0) ;;
method lib "set_alpha" line [VFloat (F64.dec 2 1)] [] ;;
lines <- getattr lib ax "lines" ;;
line <- getitem lib lines (VInt 1) ;;
method lib "set_color" line [VStr "orange"] [] ;;
ret tt.

(** ** Visualizing variance structure (lines 486-530) *)
Definition variance_structure (result : value V) : M V unit :=
fitted <- getattr lib result "fittedvalues" ;;
resid <- getattr lib result "resid" ;;
pp <- call lib "sns.scatterplot" [fitted; resid] [] ;;
method lib "set_xlabel" pp [VStr "Fitted values"] [] ;;
method lib "set_ylabel" pp [VStr "Residuals"] [] ;;
ccpr_plot result "RIDAGEYR" ;;
ccpr_plot result "BMXBMI".

(** Lines 558-563 and 580-585: the three-variable model fitted again
    through [GLM], and its added variable plot. *)
Definition added_variable_plot (da : Frame) (focus : string) : M V unit :=
model <- call lib "sm.GLM.from_formula" [VStr "BPXSY1 ~ RIDAGEYR + BMXBMI + RIAGENDRx"] [("data", VFrame da)] ;;
result <- method lib "fit" model [] [] ;;
fig <- method lib "plot_added_variable" result [VStr focus] [] ;;
axes <- getattr lib fig "axes" ;;
ax <- getitem lib axes (VInt 0) ;;
lines <- getattr lib ax "lines" ;;
line <- getitem lib lines (VInt 0) ;;
method lib "set_alpha" line [VFloat (F64.dec 2 1)] [] ;;
axes <- getattr lib fig "axes" ;;
ax <- getitem lib axes (VInt 0) ;;
call lib "add_lowess" [ax] [("frac", VFloat (F64.dec 5 1))] ;;
ret tt.

(** ** Assessing curvature (lines 558-585) *)
Definition assessing_curvature (da : Frame) : M V unit :=
added_variable_plot da "RIDAGEYR" ;;
added_variable_plot da "BMXBMI".

(** ** Basis functions and splines (lines 612-649) *)
Definition splines (da : Frame) : M V (Frame * dict V) :=
age <- lift (getattr_col da "RIDAGEYR") ;;
xs <- lift (to_numeric age) ;;
da <- lift (setitem da "RIDAGEYR_z" (of_numeric (standardized binary64 xs))) ;;
model <- call lib "sm.OLS.from_formula" [VStr "BPXSY1 ~ RIDAGEYR_z + I(RIDAGEYR_z**2) + RIAGENDRx"] [("data", VFrame da)] ;;
result <- method lib "fit" model [] [] ;;
method lib "summary" result [] [] ;;
(* 631-633 *)
model <- call lib "sm.OLS.from_formula" [VStr "BPXSY1 ~ bs(RIDAGEYR, 5) + BMXBMI + RIAGENDRx"] [("data", VFrame da)] ;;
result <- method lib "fit" model [] [] ;;
method lib "summary" result [] [] ;;
(* 639-649 *)
da <- lift (delitem da "RIDAGEYR_z") ;;
values <- ret (reference_values V) ;;
plot_fitted result "RIDAGEYR" values "RIDAGEYR" ;;
ret (da, values).

(** ** Interactions (lines 686-709) *)
Definition interactions (da : Frame) (values : dict V) : M V Frame :=
age <- lift (getattr_col da "RIDAGEYR") ;;
xs <- lift (to_numeric age) ;;
da <- lift (setitem da "RIDAGEYR_cen" (of_numeric (centered binary64 xs))) ;;
model <- call lib "sm.OLS.from_formula" [VStr "BPXSY1 ~ RIDAGEYR_cen*RIAGENDRx + BMXBMI"] [("data", VFrame da)] ;;
result <- method lib "fit" model [] [] ;;
method lib "summary" result [] [] ;;
(* 697-701 *)
values <- ret (dict_set values "RIAGENDRx" (VStr "Female")) ;;
values <- ret (dict_set values "RIDAGEYR" (VFloat F64.nan)) ;;
t <- call lib "predict_functional" [result; VStr "RIDAGEYR_cen"]
       [("values", VDict values); ("ci_method", VStr "simultaneous")] ;;
'(pr1, cb1, fv1) <- lift (unpack3 t) ;;
ax <- call lib "sns.lineplot" [fv1; pr1] [("lw", VInt 4); ("label", VStr "Female")] ;;
(* 703-706 *)
values <- ret (dict_set values "RIAGENDRx" (VStr "Male")) ;;
t <- call lib "predict_functional" [result; VStr "RIDAGEYR_cen"]
       [("values", VDict values); ("ci_method", VStr "simultaneous")] ;;
'(pr2, cb2, fv2) <- lift (unpack3 t) ;;
ax <- call lib "sns.lineplot" [fv2; pr2] [("lw", VInt 4); ("label", VStr "Male")] ;;
(* 708-709 *)
method lib "set_xlabel" ax [VStr "RIDAGEYR"] [] ;;
method lib "set_ylabel" ax [VStr "SBP"] [] ;;
ret da.

(** Everything after the data are loaded (lines 178-709). *)
Definition analysis (da : Frame) : M V Frame :=
basic_model da ;;
da <- second_variable da ;;
result <- three_variables da ;;
visualization result ;;
variance_structure result ;;
assessing_curvature da ;;
'(da, values) <- splines da ;;
interactions da values.

(** The whole script; its value is the frame [da] at the end. *)
Definition main : M V Frame :=
da <- nhanes ;;
analysis da.

End Script.

(** A run starts with an empty log. *)
Definition run (V : Type) (lib : Library V) (w : World) : Outcome Frame * State V :=
main lib {| world := w; log := [] |}.

(** The events of a run, oldest first. *)
Definition trace (V : Type) (lib : Library V) (w : World) : list (event V) :=
rev (log (snd (run lib w))).

Definition outcome (V : Type) (lib : Library V) (w : World) : Outcome Frame :=
fst (run lib w).

(* ================================================================== *)
(** * Reading the log *)
(* ================================================================== *)

Inductive fit_kind : Type := OLS | GLM.

(** One model fit: the estimator, the formula and the data frame given
    to [from_formula]. *)
Record fit : Type := Fit {
  fit_estimator : fit_kind;
  fit_formula : string;
  fit_data : Frame
}.

(** [from_formula] of the two estimators that the script uses. *)
Definition estimator_of (fn : string) : option fit_kind :=
if String.eqb fn "sm.OLS.from_formula" then Some OLS
else if String.eqb fn "sm.GLM.from_formula" then Some GLM
else None.

Definition fit_of_event (V : Type) (ev : event V) : option fit :=
match ev with
| EvCall fn args kwargs =>
    match estimator_of fn with
    | Some k =>
        match args, kwargs with
        | [VStr f], [(_, VFrame df)] => Some (Fit k f df)
        | _, _ => None
        end
    | None => None
    end
| _ => None
end.

(** The fits of a log: every call of [from_formula], whether it
    returned or raised. *)
Definition fits (V : Type) (evs : list (event V)) : list fit :=
flat_map (fun ev => match fit_of_event ev with Some x => [x] | None => [] end) evs.

Definition fitted_formulas (V : Type) (evs : list (event V)) : list string :=
map fit_formula (fits evs).

Definition ols_formulas (V : Type) (evs : list (event V)) : list string :=
map fit_formula
    (filter (fun x => match fit_estimator x with OLS => true | GLM => false end)
            (fits evs)).

Definition reads (V : Type) (evs : list (event V)) : list string :=
flat_map (fun ev => match ev with EvRead u => [u] | _ => [] end) evs.

Definition writes (V : Type) (evs : list (event V)) : list string :=
flat_map (fun ev => match ev with EvWrite p => [p] | _ => [] end) evs.

Definition raises (V : Type) (evs : list (event V)) : list exn :=
flat_map (fun ev => match ev with EvRaise e => [e] | _ => [] end) evs.

Definition completes (A : Type) (o : Outcome A) : bool :=
match o with Ok _ => true | Raised _ => false end.

(** The column [name] of the frame [f] has no missing value (and is
    there). *)
Definition column_complete (f : Frame) (name : string) : bool :=
match frame_get f name with
| Some col => no_missing col
| None => false
end.

(** The numbers of the column [name], when it is a numeric column. *)
Definition numbers (f : Frame) (name : string) : option (list F64.float) :=
match frame_get f name with
| Some col => match to_numeric col with inr xs => Some xs | inl _ => None end
| None => None
end.

(* ================================================================== *)
(** * Sample libraries and data sets *)
(* ================================================================== *)

(** A library in which every call succeeds: [predict_functional] hands
    back three arrays, every other function one object. *)
Definition quiet_library : Library nat :=
fun fn _ _ =>
  if String.eqb fn "predict_functional"
  then inr (VTuple [VObj 1; VObj 2; VObj 3])
  else inr (VObj 0).

(** A library whose spline basis fails. *)
Definition failing_library : Library nat :=
fun fn args kwargs =>
  match args with
  | [VStr "BPXSY1 ~ bs(RIDAGEYR, 5) + BMXBMI + RIAGENDRx"] =>
      inl (Exn "PatsyError" "bs")
  | _ => quiet_library fn args kwargs
  end.

(** A library that answers as [quiet_library] does, except to a call
    that the script never makes. *)
Definition saving_library : Library nat :=
fun fn args kwargs =>
  if String.eqb fn "plt.savefig" then inl (Exn "OSError" "plt.savefig")
  else quiet_library fn args kwargs.

Definition ints (l : list Z) : Column := map (fun n => CNum (F64.of_Z n)) l.

(** Fourteen respondents with the columns of the survey file that the
    script uses and one more.  The third has no blood pressure and the
    ninth no education level: twelve rows are complete. *)
Definition survey (ages : list Z) : Frame :=
[("SEQN", ints [83732; 83733; 83734; 83735; 83736; 83737; 83741; 83742;
                83743; 83744; 83747; 83750; 83752; 83753]%Z);
 ("RIAGENDR", ints [1; 1; 1; 2; 2; 2; 1; 2; 1; 1; 1; 1; 2; 1]%Z);
 ("RIDAGEYR", ints ages);
 ("RIDRETH1", ints [3; 3; 3; 3; 4; 1; 4; 1; 5; 4; 5; 5; 2; 1]%Z);
 ("DMDEDUC2", (ints [5; 3; 3; 5; 4; 2; 4; 4]%Z ++ [CNum F64.nan]
               ++ ints [3; 5; 4; 2; 3]%Z)%list);
 ("BPXSY1", (ints [128; 146]%Z ++ [CNum F64.nan]
             ++ ints [132; 100; 116; 110; 120; 108; 178; 144; 116; 100; 104]%Z)%list);
 ("BMXBMI", map (fun n => CNum (F64.dec n 1))
                [278; 308; 288; 424; 203; 286; 280; 282; 210; 337; 277; 241;
                 275; 358]%Z);
 ("SMQ020", ints [1; 1; 1; 2; 2; 2; 1; 2; 2; 2; 1; 2; 2; 1]%Z)]%string.

Definition sample_ages : list Z :=
[62; 53; 78; 56; 42; 72; 22; 32; 18; 56; 46; 45; 30; 68]%Z.

(** The ages of the twelve complete rows. *)
Definition complete_ages : list Z :=
[62; 53; 56; 42; 72; 22; 32; 56; 46; 45; 30; 68]%Z.

Definition serving (f : Frame) : World :=
{| network := fun u => if String.eqb u url then Some f else None;
   disk := fun _ => None |}.

Definition nhanes_sample : World := serving (survey sample_ages).

(** The same survey with a last respondent of 72: the ages of the
    twelve complete rows add up to 588, and their mean is 49. *)
Definition whole_mean_ages : list Z :=
[62; 53; 78; 56; 42; 72; 22; 32; 18; 56; 46; 45; 30; 72]%Z.

Definition nhanes_whole_mean : World := serving (survey whole_mean_ages).

(** The file lacks the column [BMXBMI]. *)
Definition no_bmi : World :=
serving (frame_remove (survey sample_ages) "BMXBMI").

(** The same table at the address of the script, another table at every
    other address, and a disk that is not empty. *)
Definition nhanes_mirror : World :=
{| network := fun u => if String.eqb u url
                       then Some (survey sample_ages)
                       else Some [("SEQN"%string, ints [1]%Z)];
   disk := fun _ => Some "x"%string |}.

(** The models of a complete run: estimator and formula. *)
Definition models_of_the_script : list (fit_kind * string) :=
[(OLS, "BPXSY1 ~ RIDAGEYR");
 (OLS, "BPXSY1 ~ RIDAGEYR + RIAGENDRx");
 (OLS, "BPXSY1 ~ RIDAGEYR + BMXBMI + RIAGENDRx");
 (GLM, "BPXSY1 ~ RIDAGEYR + BMXBMI + RIAGENDRx");
 (GLM, "BPXSY1 ~ RIDAGEYR + BMXBMI + RIAGENDRx");
 (OLS, "BPXSY1 ~ RIDAGEYR_z + I(RIDAGEYR_z**2) + RIAGENDRx");
 (OLS, "BPXSY1 ~ bs(RIDAGEYR, 5) + BMXBMI + RIAGENDRx");
 (OLS, "BPXSY1 ~ RIDAGEYR_cen*RIAGENDRx + BMXBMI")]%string.

(** Nothing is served at the address; a file exists on the disk. *)
Definition offline : World :=
{| network := fun _ => None;
   disk := fun p => if String.eqb p "notes.txt" then Some "x"%string else None |}.

(* ================================================================== *)
(** * The frames of a run *)
(* ================================================================== *)

(** The frame after line 112: the seven columns of [vars]. *)
Definition measurements (sbp age gender eth edu bmi smoke : Column) : Frame :=
[("BPXSY1", sbp); ("RIDAGEYR", age); ("RIAGENDR", gender); ("RIDRETH1", eth);
 ("DMDEDUC2", edu); ("BMXBMI", bmi); ("SMQ020", smoke)]%string.

(** Line 261: the labels of [RIAGENDRx]. *)
Definition gender_labels (gender : Column) : Column :=
series_replace [(1%Z, CStr "Male"); (2%Z, CStr "Female")] gender.

(** The four frames that the script hands to [from_formula]: the
    measurements alone (line 178); with [RIAGENDRx] (lines 265, 366,
    558, 580); with [RIDAGEYR_z] too (lines 613, 631); with
    [RIDAGEYR_cen] in its place (line 687). *)
Inductive stage (base : Frame) (age gender : Column) : Frame -> Prop :=
| stage_measurements :
    stage base age gender base
| stage_gender :
    stage base age gender (base ++ [("RIAGENDRx"%string, gender_labels gender)])
| stage_standardized xs :
    to_numeric age = inr xs ->
    stage base age gender
      (base ++ [("RIAGENDRx"%string, gender_labels gender);
                ("RIDAGEYR_z"%string, of_numeric (standardized binary64 xs))])
| stage_centered xs :
    to_numeric age = inr xs ->
    stage base age gender
      (base ++ [("RIAGENDRx"%string, gender_labels gender);
                ("RIDAGEYR_cen"%string, of_numeric (centered binary64 xs))]).

(** Event predicates. *)

(** A fit has systolic blood pressure on the left of its formula. *)
Definition models_sbp (V : Type) (ev : event V) : Prop :=
match fit_of_event ev with
| Some x => formula_lhs (fit_formula x) = Some "BPXSY1"%string
| None => True
end.

(** Neither a download nor a file written. *)
Definition no_io (V : Type) (ev : event V) : Prop :=
match ev with
| EvRead _ | EvWrite _ => False
| _ => True
end.

(** What the statements after the download may log. *)
Definition analysis_event (V : Type) (ev : event V) : Prop :=
no_io ev /\ models_sbp ev.

(** A fit is given one of the four frames. *)
Definition staged (V : Type) (base : Frame) (age gender : Column) (ev : event V) : Prop :=
match fit_of_event ev with
| Some x => stage base age gender (fit_data x)
| None => True
end.

(* ================================================================== *)
(** * Judgments about a computation *)
(* ================================================================== *)

Definition fit_sigs (V : Type) (evs : list (event V)) : list (fit_kind * string) :=
map (fun x => (fit_estimator x, fit_formula x)) (fits evs).

(** The functions called, in the order of the log [evs]. *)
Definition call_names (V : Type) (evs : list (event V)) : list string :=
flat_map (fun ev => match ev with EvCall fn _ _ => [fn] | _ => [] end) evs.

Definition prints (V : Type) (evs : list (event V)) : list (value V) :=
flat_map (fun ev => match ev with EvPrint v => [v] | _ => [] end) evs.

(** The calls in the text of the script, statement after statement:
    first the three groups of statements that the script repeats (lines
    420-426, 434-440 and 643-649; lines 514-517 and 527-530; lines
    558-563 and 580-585), then its sections in order. *)
Definition calls_of_plot_fitted : list string :=
["predict_functional"; "sns.lineplot"; "getitem"; "getitem"; "fill_between";
 "set_xlabel"; "set_ylabel"]%string.

Definition calls_of_ccpr_plot : list string :=
["plt.axes"; "plot_ccpr"; "getattr"; "getitem"; "set_alpha";
 "getattr"; "getitem"; "set_color"]%string.

Definition calls_of_added_variable_plot : list string :=
["sm.GLM.from_formula"; "fit"; "plot_added_variable"; "getattr"; "getitem";
 "getattr"; "getitem"; "set_alpha"; "getattr"; "getitem"; "add_lowess"]%string.

Definition calls_of_basic_model : list string :=
["sm.OLS.from_formula"; "fit"; "summary"; "corr"; "getattr"; "getattr"; "pow";
 "getattr"; "np.corrcoef"; "getitem"; "pow"]%string.

Definition calls_of_second_variable : list string :=
["sm.OLS.from_formula"; "fit"; "summary"; "corr"; "getattr"; "np.corrcoef";
 "getitem"; "pow"]%string.

Definition calls_of_three_variables : list string :=
["sm.OLS.from_formula"; "fit"; "summary"; "corr"]%string.

Definition calls_of_variance_structure : list string :=
(["getattr"; "getattr"; "sns.scatterplot"; "set_xlabel"; "set_ylabel"]%string
 ++ calls_of_ccpr_plot ++ calls_of_ccpr_plot)%list.

Definition calls_of_splines : list string :=
(["sm.OLS.from_formula"; "fit"; "summary";
  "sm.OLS.from_formula"; "fit"; "summary"]%string
 ++ calls_of_plot_fitted)%list.

Definition calls_of_interactions : list string :=
["sm.OLS.from_formula"; "fit"; "summary";
 "predict_functional"; "sns.lineplot"; "predict_functional"; "sns.lineplot";
 "set_xlabel"; "set_ylabel"]%string.

Definition calls_of_the_script : list string :=
(calls_of_basic_model                                              (* 178-241 *)
 ++ calls_of_second_variable                                       (* 261-318 *)
 ++ calls_of_three_variables                                       (* 366-378 *)
 ++ (calls_of_plot_fitted ++ calls_of_plot_fitted)                 (* 417-440 *)
 ++ calls_of_variance_structure                                    (* 486-530 *)
 ++ (calls_of_added_variable_plot ++ calls_of_added_variable_plot) (* 558-585 *)
 ++ calls_of_splines                                               (* 612-649 *)
 ++ calls_of_interactions)%list.                                   (* 686-709 *)

(** What the calls of the script are for: a model (its construction,
    its fit, its summary), a statistic (a correlation, a prediction), a
    part of a result or of a figure ([o.name], [o[i]], [o**n]), a
    plot. *)
Inductive purpose : Type := Modelling | Statistics | Access | Plotting.

Definition purpose_of (fn : string) : option purpose :=
if mem_string fn ["sm.OLS.from_formula"; "sm.GLM.from_formula"; "fit"; "summary"]%string
then Some Modelling
else if mem_string fn ["corr"; "np.corrcoef"; "predict_functional"]%string
then Some Statistics
else if mem_string fn ["getattr"; "getitem"; "pow"]%string
then Some Access
else if mem_string fn ["sns.lineplot"; "sns.scatterplot"; "plt.axes";
                       "fill_between"; "set_xlabel"; "set_ylabel"; "set_alpha";
                       "set_color"; "plot_ccpr"; "plot_added_variable";
                       "add_lowess"]%string
then Some Plotting
else None.

Definition purpose_eqb (p q : purpose) : bool :=
match p, q with
| Modelling, Modelling | Statistics, Statistics
| Access, Access | Plotting, Plotting => true
| _, _ => false
end.

(** The calls with the purpose [p] among [names]. *)
Definition with_purpose (p : purpose) (names : list string) : list string :=
filter (fun fn => match purpose_of fn with
                  | Some q => purpose_eqb p q
                  | None => false
                  end) names.

(** What a run of the script may log: the download of the table, a
    call with one of the four purposes, the value a call returns, a
    printed value, an exception.  No file written, no other download,
    no other call. *)
Definition top_level (V : Type) (ev : event V) : Prop :=
match ev with
| EvRead u => u = url
| EvCall fn _ _ => purpose_of fn <> None
| EvWrite _ => False
| EvReturn _ | EvPrint _ | EvRaise _ => True
end.

Section Judgments.
Variable V : Type.

(** From a state whose world is [w], the computation [m] leaves the
    world as it is, appends to the log only events that satisfy [P],
    logs an exception exactly when that exception is its outcome, and
    returns a value that satisfies [Q]. *)
Definition sound (w : World) (P : event V -> Prop) (A : Type) (m : M V A)
  (Q : A -> Prop) : Prop :=
forall s, world s = w ->
  exists evs,
    snd (m s) = {| world := w; log := evs ++ log s |} /\
    Forall P evs /\
    match fst (m s) with
    | Ok a => Q a /\ raises evs = []
    | Raised e => raises evs = [e]
    end.

(** When [m] completes, the models it has fitted are [sigs], in this
    order. *)
Definition fits_when_complete (A : Type) (m : M V A)
  (sigs : list (fit_kind * string)) : Prop :=
forall s,
  exists evs,
    log (snd (m s)) = evs ++ log s /\
    (completes (fst (m s)) = true -> fit_sigs (rev evs) = sigs).

(** Two states that serve the same table at [url] and hold the same
    log. *)
Definition same_inputs (s1 s2 : State V) : Prop :=
network (world s1) url = network (world s2) url /\ log s1 = log s2.

(** The library [lib2] answers as [lib1] does to every call that the
    log [evs] holds. *)
Definition agree_on (lib1 lib2 : Library V) (evs : list (event V)) : Prop :=
forall fn args kwargs,
  In (EvCall fn args kwargs) evs -> lib2 fn args kwargs = lib1 fn args kwargs.

(** [m2] is [m1] with [lib2] for [lib1].  From states with the same
    inputs, [m1] only adds to the log; and if [lib2] answers as [lib1]
    to the calls that [m1] has made, [m2] has the same outcome and leaves
    a state with the same inputs. *)
Definition replays (lib1 lib2 : Library V) (A : Type) (m1 m2 : M V A) : Prop :=
forall s1 s2, same_inputs s1 s2 ->
  (exists evs, log (snd (m1 s1)) = evs ++ log s1) /\
  (agree_on lib1 lib2 (log (snd (m1 s1))) ->
   fst (m2 s2) = fst (m1 s1) /\ same_inputs (snd (m1 s1)) (snd (m2 s2))).

(** [m] makes the calls [names], in this order and whatever the values
    it works on, and stops before the end only at an exception. *)
Definition straight (A : Type) (m : M V A) (names : list string) : Prop :=
forall s,
  exists evs,
    log (snd (m s)) = evs ++ log s /\
    match fst (m s) with
    | Ok _ => call_names (rev evs) = names
    | Raised _ => exists k, call_names (rev evs) = firstn k names
    end.

End Judgments.

(* ================================================================== *)
(** * More readings of frames, formulas and logs *)
(* ================================================================== *)

(** Every column has as many cells as the first. *)
Definition rectangular (f : Frame) : bool :=
forallb (fun nc : string * Column => Nat.eqb (List.length (snd nc)) (nrows f)) f.

(** The number of rows that [dropna] keeps. *)
Definition complete_row_count (f : Frame) : nat :=
List.length (filter (row_complete f) (seq 0 (nrows f))).

(** The names that a formula looks up in its data: the identifiers that
    are not applied to arguments (as [bs] and [I] are) and are not
    numbers. *)
Definition is_letter (c : ascii) : bool :=
let n := nat_of_ascii c in
((65 <=? n) && (n <=? 90) || (97 <=? n) && (n <=? 122) || (n =? 95))%nat%bool.

Definition is_digit (c : ascii) : bool :=
let n := nat_of_ascii c in ((48 <=? n) && (n <=? 57))%nat%bool.

Definition identifier (tok : string) : list string :=
match tok with
| String c _ => if is_letter c then [tok] else []
| EmptyString => []
end.

Fixpoint names_from (s tok : string) : list string :=
match s with
| EmptyString => identifier tok
| String c r =>
    if (is_letter c || is_digit c)%bool
    then names_from r (tok ++ String c EmptyString)
    else if Ascii.eqb c "("%char then names_from r EmptyString
    else identifier tok ++ names_from r EmptyString
end.

Definition formula_names (f : string) : list string :=
names_from f EmptyString.

(** A fit whose formula names only columns of its data. *)
Definition names_resolved (x : fit) : bool :=
forallb (fun n => mem_string n (columns (fit_data x)))
        (formula_names (fit_formula x)).

(** A call of [predict_functional]: the focus variable and the
    dictionary of fixed values. *)
Definition prediction_of_event (V : Type) (ev : event V)
  : option (string * dict V) :=
match ev with
| EvCall fn args kwargs =>
    if String.eqb fn "predict_functional" then
      match args, kwargs with
      | [_; VStr focus], (_, VDict d) :: _ => Some (focus, d)
      | _, _ => None
      end
    else None
| _ => None
end.

Definition predictions (V : Type) (evs : list (event V))
  : list (string * dict V) :=
flat_map (fun ev => match prediction_of_event ev with
                    | Some x => [x] | None => [] end) evs.

(** What a call after the download may be: a fit whose names are
    columns of its frame, a prediction whose focus variable is not
    among the fixed values. *)
Definition consistent_call (V : Type) (ev : event V) : Prop :=
match fit_of_event ev with
| Some x => names_resolved x = true
| None => True
end /\
match prediction_of_event ev with
| Some (focus, d) => dict_get d focus = None
| None => True
end.

(** Which frame goes with which formula: the measurements alone with
    the first formula; with [RIAGENDRx] for the second and the third
    (lines 265, 366, 558, 580); with [RIDAGEYR_z] too for the quadratic
    and the spline formula (lines 613, 631); with [RIDAGEYR_cen] for
    the last (line 687). *)
Inductive fitted_on (base : Frame) (age gender : Column)
  : string -> Frame -> Prop :=
| on_measurements :
    fitted_on base age gender "BPXSY1 ~ RIDAGEYR" base
| on_gender f :
    f = "BPXSY1 ~ RIDAGEYR + RIAGENDRx"%string \/
    f = "BPXSY1 ~ RIDAGEYR + BMXBMI + RIAGENDRx"%string ->
    fitted_on base age gender f
      (base ++ [("RIAGENDRx"%string, gender_labels gender)])
| on_standardized f xs :
    f = "BPXSY1 ~ RIDAGEYR_z + I(RIDAGEYR_z**2) + RIAGENDRx"%string \/
    f = "BPXSY1 ~ bs(RIDAGEYR, 5) + BMXBMI + RIAGENDRx"%string ->
    to_numeric age = inr xs ->
    fitted_on base age gender f
      (base ++ [("RIAGENDRx"%string, gender_labels gender);
                ("RIDAGEYR_z"%string, of_numeric (standardized binary64 xs))])
| on_centered xs :
    to_numeric age = inr xs ->
    fitted_on base age gender "BPXSY1 ~ RIDAGEYR_cen*RIAGENDRx + BMXBMI"
      (base ++ [("RIAGENDRx"%string, gender_labels gender);
                ("RIDAGEYR_cen"%string, of_numeric (centered binary64 xs))]).

Definition fitted_consistently (V : Type) (base : Frame) (age gender : Column)
  (ev : event V) : Prop :=
match fit_of_event ev with
| Some x => fitted_on base age gender (fit_formula x) (fit_data x)
| None => True
end.

(** The survey table with its columns in the opposite order, without
    the respondent number and with a column that the script does not
    use, empty in every row. *)
Definition survey_rearranged : Frame :=
(("RIDEXPRG"%string, repeat (CNum F64.nan) 14)
 :: rev (frame_remove (survey sample_ages) "SEQN"))%list.

Definition nhanes_rearranged : World := serving survey_rearranged.

Section MoreJudgments.
Variable V : Type.

(** When [m] raises [e], the cause [R e] holds and [e] is the newest
    event of the log; when it returns [a], [Q a] holds. *)
Definition fails_with (R : exn -> Prop) (A : Type) (m : M V A)
  (Q : A -> Prop) : Prop :=
forall s,
  match m s with
  | (Raised e, s') => R e /\ exists rest, log s' = EvRaise e :: rest
  | (Ok a, _) => Q a
  end.

(** The computation does not look at the world. *)
Definition blind (A : Type) (m : M V A) : Prop :=
forall s1 s2, log s1 = log s2 ->
  fst (m s1) = fst (m s2) /\ log (snd (m s1)) = log (snd (m s2)).

(** Why the statements after the download can fail: a library raised;
    the ages or the blood pressures are not numbers; or
    [predict_functional] returned something that is not a triple. *)
Definition analysis_failure (lib : Library V) (age sbp : Column) (e : exn)
  : Prop :=
(exists fn args kwargs, lib fn args kwargs = inl e) \/
to_numeric age = inl e \/
to_numeric sbp = inl e \/
(exists args kwargs v,
   lib "predict_functional"%string args kwargs = inr v /\ unpack3 v = inl e).

End MoreJudgments.

(* ================================================================== *)
(** * Binary64: when a difference or a quotient is a number *)
(* ================================================================== *)

Section RoundingFacts.
Variables prec emax : Z.

Lemma shr_1_nonneg (mrs : shr_record) :
  (0 <= shr_m mrs)%Z -> (0 <= shr_m (shr_1 mrs))%Z.
Proof.
  destruct mrs as [m r s]; simpl.
  destruct m as [|p|p]; simpl; intros H; try lia.
  - destruct p; simpl; lia.
Qed.

Lemma iter_pos_invariant (A : Type) (I : A -> Prop) (f : A -> A) :
  (forall x, I x -> I (f x)) ->
  forall p x, I x -> I (@SpecFloat.iter_pos A f p x).
Proof.
  intros Hf. induction p as [p IH|p IH|]; simpl; intros x Hx; auto.
Qed.

Lemma shr_nonneg (mrs : shr_record) (e n : Z) :
  (0 <= shr_m mrs)%Z -> (0 <= shr_m (fst (shr mrs e n)))%Z.
Proof.
  intros H. unfold shr. destruct n; simpl; auto.
  apply iter_pos_invariant with (I := fun r => (0 <= shr_m r)%Z); auto.
  apply shr_1_nonneg.
Qed.

Lemma shr_fexp_nonneg (m e : Z) (l : location) :
  (0 <= m)%Z -> (0 <= shr_m (fst (shr_fexp prec emax m e l)))%Z.
Proof.
  intros H. unfold shr_fexp. apply shr_nonneg.
  destruct l as [|[| |]]; simpl; exact H.
Qed.

Lemma round_nearest_even_nonneg (m : Z) (l : location) :
  (0 <= m)%Z -> (0 <= round_nearest_even m l)%Z.
Proof.
  intros H. unfold round_nearest_even.
  destruct l as [|[| |]]; try destruct (Z.even m); lia.
Qed.

Lemma binary_round_aux_not_nan (sx : bool) (mx ex : Z) (lx : location) :
  (0 <= mx)%Z ->
  F64.is_nan (binary_round_aux prec emax sx mx ex lx) = false.
Proof.
  intros H. unfold binary_round_aux.
  pose proof (shr_fexp_nonneg ex lx H) as H1.
  destruct (shr_fexp prec emax mx ex lx) as [mrs' e']. simpl in H1.
  pose proof (round_nearest_even_nonneg (loc_of_shr_record mrs') H1) as H2.
  pose proof (shr_fexp_nonneg e' loc_Exact H2) as H3.
  destruct (shr_fexp prec emax _ e' loc_Exact) as [mrs'' e'']. simpl in H3.
  destruct (shr_m mrs'') as [|m|m]; try reflexivity.
  - destruct (Z.leb e'' (emax - prec)); reflexivity.
  - lia.
Qed.

Lemma binary_normalize_not_nan (m e : Z) (szero : bool) :
  F64.is_nan (binary_normalize prec emax m e szero) = false.
Proof.
  unfold binary_normalize, binary_round.
  destruct m as [|p|p]; try reflexivity.
  - destruct (shl_align p e _) as [mz ez]. apply binary_round_aux_not_nan. lia.
  - destruct (shl_align p e _) as [mz ez]. apply binary_round_aux_not_nan. lia.
Qed.

Lemma div_core_nonneg (m1 m2 : positive) (e1 e2 : Z) :
  (0 <= fst (fst (SFdiv_core_binary prec emax (Zpos m1) e1 (Zpos m2) e2)))%Z.
Proof.
  unfold SFdiv_core_binary.
  set (s := (e1 - e2 - _)%Z).
  set (m' := match s with Zpos _ => Z.shiftl (Zpos m1) s | Z0 => Zpos m1 | Zneg _ => Z0 end).
  assert (Hm : (0 <= m')%Z).
  { unfold m'. destruct s; try lia. apply Z.shiftl_nonneg. lia. }
  pose proof (Z.div_pos m' (Zpos m2) Hm ltac:(lia)) as Hq.
  unfold Z.div in Hq.
  destruct (Z.div_eucl m' (Zpos m2)) as [q r]. simpl. exact Hq.
Qed.

End RoundingFacts.

(** A number minus a finite number is a number. *)
Lemma sub_not_nan (x m : F64.float) :
  F64.is_nan x = false -> F64.is_finite m = true ->
  F64.is_nan (F64.sub x m) = false.
Proof.
  unfold F64.sub, SFsub.
  destruct x as [sx|sx| |sx mx ex], m as [sm|sm| |sm mm em];
    simpl; try discriminate; intros _ _; try reflexivity.
  - destruct sx, sm; reflexivity.
  - apply binary_normalize_not_nan.
Qed.

(** A number over a finite number other than zero is a number. *)
Lemma div_not_nan (x s : F64.float) :
  F64.is_nan x = false -> F64.is_nonzero_finite s = true ->
  F64.is_nan (F64.div x s) = false.
Proof.
  unfold F64.div, SFdiv.
  destruct x as [sx|sx| |sx mx ex], s as [ss|ss| |ss ms es];
    simpl; try discriminate; intros _ _; try reflexivity.
  pose proof (div_core_nonneg F64.prec F64.emax mx ms ex es) as H.
  destruct (SFdiv_core_binary _ _ _ _ _ _) as [[mz ez] lz]. simpl in H.
  apply binary_round_aux_not_nan. exact H.
Qed.

(* ================================================================== *)
(** * Binary64: whole numbers are added and averaged without rounding *)
(* ================================================================== *)

Lemma iter_pos_nat (A : Type) (f : A -> A) (n : positive) (x : A) :
  SpecFloat.iter_pos f n x = Nat.iter (Pos.to_nat n) f x.
Proof.
  revert x. induction n as [n IH|n IH|]; intros x; cbn [SpecFloat.iter_pos].
  - rewrite !IH, Pos2Nat.inj_xI.
    rewrite <- Nat.iter_succ_r, <- Nat.iter_add. f_equal. lia.
  - rewrite !IH, Pos2Nat.inj_xO, <- Nat.iter_add. f_equal. lia.
  - reflexivity.
Qed.

Lemma pos_iter_shl (p d : positive) : Pos.iter xO p d = shl p (Pos.to_nat d).
Proof. apply Pos2Nat.inj_iter. Qed.

Lemma shl_shl (p : positive) (a b : nat) : shl (shl p a) b = shl p (a + b).
Proof. unfold shl. rewrite Nat.add_comm. symmetry. apply Nat.iter_add. Qed.

Lemma shl_value (p : positive) (k : nat) :
  Zpos (shl p k) = (Zpos p * 2 ^ Z.of_nat k)%Z.
Proof.
  induction k as [|k IH].
  - simpl. lia.
  - unfold shl in *. rewrite Nat.iter_succ, Pos2Z.inj_xO, IH, Nat2Z.inj_succ, Z.pow_succ_r; lia.
Qed.

Lemma digits_shl (p : positive) (k : nat) :
  Zpos (digits2_pos (shl p k)) = (Zpos (digits2_pos p) + Z.of_nat k)%Z.
Proof.
  induction k as [|k IH].
  - simpl. lia.
  - unfold shl in *. rewrite Nat.iter_succ. simpl digits2_pos.
    rewrite Pos2Z.inj_succ, IH. lia.
Qed.

Lemma digits_size (p : positive) : digits2_pos p = Pos.size p.
Proof. induction p; simpl; congruence. Qed.

Lemma digits_upper (p : positive) : (Zpos p < 2 ^ Zpos (digits2_pos p))%Z.
Proof.
  rewrite digits_size. pose proof (Pos.size_gt p) as H.
  apply Pos2Z.pos_lt_pos in H. rewrite Pos2Z.inj_pow in H. exact H.
Qed.

Lemma digits_lower (p : positive) : (2 ^ (Zpos (digits2_pos p) - 1) <= Zpos p)%Z.
Proof.
  rewrite digits_size. pose proof (Pos.size_le p) as H.
  apply Pos2Z.pos_le_pos in H. rewrite Pos2Z.inj_pow, (Pos2Z.inj_xO p) in H.
  assert (E : (2 ^ Zpos (Pos.size p) = 2 * 2 ^ (Zpos (Pos.size p) - 1))%Z).
  { rewrite <- Z.pow_succ_r by lia. f_equal. lia. }
  rewrite E in H. lia.
Qed.

(** A number below [2^k] has at most [k] digits. *)
Lemma digits_le (p : positive) (k : Z) :
  (0 <= k)%Z -> (Zpos p < 2 ^ k)%Z -> (Zpos (digits2_pos p) <= k)%Z.
Proof.
  intros Hk H. pose proof (digits_lower p) as L.
  destruct (Z_le_gt_dec (Zpos (digits2_pos p)) k) as [|G]; [assumption|].
  exfalso. assert (2 ^ k <= 2 ^ (Zpos (digits2_pos p) - 1))%Z
    by (apply Z.pow_le_mono_r; lia). lia.
Qed.

(** Shifting out [n] zero bits. *)
Lemma shr_zero_bits (p : positive) (k n : nat) :
  n <= k ->
  Nat.iter n shr_1 {| shr_m := Zpos (shl p k); shr_r := false; shr_s := false |}
  = {| shr_m := Zpos (shl p (k - n)); shr_r := false; shr_s := false |}.
Proof.
  induction n as [|n IH]; intros H.
  - rewrite Nat.sub_0_r. reflexivity.
  - rewrite Nat.iter_succ, IH by lia.
    replace (k - n) with (S (k - S n)) by lia.
    unfold shl. rewrite Nat.iter_succ. reflexivity.
Qed.

Lemma fexp_whole (d : Z) :
  (1 <= d)%Z -> fexp F64.prec F64.emax d = (d - 53)%Z.
Proof. intros H. unfold fexp, emin, F64.prec, F64.emax. lia. Qed.

Lemma shr_exact (p : positive) (k : nat) (e n : Z) :
  (0 <= n <= Z.of_nat k)%Z ->
  shr {| shr_m := Zpos (shl p k); shr_r := false; shr_s := false |} e n
  = ({| shr_m := Zpos (shl p (k - Z.to_nat n)); shr_r := false; shr_s := false |},
     (e + n)%Z).
Proof.
  intros H. destruct n as [|n|n]; [| |lia].
  - simpl. rewrite Nat.sub_0_r, Z.add_0_r. reflexivity.
  - unfold shr. rewrite iter_pos_nat, shr_zero_bits by lia. reflexivity.
Qed.

(** Rounding [p * 2^k * 2^-k] changes nothing. *)
Lemma round_exact (s : bool) (p : positive) (k : nat) :
  (Zpos (digits2_pos p) <= 53)%Z ->
  (53 - Zpos (digits2_pos p) <= Z.of_nat k)%Z ->
  binary_round_aux F64.prec F64.emax s (Zpos (shl p k)) (- Z.of_nat k) loc_Exact
  = canon s p.
Proof.
  intros Hd Hk. unfold canon. set (d := Zpos (digits2_pos p)) in *.
  assert (Hd1 : (1 <= d)%Z) by (unfold d; lia).
  unfold binary_round_aux, shr_fexp.
  cbn [Zdigits2 shr_record_of_loc]. rewrite digits_shl. fold d.
  replace (d + Z.of_nat k + - Z.of_nat k)%Z with d by lia.
  rewrite fexp_whole by exact Hd1.
  rewrite shr_exact by lia.
  replace (k - Z.to_nat (d - 53 - - Z.of_nat k)) with (Z.to_nat (53 - d)) by lia.
  replace (- Z.of_nat k + (d - 53 - - Z.of_nat k))%Z with (d - 53)%Z by lia.
  cbn [shr_m loc_of_shr_record round_nearest_even Zdigits2 shr_record_of_loc].
  rewrite digits_shl. fold d.
  replace (d + Z.of_nat (Z.to_nat (53 - d)) + (d - 53))%Z with d by lia.
  rewrite fexp_whole by exact Hd1.
  replace (d - 53 - (d - 53))%Z with 0%Z by lia.
  cbn [shr shr_m].
  replace (Z.leb (d - 53) (F64.emax - F64.prec)) with true
    by (symmetry; apply Z.leb_le; unfold F64.emax, F64.prec; lia).
  reflexivity.
Qed.

(** So does normalising it. *)
Lemma normalize_exact (s : bool) (p : positive) (k : nat) :
  (Zpos (digits2_pos p) <= 53)%Z ->
  binary_round F64.prec F64.emax s (shl p k) (- Z.of_nat k) = canon s p.
Proof.
  intros Hd. set (d := Zpos (digits2_pos p)) in *.
  assert (Hd1 : (1 <= d)%Z) by (unfold d; lia).
  unfold binary_round. rewrite digits_shl. fold d.
  replace (d + Z.of_nat k + - Z.of_nat k)%Z with d by lia.
  rewrite fexp_whole by exact Hd1.
  unfold shl_align.
  destruct (d - 53 - - Z.of_nat k)%Z as [|n|n] eqn:E.
  - apply round_exact; fold d; lia.
  - apply round_exact; fold d; lia.
  - rewrite pos_iter_shl, shl_shl.
    replace (d - 53)%Z with (- Z.of_nat (k + Pos.to_nat n))%Z by lia.
    apply round_exact; fold d; lia.
Qed.

Lemma of_Z_pos (p : positive) :
  whole (Zpos p) -> F64.of_Z (Zpos p) = canon false p.
Proof.
  intros H. unfold F64.of_Z, binary_normalize.
  apply (normalize_exact false p 0). apply digits_le; [lia | exact H].
Qed.

Lemma of_Z_neg (p : positive) :
  whole (Zneg p) -> F64.of_Z (Zneg p) = canon true p.
Proof.
  intros H. unfold F64.of_Z, binary_normalize.
  apply (normalize_exact true p 0). apply digits_le; [lia | exact H].
Qed.

Lemma of_Z_zero : F64.of_Z 0 = S754_zero false.
Proof. reflexivity. Qed.

Lemma of_Z_signed (s : bool) (p : positive) :
  whole (signed s p) -> F64.of_Z (signed s p) = canon s p.
Proof. destruct s; [apply of_Z_neg | apply of_Z_pos]. Qed.

Lemma signed_cases (z : Z) : z = 0%Z \/ exists s p, z = signed s p.
Proof.
  destruct z as [|p|p]; [left; reflexivity | right | right].
  - exists false, p. reflexivity.
  - exists true, p. reflexivity.
Qed.

Lemma whole_digits (s : bool) (p : positive) :
  whole (signed s p) -> (Zpos (digits2_pos p) <= 53)%Z.
Proof.
  intros H. apply digits_le; [lia|]. unfold whole in H.
  destruct s; simpl in H; lia.
Qed.

Lemma signed_shl (s : bool) (p : positive) (k : nat) :
  cond_Zopp s (Zpos (shl p k)) = (signed s p * 2 ^ Z.of_nat k)%Z.
Proof.
  unfold signed. rewrite shl_value.
  destruct s; cbn [cond_Zopp]; [rewrite Z.mul_opp_l|]; reflexivity.
Qed.

Lemma shl_align_fst (m : positive) (e ez : Z) :
  fst (shl_align m e ez) = shl m (Z.to_nat (e - ez)).
Proof.
  unfold shl_align. destruct (ez - e)%Z as [|d|d] eqn:E; cbn [fst].
  - replace (Z.to_nat (e - ez)) with 0 by lia. reflexivity.
  - replace (Z.to_nat (e - ez)) with 0 by lia. reflexivity.
  - rewrite pos_iter_shl. f_equal. lia.
Qed.

(** A whole number written with [k] more binary places normalises to
    its double. *)
Lemma normalize_whole (c : Z) (k : nat) :
  whole c ->
  binary_normalize F64.prec F64.emax (c * 2 ^ Z.of_nat k) (- Z.of_nat k) false
  = F64.of_Z c.
Proof.
  intros H. destruct (signed_cases c) as [->|(s & p & ->)]; [reflexivity|].
  rewrite of_Z_signed by exact H.
  rewrite <- signed_shl.
  destruct s; simpl; apply normalize_exact; apply (whole_digits _ _ H).
Qed.

Lemma aligned (s : bool) (p : positive) (k : nat) (ez : Z) :
  (Zpos (digits2_pos p) <= 53)%Z ->
  (ez <= Zpos (digits2_pos p) - 53)%Z ->
  Z.of_nat k = (- ez)%Z ->
  cond_Zopp s
    (Zpos (fst (shl_align (shl p (Z.to_nat (53 - Zpos (digits2_pos p))))
                          (Zpos (digits2_pos p) - 53) ez)))
  = (signed s p * 2 ^ Z.of_nat k)%Z.
Proof.
  intros Hd He Hk. rewrite shl_align_fst, shl_shl, <- signed_shl.
  do 3 f_equal. lia.
Qed.

(** Sums and differences of whole numbers are exact. *)
Lemma add_whole (a b : Z) :
  whole a -> whole b -> whole (a + b) ->
  F64.add (F64.of_Z a) (F64.of_Z b) = F64.of_Z (a + b).
Proof.
  intros Ha Hb Hc.
  destruct (signed_cases a) as [->|(sa & pa & ->)];
    destruct (signed_cases b) as [->|(sb & pb & ->)].
  - reflexivity.
  - rewrite Z.add_0_l, of_Z_zero, of_Z_signed by exact Hb. reflexivity.
  - rewrite Z.add_0_r, of_Z_zero, of_Z_signed by exact Ha. reflexivity.
  - rewrite (of_Z_signed _ _ Ha), (of_Z_signed _ _ Hb).
    pose proof (whole_digits _ _ Ha) as Da. pose proof (whole_digits _ _ Hb) as Db.
    unfold F64.add, SFadd, canon. cbv zeta.
    set (da := Zpos (digits2_pos pa)) in *. set (db := Zpos (digits2_pos pb)) in *.
    set (ez := Z.min (da - 53) (db - 53)).
    set (k := Z.to_nat (- ez)).
    assert (Hk : Z.of_nat k = (- ez)%Z) by (unfold k, ez; lia).
    unfold da, db. rewrite (aligned sa pa k), (aligned sb pb k);
      fold da; fold db; try (unfold ez; lia); try exact Hk.
    rewrite <- Z.mul_add_distr_r.
    replace ez with (- Z.of_nat k)%Z by lia.
    apply normalize_whole. exact Hc.
Qed.

Lemma sub_whole (a b : Z) :
  whole a -> whole b -> whole (a - b) ->
  F64.sub (F64.of_Z a) (F64.of_Z b) = F64.of_Z (a - b).
Proof.
  intros Ha Hb Hc.
  destruct (signed_cases a) as [->|(sa & pa & ->)];
    destruct (signed_cases b) as [->|(sb & pb & ->)].
  - reflexivity.
  - rewrite of_Z_zero, (of_Z_signed _ _ Hb).
    replace (0 - signed sb pb)%Z with (signed (negb sb) pb)
      by (destruct sb; reflexivity).
    rewrite of_Z_signed; [reflexivity|].
    unfold whole in *. destruct sb; simpl in *; lia.
  - rewrite Z.sub_0_r, of_Z_zero, of_Z_signed by exact Ha. reflexivity.
  - rewrite (of_Z_signed _ _ Ha), (of_Z_signed _ _ Hb).
    pose proof (whole_digits _ _ Ha) as Da. pose proof (whole_digits _ _ Hb) as Db.
    unfold F64.sub, SFsub, canon. cbv zeta.
    set (da := Zpos (digits2_pos pa)) in *. set (db := Zpos (digits2_pos pb)) in *.
    set (ez := Z.min (da - 53) (db - 53)).
    set (k := Z.to_nat (- ez)).
    assert (Hk : Z.of_nat k = (- ez)%Z) by (unfold k, ez; lia).
    unfold da, db. rewrite (aligned sa pa k), (aligned sb pb k);
      fold da; fold db; try (unfold ez; lia); try exact Hk.
    rewrite <- Z.mul_sub_distr_r.
    replace ez with (- Z.of_nat k)%Z by lia.
    apply normalize_whole. exact Hc.
Qed.

Lemma digits_canon (p : positive) :
  (Zpos (digits2_pos p) <= 53)%Z ->
  Zpos (digits2_pos (shl p (Z.to_nat (53 - Zpos (digits2_pos p))))) = 53%Z.
Proof. intros H. rewrite digits_shl. lia. Qed.

Lemma new_location_zero (m : Z) : new_location m 0 = loc_Exact.
Proof.
  unfold new_location, new_location_even, new_location_odd.
  destruct (Z.even m); reflexivity.
Qed.

(** The digits of a product. *)
Lemma digits_product (v n : positive) :
  (Zpos (digits2_pos n) <= Zpos (digits2_pos (v * n)) /\
   Zpos (digits2_pos (v * n)) - Zpos (digits2_pos n) <= Zpos (digits2_pos v))%Z.
Proof.
  pose proof (digits_lower (v * n)) as L. pose proof (digits_upper (v * n)) as U.
  pose proof (digits_upper v) as Uv. pose proof (digits_upper n) as Un.
  pose proof (digits_lower n) as Ln.
  set (dv := Zpos (digits2_pos v)) in *. set (dn := Zpos (digits2_pos n)) in *.
  set (da := Zpos (digits2_pos (v * n))) in *.
  rewrite Pos2Z.inj_mul in L, U.
  assert (H : (2 ^ (da - 1) < 2 ^ (dv + dn))%Z).
  { rewrite Z.pow_add_r by (unfold dv, dn; lia). nia. }
  assert (H' : (2 ^ (dn - 1) < 2 ^ da)%Z) by nia.
  assert (H1 : (da - 1 < dv + dn)%Z)
    by (apply (Z.pow_lt_mono_r_iff 2); [lia | unfold dv, dn; lia | exact H]).
  assert (H2 : (dn - 1 < da)%Z)
    by (apply (Z.pow_lt_mono_r_iff 2); [lia | unfold da; lia | exact H']).
  lia.
Qed.

(** A quotient of whole numbers that is a whole number is exact. *)
Lemma div_whole (q n : Z) :
  (0 < n)%Z -> whole (q * n) -> whole n ->
  F64.div (F64.of_Z (q * n)) (F64.of_Z n) = F64.of_Z q.
Proof.
  intros Hn Ha Hw.
  destruct n as [|pn|pn]; try lia.
  rewrite (of_Z_pos Hw).
  destruct (signed_cases q) as [->|(s & pv & ->)]; [reflexivity|].
  assert (Hq : whole (signed s pv)).
  { unfold whole in *. destruct s; simpl in *; nia. }
  replace (signed s pv * Zpos pn)%Z with (signed s (pv * pn))
    in * by (destruct s; reflexivity).
  rewrite (of_Z_signed _ _ Ha), (of_Z_signed _ _ Hq).
  pose proof (whole_digits _ _ Ha) as Da. pose proof (whole_digits _ _ Hq) as Dv.
  pose proof (whole_digits false pn Hw) as Dn.
  pose proof (digits_product pv pn) as [Dm Dp].
  set (r := canon s pv).
  unfold F64.div, SFdiv, canon, SFdiv_core_binary. cbv zeta.
  cbn [Zdigits2]. rewrite !digits_canon by assumption.
  set (da := Zpos (digits2_pos (pv * pn))) in *.
  set (dn := Zpos (digits2_pos pn)) in *.
  set (dv := Zpos (digits2_pos pv)) in *.
  replace (53 + (da - 53) - (53 + (dn - 53)))%Z with (da - dn)%Z by lia.
  assert (E : fexp F64.prec F64.emax (da - dn) = (da - dn - 53)%Z)
    by (unfold fexp, emin, F64.prec, F64.emax; unfold da, dn; lia).
  rewrite E.
  replace (Z.min (da - dn - 53) (da - 53 - (dn - 53)))%Z with (da - dn - 53)%Z by lia.
  replace (da - 53 - (dn - 53) - (da - dn - 53))%Z with 53%Z by lia.
  set (k := Z.to_nat (53 - da + dn)).
  assert (Hd : Z.shiftl (Zpos (shl (pv * pn) (Z.to_nat (53 - da)))) 53
               = (Zpos (shl pv k) * Zpos (shl pn (Z.to_nat (53 - dn))))%Z).
  { rewrite Z.shiftl_mul_pow2 by lia. rewrite !shl_value, Pos2Z.inj_mul.
    replace (Z.of_nat k) with (53 - da + dn)%Z by (unfold k; lia).
    rewrite !Z2Nat.id by lia.
    replace (2 ^ 53)%Z with (2 ^ (53 - da + dn) * 2 ^ (da - dn))%Z
      by (rewrite <- Z.pow_add_r by lia; f_equal; lia).
    replace (2 ^ (53 - dn))%Z with (2 ^ (53 - da) * 2 ^ (da - dn))%Z
      by (rewrite <- Z.pow_add_r by lia; f_equal; lia).
    ring. }
  rewrite Hd.
  assert (Hdiv : Z.div_eucl (Zpos (shl pv k) * Zpos (shl pn (Z.to_nat (53 - dn))))
                            (Zpos (shl pn (Z.to_nat (53 - dn))))
                 = (Zpos (shl pv k), 0%Z)).
  { pose proof (Z.div_mul (Zpos (shl pv k)) (Zpos (shl pn (Z.to_nat (53 - dn))))) as H1.
    pose proof (Z.mod_mul (Zpos (shl pv k)) (Zpos (shl pn (Z.to_nat (53 - dn))))) as H2.
    unfold Z.div, Z.modulo in H1, H2.
    destruct (Z.div_eucl _ _) as [q0 r0]. f_equal; [apply H1 | apply H2]; lia. }
  rewrite Hdiv, new_location_zero, xorb_false_r.
  replace (da - dn - 53)%Z with (- Z.of_nat k)%Z by (unfold k; lia).
  subst r. apply round_exact; fold dv; unfold k; lia.
Qed.


Lemma weight_nonneg (zs : list Z) : (0 <= weight zs)%Z.
Proof. induction zs as [|z zs IH]; simpl; lia. Qed.

Lemma total_weight (zs : list Z) : (Z.abs (total zs) <= weight zs)%Z.
Proof. induction zs as [|z zs IH]; simpl; lia. Qed.

Lemma total_app (l1 l2 : list Z) : total (l1 ++ l2) = (total l1 + total l2)%Z.
Proof. induction l1 as [|z l1 IH]; simpl; lia. Qed.

Lemma weight_app (l1 l2 : list Z) : weight (l1 ++ l2) = (weight l1 + weight l2)%Z.
Proof. induction l1 as [|z l1 IH]; simpl; lia. Qed.

Lemma within_abs (a : Z) : within a (Z.abs a).
Proof. unfold within. lia. Qed.

Lemma within_nonneg (a w : Z) : within a w -> (0 <= w)%Z.
Proof. unfold within. lia. Qed.

Lemma within_add (a b w v : Z) :
  within a w -> within b v -> within (a + b) (w + v).
Proof. unfold within. lia. Qed.

Lemma within_total (zs : list Z) : within (total zs) (weight zs).
Proof. apply total_weight. Qed.

Lemma within_whole (a w : Z) : within a w -> (w < 2 ^ 53)%Z -> whole a.
Proof. unfold within, whole. lia. Qed.

Lemma add_within (a b w v : Z) :
  within a w -> within b v -> (w + v < 2 ^ 53)%Z ->
  a_add binary64 (F64.of_Z a) (F64.of_Z b) = F64.of_Z (a + b).
Proof.
  intros Ha Hb H. pose proof (within_nonneg Ha). pose proof (within_nonneg Hb).
  apply add_whole.
  - apply (within_whole Ha). lia.
  - apply (within_whole Hb). lia.
  - apply (within_whole (within_add Ha Hb)). lia.
Qed.

Lemma fold_left_exact (zs : list Z) (a w : Z) :
  within a w -> (w + weight zs < 2 ^ 53)%Z ->
  fold_left (a_add binary64) (map F64.of_Z zs) (F64.of_Z a)
  = F64.of_Z (a + total zs).
Proof.
  revert a w. induction zs as [|z zs IH]; intros a w Ha H.
  - simpl. f_equal. lia.
  - cbn [map fold_left]. cbn [weight fold_right] in H. fold (weight zs) in H.
    pose proof (weight_nonneg zs).
    rewrite (add_within Ha (within_abs z)) by lia.
    rewrite (IH _ (w + Z.abs z)%Z) by (try apply within_add; try apply within_abs; auto; lia).
    f_equal. cbn [total fold_right]. fold (total zs). lia.
Qed.

Lemma sum_few_exact (zs : list Z) :
  (weight zs < 2 ^ 53)%Z ->
  sum_few binary64 (map F64.of_Z zs) = F64.of_Z (total zs).
Proof.
  destruct zs as [|z zs]; intros H; [reflexivity|].
  cbn [weight fold_right] in H. fold (weight zs) in H.
  cbn [sum_few map]. rewrite (fold_left_exact zs (within_abs z)) by lia.
  reflexivity.
Qed.

Lemma sum_lanes_exact (zs : list Z) :
  forall a0 a1 a2 a3 a4 a5 a6 a7 w0 w1 w2 w3 w4 w5 w6 w7 : Z,
  within a0 w0 -> within a1 w1 -> within a2 w2 -> within a3 w3 ->
  within a4 w4 -> within a5 w5 -> within a6 w6 -> within a7 w7 ->
  (w0 + w1 + w2 + w3 + w4 + w5 + w6 + w7 + weight zs < 2 ^ 53)%Z ->
  exists b0 b1 b2 b3 b4 b5 b6 b7 v0 v1 v2 v3 v4 v5 v6 v7 tail,
    sum_lanes binary64 (F64.of_Z a0) (F64.of_Z a1) (F64.of_Z a2) (F64.of_Z a3)
              (F64.of_Z a4) (F64.of_Z a5) (F64.of_Z a6) (F64.of_Z a7)
              (map F64.of_Z zs)
    = (F64.of_Z b0, F64.of_Z b1, F64.of_Z b2, F64.of_Z b3,
       F64.of_Z b4, F64.of_Z b5, F64.of_Z b6, F64.of_Z b7, map F64.of_Z tail) /\
    (within b0 v0 /\ within b1 v1 /\ within b2 v2 /\ within b3 v3 /\
     within b4 v4 /\ within b5 v5 /\ within b6 v6 /\ within b7 v7) /\
    (b0 + b1 + b2 + b3 + b4 + b5 + b6 + b7 + total tail
     = a0 + a1 + a2 + a3 + a4 + a5 + a6 + a7 + total zs)%Z /\
    (v0 + v1 + v2 + v3 + v4 + v5 + v6 + v7 + weight tail
     <= w0 + w1 + w2 + w3 + w4 + w5 + w6 + w7 + weight zs)%Z.
Proof.
  remember (List.length zs) as n eqn:En. revert zs En.
  induction n as [n IH] using lt_wf_ind.
  intros zs En a0 a1 a2 a3 a4 a5 a6 a7 w0 w1 w2 w3 w4 w5 w6 w7
         A0 A1 A2 A3 A4 A5 A6 A7 H.
  destruct zs as [|z0 [|z1 [|z2 [|z3 [|z4 [|z5 [|z6 [|z7 rest]]]]]]]];
    try (exists a0, a1, a2, a3, a4, a5, a6, a7, w0, w1, w2, w3, w4, w5, w6, w7;
         match goal with
         | |- exists tail, sum_lanes _ _ _ _ _ _ _ _ _ (map _ ?l) = _ /\ _ =>
             exists l
         end;
         split; [reflexivity | split; [tauto | split; lia]]).
  cbn [map sum_lanes]. cbn [weight total fold_right] in H. fold (weight rest) in H.
  pose proof (weight_nonneg rest) as Hw.
  pose proof (within_abs z0) as U0. pose proof (within_abs z1) as U1.
  pose proof (within_abs z2) as U2. pose proof (within_abs z3) as U3.
  pose proof (within_abs z4) as U4. pose proof (within_abs z5) as U5.
  pose proof (within_abs z6) as U6. pose proof (within_abs z7) as U7.
  cbn [weight total fold_right]. fold (weight rest) (total rest).
  revert H U0 U1 U2 U3 U4 U5 U6 U7.
  generalize (Z.abs z0) (Z.abs z1) (Z.abs z2) (Z.abs z3)
             (Z.abs z4) (Z.abs z5) (Z.abs z6) (Z.abs z7).
  intros u0 u1 u2 u3 u4 u5 u6 u7 H U0 U1 U2 U3 U4 U5 U6 U7.
  pose proof (within_nonneg A0). pose proof (within_nonneg A1).
  pose proof (within_nonneg A2). pose proof (within_nonneg A3).
  pose proof (within_nonneg A4). pose proof (within_nonneg A5).
  pose proof (within_nonneg A6). pose proof (within_nonneg A7).
  pose proof (within_nonneg U0). pose proof (within_nonneg U1).
  pose proof (within_nonneg U2). pose proof (within_nonneg U3).
  pose proof (within_nonneg U4). pose proof (within_nonneg U5).
  pose proof (within_nonneg U6). pose proof (within_nonneg U7).
  rewrite (add_within A0 U0), (add_within A1 U1), (add_within A2 U2),
          (add_within A3 U3), (add_within A4 U4), (add_within A5 U5),
          (add_within A6 U6), (add_within A7 U7) by lia.
  destruct (IH (List.length rest)) with (zs := rest)
    (a0 := (a0 + z0)%Z) (a1 := (a1 + z1)%Z) (a2 := (a2 + z2)%Z)
    (a3 := (a3 + z3)%Z) (a4 := (a4 + z4)%Z) (a5 := (a5 + z5)%Z)
    (a6 := (a6 + z6)%Z) (a7 := (a7 + z7)%Z)
    (w0 := (w0 + u0)%Z) (w1 := (w1 + u1)%Z) (w2 := (w2 + u2)%Z)
    (w3 := (w3 + u3)%Z) (w4 := (w4 + u4)%Z) (w5 := (w5 + u5)%Z)
    (w6 := (w6 + u6)%Z) (w7 := (w7 + u7)%Z)
    as (b0 & b1 & b2 & b3 & b4 & b5 & b6 & b7 &
        v0 & v1 & v2 & v3 & v4 & v5 & v6 & v7 & tail & E & B & Ht & Hb);
    try (apply within_add; assumption);
    [subst n; simpl; lia | reflexivity | lia |].
  exists b0, b1, b2, b3, b4, b5, b6, b7, v0, v1, v2, v3, v4, v5, v6, v7, tail.
  split; [exact E|]. split; [exact B|]. split; lia.
Qed.

Lemma sum_block_exact (zs : list Z) :
  (weight zs < 2 ^ 53)%Z ->
  sum_block binary64 (map F64.of_Z zs) = F64.of_Z (total zs).
Proof.
  intros H.
  destruct zs as [|z0 [|z1 [|z2 [|z3 [|z4 [|z5 [|z6 [|z7 rest]]]]]]]];
    try (apply sum_few_exact; exact H).
  cbn [map sum_block]. cbn [weight total fold_right] in *.
  fold (weight rest) in H. fold (total rest).
  pose proof (weight_nonneg rest) as Hw.
  pose proof (within_abs z0) as U0. pose proof (within_abs z1) as U1.
  pose proof (within_abs z2) as U2. pose proof (within_abs z3) as U3.
  pose proof (within_abs z4) as U4. pose proof (within_abs z5) as U5.
  pose proof (within_abs z6) as U6. pose proof (within_abs z7) as U7.
  revert H U0 U1 U2 U3 U4 U5 U6 U7.
  generalize (Z.abs z0) (Z.abs z1) (Z.abs z2) (Z.abs z3)
             (Z.abs z4) (Z.abs z5) (Z.abs z6) (Z.abs z7).
  intros u0 u1 u2 u3 u4 u5 u6 u7 H U0 U1 U2 U3 U4 U5 U6 U7.
  destruct (@sum_lanes_exact rest z0 z1 z2 z3 z4 z5 z6 z7 u0 u1 u2 u3 u4 u5 u6 u7)
    as (b0 & b1 & b2 & b3 & b4 & b5 & b6 & b7 &
        v0 & v1 & v2 & v3 & v4 & v5 & v6 & v7 & tail & E & B & Ht & Hb);
    try assumption; [lia|].
  destruct B as (B0 & B1 & B2 & B3 & B4 & B5 & B6 & B7).
  rewrite E.
  pose proof (weight_nonneg tail).
  pose proof (within_nonneg B0). pose proof (within_nonneg B1).
  pose proof (within_nonneg B2). pose proof (within_nonneg B3).
  pose proof (within_nonneg B4). pose proof (within_nonneg B5).
  pose proof (within_nonneg B6). pose proof (within_nonneg B7).
  rewrite (add_within B0 B1), (add_within B2 B3), (add_within B4 B5),
          (add_within B6 B7) by lia.
  rewrite (add_within (within_add B0 B1) (within_add B2 B3)),
          (add_within (within_add B4 B5) (within_add B6 B7)) by lia.
  rewrite (add_within (within_add (within_add B0 B1) (within_add B2 B3))
                      (within_add (within_add B4 B5) (within_add B6 B7))) by lia.
  rewrite (@fold_left_exact tail _ (v0 + v1 + (v2 + v3) + (v4 + v5 + (v6 + v7)))%Z)
    by (repeat apply within_add; assumption || lia).
  f_equal. lia.
Qed.

Lemma weight_firstn_skipn (k : nat) (zs : list Z) :
  weight zs = (weight (firstn k zs) + weight (skipn k zs))%Z.
Proof. rewrite <- weight_app, firstn_skipn. reflexivity. Qed.

Lemma total_firstn_skipn (k : nat) (zs : list Z) :
  total zs = (total (firstn k zs) + total (skipn k zs))%Z.
Proof. rewrite <- total_app, firstn_skipn. reflexivity. Qed.

Lemma pairwise_sum_exact (fuel : nat) (zs : list Z) :
  (weight zs < 2 ^ 53)%Z ->
  pairwise_sum binary64 fuel (map F64.of_Z zs) = F64.of_Z (total zs).
Proof.
  revert zs. induction fuel as [|fuel IH]; intros zs H.
  - apply sum_block_exact. exact H.
  - cbn [pairwise_sum]. cbv zeta.
    match goal with |- context [if ?b then _ else _] => destruct b end;
      [apply sum_block_exact; exact H|].
    match goal with |- context [firstn ?n _] => set (k := n) end.
    change (firstn k (map F64.of_Z zs)) with (firstn k (map F64.of_Z zs)).
    rewrite firstn_map, skipn_map.
    pose proof (weight_firstn_skipn k zs) as Hw.
    pose proof (weight_nonneg (firstn k zs)). pose proof (weight_nonneg (skipn k zs)).
    rewrite !IH by lia.
    rewrite (add_within (within_total _) (within_total _)) by lia.
    f_equal. symmetry. apply total_firstn_skipn.
Qed.

(** The sum of a column of whole numbers is their sum, without any
    rounding, when the sum of their magnitudes is below [2^53]. *)
Lemma series_sum_whole (zs : list Z) :
  (weight zs < 2 ^ 53)%Z ->
  series_sum binary64 (map F64.of_Z zs) = F64.of_Z (total zs).
Proof. intros H. apply pairwise_sum_exact. exact H. Qed.

(** [fuel] plays no part once it is the number of values. *)
Lemma pairwise_sum_fuel (A : Arith) (fuel fuel' : nat) (xs : list A) :
  List.length xs <= fuel + 128 -> List.length xs <= fuel' + 128 ->
  pairwise_sum A fuel xs = pairwise_sum A fuel' xs.
Proof.
  revert fuel' xs. induction fuel as [|fuel IH]; intros fuel' xs H H'.
  - destruct fuel' as [|fuel']; [reflexivity|]. cbn [pairwise_sum]. cbv zeta.
    replace (List.length xs <=? 128)%nat with true
      by (symmetry; apply Nat.leb_le; lia).
    reflexivity.
  - cbn [pairwise_sum]. cbv zeta.
    destruct (List.length xs <=? 128)%nat eqn:E.
    + destruct fuel' as [|fuel']; [reflexivity|].
      cbn [pairwise_sum]. cbv zeta. rewrite E. reflexivity.
    + apply Nat.leb_gt in E.
      destruct fuel' as [|fuel']; [lia|].
      cbn [pairwise_sum]. cbv zeta.
      replace (List.length xs <=? 128)%nat with false
        by (symmetry; apply Nat.leb_gt; lia).
      set (n := List.length xs) in *. set (k := (n / 2 - (n / 2) mod 8)%nat).
      assert (Hk : 57 <= k <= n / 2).
      { pose proof (Nat.mod_upper_bound (n / 2) 8).
        assert (64 <= n / 2) by (apply Nat.div_le_lower_bound; lia).
        unfold k. lia. }
      pose proof (Nat.Div0.mul_div_le n 2) as Hn.
      assert (L1 : List.length (firstn k xs) = k)
        by (apply firstn_length_le; fold n; lia).
      assert (L2 : List.length (skipn k xs) = n - k) by apply length_skipn.
      f_equal; apply IH; rewrite ?L1, ?L2; lia.
Qed.


Lemma weight_bound (zs : list Z) (B : Z) :
  Forall (fun z => Z.abs z <= B)%Z zs ->
  (weight zs <= Z.of_nat (List.length zs) * B)%Z.
Proof.
  induction 1 as [|z zs Hz _ IH]; [simpl; lia|].
  cbn [weight fold_right List.length]. fold (weight zs).
  rewrite Nat2Z.inj_succ. lia.
Qed.

Lemma total_shifted (zs : list Z) (m : Z) :
  total (map (fun z => z - m)%Z zs) = (total zs - m * Z.of_nat (List.length zs))%Z.
Proof.
  induction zs as [|z zs IH]; [simpl; lia|].
  cbn [map total fold_right List.length]. fold (total zs).
  fold (total (map (fun z => (z - m)%Z) zs)). rewrite IH, Nat2Z.inj_succ. lia.
Qed.

Section WholeAges.
Variables (zs : list Z) (m B : Z).
Hypothesis some : zs <> [].
Hypothesis above : (0 < B)%Z.
Hypothesis bound : Forall (fun z => Z.abs z <= B)%Z zs.
Hypothesis room : (2 * Z.of_nat (List.length zs) * B < 2 ^ 53)%Z.
Hypothesis mean : total zs = (m * Z.of_nat (List.length zs))%Z.

Local Abbreviation n := (Z.of_nat (List.length zs)).

Lemma whole_count : (0 < n)%Z.
Proof. destruct zs; [contradiction | simpl; lia]. Qed.

Lemma whole_weight : (2 * weight zs < 2 ^ 53)%Z.
Proof. pose proof (weight_bound bound). lia. Qed.

Lemma whole_mean : (Z.abs m <= B)%Z.
Proof.
  pose proof (total_weight zs) as T. pose proof (weight_bound bound) as W.
  pose proof whole_count. rewrite mean in T. nia.
Qed.

Lemma series_mean_whole :
  series_mean binary64 (map F64.of_Z zs) = F64.of_Z m.
Proof.
  pose proof whole_weight. pose proof whole_count.
  pose proof (total_weight zs) as T.
  unfold series_mean. rewrite series_sum_whole by lia.
  rewrite length_map. cbn [a_div a_of_nat binary64]. unfold F64.of_nat.
  rewrite mean. apply div_whole; [assumption | |].
  - rewrite <- mean. unfold whole. clear - H T. lia.
  - unfold whole. clear - room above H0. nia.
Qed.

Lemma centered_whole :
  centered binary64 (map F64.of_Z zs)
  = map F64.of_Z (map (fun z => z - m)%Z zs).
Proof.
  pose proof whole_count. pose proof whole_mean as Hm.
  unfold centered. rewrite series_mean_whole, !map_map.
  apply map_ext_in. intros z Hz. cbn [a_sub binary64].
  rewrite Forall_forall in bound. specialize (bound z Hz).
  assert (HB : (2 * B < 2 ^ 53)%Z) by (clear - room above H; nia).
  apply sub_whole; unfold whole; clear - HB Hm bound above; lia.
Qed.

Lemma centered_mean_whole :
  series_mean binary64 (centered binary64 (map F64.of_Z zs)) = F64.zero.
Proof.
  pose proof whole_count. pose proof whole_mean as Hm.
  rewrite centered_whole. unfold series_mean.
  assert (W : (weight (map (fun z => z - m)%Z zs) < 2 ^ 53)%Z).
  { assert (F : Forall (fun z => Z.abs z <= 2 * B)%Z (map (fun z => z - m)%Z zs)).
    { apply Forall_map. eapply Forall_impl; [|exact bound].
      intros z Hz. cbv beta in Hz |- *. clear - Hz Hm. lia. }
    pose proof (weight_bound F) as Hw. rewrite length_map in Hw.
    replace (n * (2 * B))%Z with (2 * n * B)%Z in Hw by ring.
    clear - Hw room. lia. }
  rewrite series_sum_whole by exact W.
  rewrite total_shifted, mean, Z.sub_diag, !length_map.
  cbn [a_div a_of_nat binary64]. unfold F64.of_nat.
  change 0%Z with (0 * n)%Z at 1.
  rewrite div_whole; [reflexivity | assumption | |]; unfold whole;
    [simpl; lia | clear - room above H; nia].
Qed.

End WholeAges.

(* ================================================================== *)
(** * Assignment of a column *)
(* ================================================================== *)

Lemma setitem_inr (f g : Frame) (n : string) (c : Column) :
  setitem f n c = inr g -> g = set_column f n c.
Proof.
  unfold setitem. destruct f as [|nc f]; [congruence|].
  destruct (Nat.eqb (List.length c) (nrows (nc :: f))); congruence.
Qed.

Lemma setitem_rows (f : Frame) (n : string) (c : Column) :
  List.length c = nrows f -> setitem f n c = inr (set_column f n c).
Proof.
  unfold setitem. intros H. destruct f as [|nc f]; [reflexivity|].
  rewrite H, Nat.eqb_refl. reflexivity.
Qed.

Lemma setitem_inl (f : Frame) (n : string) (c : Column) (e : exn) :
  setitem f n c = inl e -> List.length c <> nrows f.
Proof.
  unfold setitem. destruct f as [|nc f]; [discriminate|].
  destruct (Nat.eqb (List.length c) (nrows (nc :: f))) eqn:E; [discriminate|].
  intros _. apply Nat.eqb_neq. exact E.
Qed.

Lemma to_numeric_length (col : Column) (xs : list F64.float) :
  to_numeric col = inr xs -> List.length xs = List.length col.
Proof.
  revert xs. induction col as [|[x|s] col IH]; intros xs H; simpl in H.
  - injection H as <-. reflexivity.
  - destruct (to_numeric col) as [e|ys]; [discriminate|].
    injection H as <-. simpl. rewrite (IH ys eq_refl). reflexivity.
  - discriminate.
Qed.

(* ================================================================== *)
(** * Rules of the judgment [sound] *)
(* ================================================================== *)

Lemma raises_app (V : Type) (l1 l2 : list (event V)) :
  raises (l1 ++ l2) = raises l1 ++ raises l2.
Proof. unfold raises. apply flat_map_app. Qed.

Section SoundRules.
Variable V : Type.
Variable lib : Library V.
Variable w : World.
Variable P : event V -> Prop.
Hypothesis P_return : forall v, P (EvReturn v).
Hypothesis P_print : forall v, P (EvPrint v).
Hypothesis P_raise : forall e, P (EvRaise e).

Lemma sound_ret (A : Type) (a : A) (Q : A -> Prop) :
  Q a -> sound w P (ret a) Q.
Proof.
  intros HQ s Hs. exists []. simpl. rewrite <- Hs.
  destruct s; simpl; auto.
Qed.

Lemma sound_raise (A : Type) (e : exn) (Q : A -> Prop) :
  sound w P (raise (A := A) e) Q.
Proof.
  intros s Hs. exists [EvRaise e]. simpl. rewrite Hs. auto.
Qed.

Lemma sound_lift (A : Type) (r : result A) (Q : A -> Prop) :
  (forall a, r = inr a -> Q a) -> sound w P (lift r) Q.
Proof.
  intros HQ. destruct r as [e|a]; simpl.
  - apply sound_raise.
  - apply sound_ret. auto.
Qed.

Lemma sound_emit (ev : event V) (Q : unit -> Prop) :
  P ev -> raises [ev] = [] -> Q tt -> sound w P (emit ev) Q.
Proof.
  intros HP Hr HQ s Hs. exists [ev]. simpl. rewrite Hs. auto.
Qed.

Lemma sound_bind (A B : Type) (m : M V A) (k : A -> M V B)
  (Q1 : A -> Prop) (Q : B -> Prop) :
  sound w P m Q1 ->
  (forall a, Q1 a -> sound w P (k a) Q) ->
  sound w P (bind m k) Q.
Proof.
  intros Hm Hk s Hs. unfold bind.
  destruct (Hm s Hs) as (evs1 & E1 & F1 & O1).
  destruct (m s) as [[a|e] s1]; simpl in *.
  - destruct O1 as [Ha R1]. subst s1.
    destruct (Hk a Ha {| world := w; log := evs1 ++ log s |} eq_refl)
      as (evs2 & E2 & F2 & O2).
    exists (evs2 ++ evs1). rewrite E2. simpl. rewrite <- app_assoc.
    split; [reflexivity|]. split; [apply Forall_app; auto|].
    rewrite raises_app, R1, app_nil_r. exact O2.
  - exists evs1. auto.
Qed.

Lemma sound_post (A : Type) (m : M V A) (Q Q' : A -> Prop) :
  sound w P m Q -> (forall a, Q a -> Q' a) -> sound w P m Q'.
Proof.
  intros Hm HQ s Hs. destruct (Hm s Hs) as (evs & E & F & O).
  exists evs. split; [exact E|]. split; [exact F|].
  destruct (fst (m s)); [destruct O; auto | exact O].
Qed.

Lemma sound_print (v : value V) (Q : unit -> Prop) :
  Q tt -> sound w P (print v) Q.
Proof. intros HQ. apply sound_emit; auto. Qed.

Lemma sound_call (fn : string) (args : list (value V)) (kwargs : dict V)
  (Q : value V -> Prop) :
  P (EvCall fn args kwargs) -> (forall v, Q v) ->
  sound w P (call lib fn args kwargs) Q.
Proof.
  intros HP HQ. unfold call.
  apply sound_bind with (Q1 := fun _ => True).
  - apply sound_emit; auto.
  - intros _ _. destruct (lib fn args kwargs) as [e|v].
    + apply sound_raise.
    + apply sound_bind with (Q1 := fun _ => True).
      * apply sound_emit; auto.
      * intros _ _. apply sound_ret. apply HQ.
Qed.

Lemma sound_bind_ret (A B : Type) (a : A) (k : A -> M V B) (Q : B -> Prop) :
  sound w P (k a) Q -> sound w P (bind (ret a) k) Q.
Proof.
  intros H. apply sound_bind with (Q1 := fun x => x = a).
  - apply sound_ret. reflexivity.
  - intros x ->. exact H.
Qed.

Lemma sound_bind_lift (A B : Type) (r : result A) (k : A -> M V B)
  (Q : B -> Prop) :
  (forall a, r = inr a -> sound w P (k a) Q) ->
  sound w P (bind (lift r) k) Q.
Proof.
  intros H. apply sound_bind with (Q1 := fun a => r = inr a).
  - apply sound_lift. auto.
  - exact H.
Qed.

Lemma sound_bind_call (B : Type) (fn : string) (args : list (value V))
  (kwargs : dict V) (k : value V -> M V B) (Q : B -> Prop) :
  P (EvCall fn args kwargs) ->
  (forall v, sound w P (k v) Q) ->
  sound w P (bind (call lib fn args kwargs) k) Q.
Proof.
  intros HP H. apply sound_bind with (Q1 := fun _ => True).
  - apply sound_call; auto.
  - intros v _. apply H.
Qed.

Lemma sound_bind_print (B : Type) (v : value V) (k : unit -> M V B)
  (Q : B -> Prop) :
  sound w P (k tt) Q -> sound w P (bind (print v) k) Q.
Proof.
  intros H. apply sound_bind with (Q1 := fun _ => True).
  - apply sound_print. exact I.
  - intros [] _. exact H.
Qed.

Lemma sound_bind_unit (A B : Type) (m : M V A) (k : A -> M V B)
  (Q : B -> Prop) :
  sound w P m (fun _ => True) ->
  (forall a, sound w P (k a) Q) ->
  sound w P (bind m k) Q.
Proof.
  intros Hm H. apply sound_bind with (Q1 := fun _ => True); auto.
Qed.

End SoundRules.

(** One statement of a [sound] goal.  [side] proves that a library call
    may be logged. *)
Ltac passive := solve [intros; repeat (hnf; try split); auto].

Ltac sound_step side :=
  lazymatch goal with
  | |- sound _ _ (bind (ret _) _) _ => apply sound_bind_ret
  | |- sound _ _ (bind (lift _) _) _ =>
      apply sound_bind_lift;
      [ passive
      | let a := fresh "a" in
        let H := fresh "H" in
        intros a H;
        try (progress cbn in H;
             first [discriminate H | injection H as H; subst a]);
        try (apply setitem_inr in H; subst a) ]
  | |- sound _ _ (bind (call _ _ _ _) _) _ =>
      apply sound_bind_call; [passive | passive | side | intros ?]
  | |- sound _ _ (bind (print _) _) _ =>
      apply sound_bind_print; [passive | ]
  | |- sound _ _ (bind _ _) _ =>
      apply sound_bind_unit; [solve [auto with sound] | intros ?]
  | |- sound _ _ (ret _) _ => apply sound_ret
  | |- sound _ _ (print _) _ => apply sound_print; [passive | ]
  | |- sound _ _ (call _ _ _ _) _ =>
      apply sound_call; [passive | passive | side | intros ?]
  | |- sound _ _ (match ?x with _ => _ end) _ => destruct x
  | |- sound _ _ _ _ => solve [auto with sound]
  end.

Ltac sound_run side :=
  unfold getattr, getitem, pow, method; repeat sound_step side;
  try exact I; try reflexivity.

Create HintDb sound.

(* ================================================================== *)
(** * The statements after the download: no I/O, one outcome variable *)
(* ================================================================== *)

Section AnalysisSound.
Variable V : Type.
Variable lib : Library V.
Variable w : World.

Ltac event_ok := solve [split; [exact I | vm_compute; auto]].

Lemma basic_model_sound (da : Frame) :
  sound w (@analysis_event V) (basic_model lib da) (fun _ => True).
Proof. unfold basic_model. sound_run event_ok. Qed.

Lemma second_variable_sound (da : Frame) :
  sound w (@analysis_event V) (second_variable lib da) (fun _ => True).
Proof. unfold second_variable. sound_run event_ok. Qed.

Lemma three_variables_sound (da : Frame) :
  sound w (@analysis_event V) (three_variables lib da) (fun _ => True).
Proof. unfold three_variables. sound_run event_ok. Qed.

Lemma plot_fitted_sound (r : value V) (focus : string) (values : dict V)
  (xlabel : string) :
  sound w (@analysis_event V) (plot_fitted lib r focus values xlabel)
        (fun _ => True).
Proof. unfold plot_fitted. sound_run event_ok. Qed.

Hint Resolve plot_fitted_sound : sound.

Lemma visualization_sound (r : value V) :
  sound w (@analysis_event V) (visualization lib r) (fun _ => True).
Proof. unfold visualization. sound_run event_ok. Qed.

Lemma ccpr_plot_sound (r : value V) (focus : string) :
  sound w (@analysis_event V) (ccpr_plot lib r focus) (fun _ => True).
Proof. unfold ccpr_plot. sound_run event_ok. Qed.

Hint Resolve ccpr_plot_sound : sound.

Lemma variance_structure_sound (r : value V) :
  sound w (@analysis_event V) (variance_structure lib r) (fun _ => True).
Proof. unfold variance_structure. sound_run event_ok. Qed.

Lemma added_variable_plot_sound (da : Frame) (focus : string) :
  sound w (@analysis_event V) (added_variable_plot lib da focus)
        (fun _ => True).
Proof. unfold added_variable_plot. sound_run event_ok. Qed.

Hint Resolve added_variable_plot_sound : sound.

Lemma assessing_curvature_sound (da : Frame) :
  sound w (@analysis_event V) (assessing_curvature lib da) (fun _ => True).
Proof. unfold assessing_curvature. sound_run event_ok. Qed.

Lemma splines_sound (da : Frame) :
  sound w (@analysis_event V) (splines lib da) (fun _ => True).
Proof. unfold splines. sound_run event_ok. Qed.

Lemma interactions_sound (da : Frame) (values : dict V) :
  sound w (@analysis_event V) (interactions lib da values) (fun _ => True).
Proof. unfold interactions. sound_run event_ok. Qed.

Hint Resolve basic_model_sound second_variable_sound three_variables_sound
  visualization_sound variance_structure_sound assessing_curvature_sound
  splines_sound interactions_sound : sound.

Lemma analysis_sound (da : Frame) :
  sound w (@analysis_event V) (analysis lib da) (fun _ => True).
Proof. unfold analysis. sound_run event_ok. Qed.

End AnalysisSound.

(* ================================================================== *)
(** * The whole run *)
(* ================================================================== *)

Lemma nhanes_run (V : Type) (s : State V) :
  nhanes s =
  match network (world s) url with
  | None =>
      (Raised (URLError url),
       {| world := world s; log := EvRaise (URLError url) :: EvRead url :: log s |})
  | Some f =>
      match getitem_list f vars with
      | inl e =>
          (Raised e, {| world := world s; log := EvRaise e :: EvRead url :: log s |})
      | inr sel =>
          (Ok (dropna sel), {| world := world s; log := EvRead url :: log s |})
      end
  end.
Proof.
  unfold nhanes. generalize vars. intros vs.
  unfold read_csv, bind, emit. simpl.
  destruct (network (world s) url) as [f|]; simpl; [|reflexivity].
  destruct (getitem_list f vs) as [e|sel]; reflexivity.
Qed.

(** The log of a run is the download followed by what [analysis]
    logs. *)
Lemma run_sound (V : Type) (lib : Library V) (w : World) :
  exists evs,
    snd (run lib w) = {| world := w; log := evs ++ [EvRead url] |} /\
    Forall (@analysis_event V) evs /\
    match outcome lib w with
    | Ok _ => raises evs = []
    | Raised e => raises evs = [e]
    end.
Proof.
  unfold outcome, run, main, bind. rewrite nhanes_run. cbn [world log].
  destruct (network w url) as [f|].
  - destruct (getitem_list f vars) as [e|sel]; cbn [fst snd].
    + exists [EvRaise e]. repeat split; auto. constructor; [passive | constructor].
    + destruct (analysis_sound lib (w := w) (dropna sel)
                  {| world := w; log := [EvRead url] |} eq_refl)
        as (evs & E & F & O).
      exists evs. rewrite E. repeat split; auto.
      destruct (fst (analysis lib (dropna sel) _)); [tauto | exact O].
  - exists [EvRaise (URLError url)]. repeat split; auto.
    constructor; [passive | constructor].
Qed.

Lemma trace_run (V : Type) (lib : Library V) (w : World) (evs : list (event V)) :
  snd (run lib w) = {| world := w; log := evs ++ [EvRead url] |} ->
  trace lib w = EvRead url :: rev evs.
Proof.
  intros E. unfold trace. rewrite E. simpl. rewrite rev_app_distr. reflexivity.
Qed.

Lemma in_raises (V : Type) (e : exn) (evs : list (event V)) :
  In (EvRaise e) evs -> In e (raises evs).
Proof.
  intros H. unfold raises. apply in_flat_map. exists (EvRaise e). simpl; auto.
Qed.

Lemma reads_no_io (V : Type) (evs : list (event V)) :
  Forall (@no_io V) evs -> reads evs = [] /\ writes evs = [].
Proof.
  induction 1 as [|ev evs H _ [IH1 IH2]]; [split; reflexivity|].
  unfold reads, writes in *. simpl. rewrite IH1, IH2.
  destruct ev; simpl in *; try tauto.
Qed.

Lemma fits_models_sbp (V : Type) (evs : list (event V)) :
  Forall (@models_sbp V) evs ->
  Forall (fun x => formula_lhs (fit_formula x) = Some "BPXSY1"%string) (fits evs).
Proof.
  induction 1 as [|ev evs H _ IH]; [constructor|].
  unfold fits in *. simpl. apply Forall_app. split; [|exact IH].
  unfold models_sbp in H. destruct (fit_of_event ev); auto.
Qed.

Lemma Forall_analysis_event (V : Type) (evs : list (event V)) :
  Forall (@analysis_event V) evs ->
  Forall (@no_io V) evs /\ Forall (@models_sbp V) evs.
Proof.
  intros H. split; eapply Forall_impl; try exact H; intros ev [H1 H2]; auto.
Qed.

(** C2.  In every run, whatever the libraries do and whatever the file
    holds, each model that is fitted has [BPXSY1], systolic blood
    pressure, on the left of its formula. *)
Theorem outcome_variable_is_sbp (V : Type) (lib : Library V) (w : World) :
  Forall (fun x => formula_lhs (fit_formula x) = Some "BPXSY1"%string)
         (fits (trace lib w)).
Proof.
  destruct (run_sound lib w) as (evs & E & F & _).
  rewrite (@trace_run _ lib w evs E).
  apply Forall_analysis_event in F. destruct F as [_ F].
  apply fits_models_sbp. constructor; [exact I|].
  apply Forall_rev. exact F.
Qed.

(** C4.  An exception raised anywhere in a run, by pandas or by another
    library, is the outcome of the run: the same exception, not caught
    and not replaced. *)
Theorem exceptions_propagate (V : Type) (lib : Library V) (w : World) (e : exn) :
  In (EvRaise e) (trace lib w) -> outcome lib w = Raised e.
Proof.
  destruct (run_sound lib w) as (evs & E & _ & O).
  rewrite (@trace_run _ lib w evs E). intros [H|H]; [discriminate|].
  apply in_rev in H. apply in_raises in H.
  destruct (outcome lib w) as [da|e']; rewrite O in H; simpl in H.
  - contradiction.
  - destruct H as [<-|[]]. reflexivity.
Qed.

Lemma exceptions_propagate_witness :
  In (EvRaise (KeyError "BMXBMI")) (trace quiet_library no_bmi) /\
  outcome quiet_library no_bmi = Raised (KeyError "BMXBMI").
Proof.
  assert (H : In (EvRaise (KeyError "BMXBMI")) (trace quiet_library no_bmi))
    by (vm_compute; auto).
  split; [exact H | exact (exceptions_propagate quiet_library no_bmi _ H)].
Defined.

(** C8.  In every run exactly one thing is read from outside: the CSV at
    the address written in the script. *)
Theorem single_data_source (V : Type) (lib : Library V) (w : World) :
  reads (trace lib w) = [url].
Proof.
  destruct (run_sound lib w) as (evs & E & F & _).
  rewrite (@trace_run _ lib w evs E).
  apply Forall_analysis_event in F. destruct F as [F _].
  apply Forall_rev in F. apply reads_no_io in F. destruct F as [F _].
  unfold reads in *. simpl. rewrite F. reflexivity.
Qed.

(** C9.  A run leaves the outside world as it found it, the disk
    included: it writes no file, and its only access to the outside is
    the one download. *)
Theorem nothing_is_written (V : Type) (lib : Library V) (w : World) :
  world (snd (run lib w)) = w /\
  writes (trace lib w) = [] /\
  List.length (reads (trace lib w)) = 1.
Proof.
  destruct (run_sound lib w) as (evs & E & F & _).
  rewrite (@trace_run _ lib w evs E). rewrite E. simpl.
  apply Forall_analysis_event in F. destruct F as [F _].
  apply Forall_rev in F. apply reads_no_io in F. destruct F as [F1 F2].
  unfold reads, writes in *. simpl. rewrite F1, F2. auto.
Qed.

(* ================================================================== *)
(** * The script is a straight line *)
(* ================================================================== *)

Lemma call_names_app (V : Type) (l1 l2 : list (event V)) :
  call_names (l1 ++ l2) = call_names l1 ++ call_names l2.
Proof. unfold call_names. apply flat_map_app. Qed.

Lemma in_call_names (V : Type) (fn : string) (args : list (value V))
  (kwargs : dict V) (evs : list (event V)) :
  In (EvCall fn args kwargs) evs -> In fn (call_names evs).
Proof.
  intros H. unfold call_names. apply in_flat_map.
  exists (EvCall fn args kwargs). simpl. auto.
Qed.

Lemma firstn_prefix (A : Type) (k : nat) (l1 l2 : list A) :
  exists k', firstn k l1 = firstn k' (l1 ++ l2).
Proof.
  exists (Nat.min k (List.length l1)).
  rewrite firstn_app.
  replace (Nat.min k (List.length l1) - List.length l1) with 0 by lia.
  simpl. rewrite app_nil_r.
  destruct (Nat.le_ge_cases k (List.length l1)) as [H|H].
  - rewrite Nat.min_l by exact H. reflexivity.
  - rewrite Nat.min_r by exact H. rewrite !firstn_all2; auto.
Qed.

Section StraightRules.
Variable V : Type.
Variable lib : Library V.

Lemma str_ret (A : Type) (a : A) : straight (ret (V := V) a) [].
Proof. intros s. exists []. simpl. auto. Qed.

Lemma str_raise (A : Type) (e : exn) (l : list string) :
  straight (raise (V := V) (A := A) e) l.
Proof.
  intros s. exists [EvRaise e]. simpl. split; [reflexivity|].
  exists 0. reflexivity.
Qed.

Lemma str_emit (ev : event V) (l : list string) :
  call_names [ev] = l -> straight (emit ev) l.
Proof. intros H s. exists [ev]. simpl. auto. Qed.

Lemma str_bind (A B : Type) (m : M V A) (k : A -> M V B) (l1 l2 : list string) :
  straight m l1 -> (forall a, straight (k a) l2) ->
  straight (bind m k) (l1 ++ l2).
Proof.
  intros Hm Hk s. unfold bind.
  destruct (Hm s) as (evs1 & E1 & C1).
  destruct (m s) as [[a|e] s1]; simpl in *.
  - destruct (Hk a s1) as (evs2 & E2 & C2).
    exists (evs2 ++ evs1). rewrite E2, E1, app_assoc. split; [reflexivity|].
    rewrite rev_app_distr, call_names_app, C1.
    destruct (fst (k a s1)).
    + rewrite C2. reflexivity.
    + destruct C2 as [n C2]. exists (List.length l1 + n).
      rewrite C2, firstn_app_2. reflexivity.
  - exists evs1. split; [exact E1|].
    destruct C1 as [n C1]. rewrite C1. apply firstn_prefix.
Qed.

Lemma str_lift (A : Type) (r : result A) : straight (lift (V := V) r) [].
Proof. destruct r; simpl; [apply str_raise | apply str_ret]. Qed.

Lemma str_print (v : value V) : straight (print v) [].
Proof. apply str_emit. reflexivity. Qed.

Lemma str_read_csv (u : string) : straight (read_csv (V := V) u) [].
Proof.
  unfold read_csv.
  apply (@str_bind _ _ _ _ [] []); [apply str_emit; reflexivity|].
  intros _ s. destruct (network (world s) u).
  - apply str_ret.
  - apply str_raise.
Qed.

Lemma str_call (fn : string) (args : list (value V)) (kwargs : dict V) :
  straight (call lib fn args kwargs) [fn].
Proof.
  unfold call. change [fn] with ([fn] ++ @nil string).
  apply str_bind; [apply str_emit; reflexivity|]. intros _.
  destruct (lib fn args kwargs).
  - apply str_raise.
  - apply (@str_bind _ _ _ _ [] []); [apply str_emit; reflexivity|].
    intros _. apply str_ret.
Qed.

Lemma str_eq (A : Type) (m : M V A) (l l' : list string) :
  straight m l -> l = l' -> straight m l'.
Proof. intros H <-. exact H. Qed.

End StraightRules.

Ltac str_step :=
  lazymatch goal with
  | |- straight (bind _ _) _ => eapply str_bind; [ | intros ? ]
  | |- straight (ret _) _ => apply str_ret
  | |- straight (lift _) _ => apply str_lift
  | |- straight (print _) _ => apply str_print
  | |- straight (read_csv _) _ => apply str_read_csv
  | |- straight (call _ _ _ _) _ => apply str_call
  | |- straight (match ?x with _ => _ end) _ => destruct x
  end.

Lemma main_straight (V : Type) (lib : Library V) :
  straight (main lib) calls_of_the_script.
Proof.
  eapply str_eq.
  - unfold main, nhanes, analysis, basic_model, second_variable,
      three_variables, visualization, variance_structure, assessing_curvature,
      splines, interactions, plot_fitted, ccpr_plot, added_variable_plot,
      getattr, getitem, pow, method.
    repeat str_step.
  - reflexivity.
Qed.

(** The calls of a run are the calls of the script's text, read from
    its beginning; all of them when the run completes. *)
Lemma run_straight (V : Type) (lib : Library V) (w : World) :
  (exists k, call_names (trace lib w) = firstn k calls_of_the_script) /\
  (completes (outcome lib w) = true ->
   call_names (trace lib w) = calls_of_the_script).
Proof.
  destruct (main_straight lib {| world := w; log := [] |}) as (evs & E & C).
  unfold trace, outcome, run. rewrite E, app_nil_r.
  destruct (fst (main lib {| world := w; log := [] |})); simpl.
  - split; [|intros _; exact C].
    exists (List.length calls_of_the_script). rewrite firstn_all. exact C.
  - split; [exact C | discriminate].
Qed.

(* ================================================================== *)
(** * Determinism *)
(* ================================================================== *)

Section ReplayRules.
Variable V : Type.
Variables lib1 lib2 : Library V.

Lemma same_inputs_refl (s : State V) : same_inputs s s.
Proof. split; reflexivity. Qed.

Lemma rep_ret (A : Type) (a : A) : replays lib1 lib2 (ret a) (ret a).
Proof.
  intros s1 s2 H. split; [exists []; reflexivity|]. intros _. simpl. auto.
Qed.

Lemma rep_emit (ev : event V) : replays lib1 lib2 (emit ev) (emit ev).
Proof.
  intros s1 s2 [H1 H2]. split; [exists [ev]; reflexivity|]. intros _.
  unfold emit, same_inputs. simpl. rewrite H1, H2. auto.
Qed.

Lemma rep_raise (A : Type) (e : exn) :
  replays lib1 lib2 (raise (A := A) e) (raise e).
Proof.
  intros s1 s2 [H1 H2]. split; [exists [EvRaise e]; reflexivity|]. intros _.
  unfold raise, same_inputs. simpl. rewrite H1, H2. auto.
Qed.

Lemma agree_on_app (l1 l2 : list (event V)) :
  agree_on lib1 lib2 (l1 ++ l2) -> agree_on lib1 lib2 l2.
Proof.
  intros H fn args kwargs Hin. apply H. apply in_or_app. right. exact Hin.
Qed.

Lemma rep_bind (A B : Type) (m1 m2 : M V A) (k1 k2 : A -> M V B) :
  replays lib1 lib2 m1 m2 -> (forall a, replays lib1 lib2 (k1 a) (k2 a)) ->
  replays lib1 lib2 (bind m1 k1) (bind m2 k2).
Proof.
  intros Hm Hk s1 s2 H. unfold bind.
  destruct (Hm s1 s2 H) as [[evs1 E1] Hm2].
  destruct (m1 s1) as [[a|e] t1] eqn:M1; simpl in *.
  - destruct (Hk a t1 t1 (same_inputs_refl t1)) as [[evs2 E2] _].
    split; [exists (evs2 ++ evs1); rewrite E2, E1, app_assoc; reflexivity|].
    intros Hag.
    assert (Hag1 : agree_on lib1 lib2 (log t1)).
    { rewrite E2 in Hag. apply agree_on_app in Hag. exact Hag. }
    destruct (Hm2 Hag1) as [Ho Hs].
    destruct (m2 s2) as [o2 t2]. simpl in *. subst o2.
    destruct (Hk a t1 t2 Hs) as [_ Hk2]. apply Hk2. exact Hag.
  - split; [exists evs1; exact E1|]. intros Hag.
    destruct (Hm2 Hag) as [Ho Hs].
    destruct (m2 s2) as [o2 t2]. simpl in *. subst o2. simpl. auto.
Qed.

Lemma rep_lift (A : Type) (r : result A) : replays lib1 lib2 (lift r) (lift r).
Proof. destruct r; simpl; [apply rep_raise | apply rep_ret]. Qed.

Lemma rep_print (v : value V) : replays lib1 lib2 (print v) (print v).
Proof. apply rep_emit. Qed.

(** The one place where the two libraries are asked: the call is in
    the log of the first run, so that they answer alike. *)
Lemma rep_call (fn : string) (args : list (value V)) (kwargs : dict V) :
  replays lib1 lib2 (call lib1 fn args kwargs) (call lib2 fn args kwargs).
Proof.
  intros s1 s2 [H1 H2]. unfold call, bind, emit, raise, ret, same_inputs.
  cbn [fst snd world log].
  split.
  - destruct (lib1 fn args kwargs) as [e|v]; cbn [snd log].
    + exists [EvRaise e; EvCall fn args kwargs]. reflexivity.
    + exists [EvReturn v; EvCall fn args kwargs]. reflexivity.
  - intros Hag.
    assert (E : lib2 fn args kwargs = lib1 fn args kwargs).
    { apply Hag. destruct (lib1 fn args kwargs); cbn [snd log]; simpl; auto. }
    rewrite E. destruct (lib1 fn args kwargs); cbn [fst snd world log];
      rewrite H1, H2; auto.
Qed.

(** Only the table at [url] may be read. *)
Lemma rep_read_csv : replays lib1 lib2 (read_csv url) (read_csv url).
Proof.
  intros s1 s2 H. pose proof H as [H1 H2].
  unfold read_csv, bind, emit, raise, ret, same_inputs.
  cbn [fst snd world log]. rewrite <- H1, H2.
  destruct (network (world s1) url) eqn:E; cbn [fst snd world log].
  - split; [exists [EvRead url]; reflexivity|].
    intros _. split; [reflexivity|]. split; [apply H | reflexivity].
  - split; [exists [EvRaise (URLError url); EvRead url]; reflexivity|].
    intros _. split; [reflexivity|]. split; [apply H | reflexivity].
Qed.

End ReplayRules.

Ltac rep_step :=
  lazymatch goal with
  | |- replays _ _ (bind _ _) (bind _ _) => apply rep_bind; [ | intros ? ]
  | |- replays _ _ (ret _) (ret _) => apply rep_ret
  | |- replays _ _ (lift _) (lift _) => apply rep_lift
  | |- replays _ _ (print _) (print _) => apply rep_print
  | |- replays _ _ (call _ _ _ _) (call _ _ _ _) => apply rep_call
  | |- replays _ _ (read_csv _) (read_csv _) => apply rep_read_csv
  | |- replays _ _ (match ?x with _ => _ end) _ => destruct x
  end.

Lemma main_replays (V : Type) (lib1 lib2 : Library V) :
  replays lib1 lib2 (main lib1) (main lib2).
Proof.
  unfold main, nhanes, analysis, basic_model, second_variable,
    three_variables, visualization, variance_structure, assessing_curvature,
    splines, interactions, plot_fitted, ccpr_plot, added_variable_plot,
    getattr, getitem, pow, method.
  repeat rep_step.
Qed.



(* ================================================================== *)
(** * The sequence of models *)
(* ================================================================== *)

Lemma fits_app (V : Type) (l1 l2 : list (event V)) :
  fit_sigs (l1 ++ l2) = fit_sigs l1 ++ fit_sigs l2.
Proof.
  unfold fit_sigs, fits. rewrite flat_map_app, map_app. reflexivity.
Qed.

Section SequenceRules.
Variable V : Type.
Variable lib : Library V.

Lemma seq_ret (A : Type) (a : A) : fits_when_complete (ret (V := V) a) [].
Proof. intros s. exists []. simpl. auto. Qed.

Lemma seq_raise (A : Type) (e : exn) (l : list (fit_kind * string)) :
  fits_when_complete (raise (V := V) (A := A) e) l.
Proof. intros s. exists [EvRaise e]. simpl. split; [reflexivity | discriminate]. Qed.

Lemma seq_emit (ev : event V) (l : list (fit_kind * string)) :
  fit_sigs [ev] = l -> fits_when_complete (emit ev) l.
Proof. intros H s. exists [ev]. simpl. auto. Qed.

Lemma seq_bind (A B : Type) (m : M V A) (k : A -> M V B)
  (l1 l2 : list (fit_kind * string)) :
  fits_when_complete m l1 -> (forall a, fits_when_complete (k a) l2) ->
  fits_when_complete (bind m k) (l1 ++ l2).
Proof.
  intros Hm Hk s. unfold bind.
  destruct (Hm s) as (evs1 & E1 & C1).
  destruct (m s) as [[a|e] s1]; simpl in *.
  - destruct (Hk a s1) as (evs2 & E2 & C2).
    exists (evs2 ++ evs1). rewrite E2, E1, app_assoc. split; [reflexivity|].
    intros H. rewrite rev_app_distr, fits_app, C1, C2; auto.
  - exists evs1. split; [exact E1 | discriminate].
Qed.

Lemma seq_lift (A : Type) (r : result A) : fits_when_complete (lift (V := V) r) [].
Proof. destruct r; simpl; [apply seq_raise | apply seq_ret]. Qed.

Lemma seq_print (v : value V) : fits_when_complete (print v) [].
Proof. apply seq_emit. reflexivity. Qed.

Lemma seq_read_csv (u : string) : fits_when_complete (read_csv (V := V) u) [].
Proof.
  unfold read_csv.
  apply (@seq_bind _ _ _ _ [] []); [apply seq_emit; reflexivity|].
  intros _ s. destruct (network (world s) u).
  - apply seq_ret.
  - apply seq_raise.
Qed.

Lemma seq_call (fn : string) (args : list (value V)) (kwargs : dict V)
  (l : list (fit_kind * string)) :
  fit_sigs [EvCall fn args kwargs] = l ->
  fits_when_complete (call lib fn args kwargs) l.
Proof.
  intros H. unfold call. rewrite <- (app_nil_r l).
  apply seq_bind; [apply seq_emit; exact H|]. intros _.
  destruct (lib fn args kwargs).
  - apply seq_raise.
  - apply (@seq_bind _ _ _ _ [] []); [apply seq_emit; reflexivity|].
    intros _. apply seq_ret.
Qed.

Lemma seq_eq (A : Type) (m : M V A) (l l' : list (fit_kind * string)) :
  fits_when_complete m l -> l = l' -> fits_when_complete m l'.
Proof. intros H <-. exact H. Qed.

End SequenceRules.

Ltac seq_step :=
  lazymatch goal with
  | |- fits_when_complete (bind _ _) _ => eapply seq_bind; [ | intros ? ]
  | |- fits_when_complete (ret _) _ => apply seq_ret
  | |- fits_when_complete (lift _) _ => apply seq_lift
  | |- fits_when_complete (print _) _ => apply seq_print
  | |- fits_when_complete (read_csv _) _ => apply seq_read_csv
  | |- fits_when_complete (call _ _ _ _) _ => apply seq_call; lazy; reflexivity
  | |- fits_when_complete (match ?x with _ => _ end) _ => destruct x
  end.

Lemma main_models (V : Type) (lib : Library V) :
  fits_when_complete (main lib) models_of_the_script.
Proof.
  eapply seq_eq.
  - unfold main, nhanes, analysis, basic_model, second_variable,
      three_variables, visualization, variance_structure, assessing_curvature,
      splines, interactions, plot_fitted, ccpr_plot, added_variable_plot,
      getattr, getitem, pow, method.
    repeat seq_step.
  - reflexivity.
Qed.

Lemma fitted_formulas_sigs (V : Type) (evs : list (event V)) :
  fitted_formulas evs = map snd (fit_sigs evs).
Proof.
  unfold fitted_formulas, fit_sigs. rewrite map_map. reflexivity.
Qed.

Lemma calls_have_a_purpose :
  Forall (fun fn => purpose_of fn <> None) calls_of_the_script.
Proof. vm_compute. repeat constructor; discriminate. Qed.

Lemma firstn_In (A : Type) (k : nat) (l : list A) (x : A) :
  In x (firstn k l) -> In x l.
Proof.
  revert l. induction k as [|k IH]; intros [|y l] H; simpl in H;
    try contradiction.
  destruct H as [H|H]; [left; exact H | right; apply IH; exact H].
Qed.

Lemma run_top_level (V : Type) (lib : Library V) (w : World) :
  Forall (@top_level V) (trace lib w).
Proof.
  destruct (run_sound lib w) as (evs & E & F & _).
  destruct (run_straight lib w) as [[k Hk] _].
  apply Forall_forall. intros ev Hin.
  destruct ev as [u|fn args kwargs|v|v|path|e]; simpl; auto.
  - rewrite (@trace_run _ lib w evs E) in Hin. destruct Hin as [Hin|Hin].
    + injection Hin as <-. reflexivity.
    + apply in_rev in Hin. rewrite Forall_forall in F.
      destruct (F _ Hin) as [[] _].
  - apply in_call_names in Hin. rewrite Hk in Hin. apply firstn_In in Hin.
    pose proof calls_have_a_purpose as P. rewrite Forall_forall in P.
    apply P. exact Hin.
  - rewrite (@trace_run _ lib w evs E) in Hin. destruct Hin as [Hin|Hin].
    + discriminate.
    + apply in_rev in Hin. rewrite Forall_forall in F.
      destruct (F _ Hin) as [[] _].
Qed.




(* ================================================================== *)
(** * Frames: selection, complete rows, derived columns *)
(* ================================================================== *)

Lemma keep_rows_nth (A : Type) (mask : list bool) (col : list A) (x : A) :
  In x (keep_rows mask col) ->
  exists i, nth_error mask i = Some true /\ nth_error col i = Some x.
Proof.
  revert col. induction mask as [|b mask IH]; intros [|y col] H;
    simpl in H; try contradiction.
  destruct b.
  - destruct H as [<-|H].
    + exists 0. auto.
    + destruct (IH col H) as (i & H1 & H2). exists (S i). auto.
  - destruct (IH col H) as (i & H1 & H2). exists (S i). auto.
Qed.

Lemma nth_error_map_seq (A : Type) (g : nat -> A) (n start i : nat) (b : A) :
  nth_error (map g (seq start n)) i = Some b -> b = g (start + i).
Proof.
  revert start i. induction n as [|n IH]; intros start [|i] H; simpl in H;
    try discriminate.
  - injection H as <-. f_equal. lia.
  - apply IH in H. rewrite H. f_equal. lia.
Qed.

(** After [dropna] no column has a missing cell. *)
Lemma dropna_complete (f : Frame) (name : string) (col : Column) :
  In (name, col) (dropna f) -> no_missing col = true.
Proof.
  unfold dropna. intros H. apply in_map_iff in H.
  destruct H as ([n c] & E & Hin). simpl in E. injection E as _ <-.
  apply forallb_forall. intros x Hx.
  apply keep_rows_nth in Hx. destruct Hx as (i & Hm & Hc).
  apply nth_error_map_seq in Hm. simpl in Hm. symmetry in Hm.
  unfold row_complete in Hm. rewrite forallb_forall in Hm.
  specialize (Hm (n, c) Hin). simpl in Hm. rewrite Hc in Hm. exact Hm.
Qed.

Lemma getitem_list_vars (f sel : Frame) :
  getitem_list f vars = inr sel ->
  exists sbp age gender eth edu bmi smoke,
    sel = measurements sbp age gender eth edu bmi smoke.
Proof.
  unfold vars. simpl. intros H.
  destruct (frame_get f "BPXSY1") as [c1|]; [|discriminate].
  destruct (frame_get f "RIDAGEYR") as [c2|]; [|discriminate].
  destruct (frame_get f "RIAGENDR") as [c3|]; [|discriminate].
  destruct (frame_get f "RIDRETH1") as [c4|]; [|discriminate].
  destruct (frame_get f "DMDEDUC2") as [c5|]; [|discriminate].
  destruct (frame_get f "BMXBMI") as [c6|]; [|discriminate].
  destruct (frame_get f "SMQ020") as [c7|]; [|discriminate].
  injection H as <-. exists c1, c2, c3, c4, c5, c6, c7. reflexivity.
Qed.

(** The frame after line 112: seven columns, none with a missing
    cell. *)
Lemma nhanes_frame (f sel : Frame) :
  getitem_list f vars = inr sel ->
  exists sbp age gender eth edu bmi smoke,
    dropna sel = measurements sbp age gender eth edu bmi smoke /\
    Forall (fun col => no_missing col = true)
           [sbp; age; gender; eth; edu; bmi; smoke].
Proof.
  intros H. apply getitem_list_vars in H.
  destruct H as (c1 & c2 & c3 & c4 & c5 & c6 & c7 & ->).
  set (d := dropna (measurements c1 c2 c3 c4 c5 c6 c7)).
  assert (Hd : forall n c, In (n, c) d -> no_missing c = true)
    by (intros n c; apply dropna_complete).
  unfold d, dropna, measurements in *. cbn [map fst snd] in *.
  do 7 eexists. split; [reflexivity|].
  repeat constructor; eapply Hd; simpl; eauto 10.
Qed.

Lemma replace_cell_not_missing (c : cell) :
  is_missing c = false ->
  is_missing (replace_cell [(1%Z, CStr "Male"); (2%Z, CStr "Female")] c) = false.
Proof.
  destruct c as [x|s]; simpl; auto.
  intros H. destruct (F64.eqb x _); auto. destruct (F64.eqb x _); auto.
Qed.

Lemma gender_labels_complete (gender : Column) :
  no_missing gender = true -> no_missing (gender_labels gender) = true.
Proof.
  unfold no_missing, gender_labels, series_replace.
  rewrite !forallb_forall. intros H c Hc.
  apply in_map_iff in Hc. destruct Hc as (c0 & <- & Hc0).
  specialize (H c0 Hc0). rewrite replace_cell_not_missing; auto.
  destruct (is_missing c0); auto; discriminate.
Qed.

Lemma to_numeric_numbers (col : Column) (xs : list F64.float) :
  to_numeric col = inr xs -> no_missing col = true ->
  Forall (fun x => F64.is_nan x = false) xs.
Proof.
  revert xs. induction col as [|[x|s] col IH]; intros xs H Hc; simpl in *.
  - injection H as <-. constructor.
  - destruct (to_numeric col) as [e|ys]; [discriminate|].
    injection H as <-. apply andb_prop in Hc. destruct Hc as [Hx Hc].
    constructor; auto. destruct (F64.is_nan x); auto; discriminate.
  - discriminate.
Qed.

Lemma no_missing_of_numeric (xs : list F64.float) :
  Forall (fun x => F64.is_nan x = false) xs ->
  no_missing (of_numeric xs) = true.
Proof.
  induction 1 as [|x xs Hx _ IH]; simpl; auto.
  rewrite Hx. exact IH.
Qed.

(** Line 686 on numbers with a finite mean gives numbers. *)
Lemma centered_complete (xs : list F64.float) :
  Forall (fun x => F64.is_nan x = false) xs ->
  F64.is_finite (series_mean binary64 xs) = true ->
  no_missing (of_numeric (centered binary64 xs)) = true.
Proof.
  intros Hx Hm. apply no_missing_of_numeric. unfold centered.
  apply Forall_map. eapply Forall_impl; [|exact Hx].
  intros x Hn. simpl. apply sub_not_nan; assumption.
Qed.

(** Line 612 on numbers with a finite mean and a finite standard
    deviation other than zero gives numbers. *)
Lemma standardized_complete (xs : list F64.float) :
  Forall (fun x => F64.is_nan x = false) xs ->
  F64.is_finite (series_mean binary64 xs) = true ->
  F64.is_nonzero_finite (series_std binary64 xs) = true ->
  no_missing (of_numeric (standardized binary64 xs)) = true.
Proof.
  intros Hx Hm Hs. apply no_missing_of_numeric. unfold standardized.
  apply Forall_map. eapply Forall_impl; [|exact Hx].
  intros x Hn. simpl. apply div_not_nan; [|assumption].
  apply sub_not_nan; assumption.
Qed.

(* ================================================================== *)
(** * The frames given to the fits *)
(* ================================================================== *)

Section AnalysisFrames.
Variable V : Type.
Variable lib : Library V.
Variable w : World.
Variables sbp age gender eth edu bmi smoke : Column.

Local Abbreviation base := (measurements sbp age gender eth edu bmi smoke).
Local Abbreviation with_gender :=
  (base ++ [("RIAGENDRx"%string, gender_labels gender)]).
Local Abbreviation P := (@staged V base age gender).

Ltac staged_ok :=
  first
    [ exact I
    | exact (stage_measurements base age gender)
    | exact (stage_gender base age gender)
    | match goal with
      | H : to_numeric age = inr ?xs |- _ =>
          first [ exact (@stage_standardized base age gender xs H)
                | exact (@stage_centered base age gender xs H) ]
      end ].

Lemma basic_model_frames :
  sound w P (basic_model lib base) (fun _ => True).
Proof. unfold basic_model. sound_run staged_ok. Qed.

Lemma second_variable_frames :
  sound w P (second_variable lib base) (fun da => da = with_gender).
Proof. unfold second_variable. sound_run staged_ok. Qed.

Lemma three_variables_frames :
  sound w P (three_variables lib with_gender) (fun _ => True).
Proof. unfold three_variables. sound_run staged_ok. Qed.

Lemma plot_fitted_frames (r : value V) (focus : string) (values : dict V)
  (xlabel : string) :
  sound w P (plot_fitted lib r focus values xlabel) (fun _ => True).
Proof. unfold plot_fitted. sound_run staged_ok. Qed.

Hint Resolve plot_fitted_frames : sound.

Lemma visualization_frames (r : value V) :
  sound w P (visualization lib r) (fun _ => True).
Proof. unfold visualization. sound_run staged_ok. Qed.

Lemma ccpr_plot_frames (r : value V) (focus : string) :
  sound w P (ccpr_plot lib r focus) (fun _ => True).
Proof. unfold ccpr_plot. sound_run staged_ok. Qed.

Hint Resolve ccpr_plot_frames : sound.

Lemma variance_structure_frames (r : value V) :
  sound w P (variance_structure lib r) (fun _ => True).
Proof. unfold variance_structure. sound_run staged_ok. Qed.

Lemma added_variable_plot_frames (focus : string) :
  sound w P (added_variable_plot lib with_gender focus) (fun _ => True).
Proof. unfold added_variable_plot. sound_run staged_ok. Qed.

Hint Resolve added_variable_plot_frames : sound.

Lemma assessing_curvature_frames :
  sound w P (assessing_curvature lib with_gender) (fun _ => True).
Proof. unfold assessing_curvature. sound_run staged_ok. Qed.

Lemma splines_frames :
  sound w P (splines lib with_gender) (fun r => fst r = with_gender).
Proof. unfold splines. sound_run staged_ok. Qed.

Lemma interactions_frames (values : dict V) :
  sound w P (interactions lib with_gender values)
        (fun da => exists xs,
           to_numeric age = inr xs /\
           da = base ++ [("RIAGENDRx"%string, gender_labels gender);
                         ("RIDAGEYR_cen"%string, of_numeric (centered binary64 xs))]).
Proof.
  unfold interactions. sound_run staged_ok.
  eexists. split; [eassumption | reflexivity].
Qed.

Lemma analysis_frames :
  sound w P (analysis lib base)
        (fun da => exists xs,
           to_numeric age = inr xs /\
           da = base ++ [("RIAGENDRx"%string, gender_labels gender);
                         ("RIDAGEYR_cen"%string, of_numeric (centered binary64 xs))]).
Proof.
  unfold analysis.
  apply sound_bind_unit; [apply basic_model_frames | intros _].
  eapply sound_bind; [apply second_variable_frames | intros da ->].
  apply sound_bind_unit; [apply three_variables_frames | intros r].
  apply sound_bind_unit; [apply visualization_frames | intros _].
  apply sound_bind_unit; [apply variance_structure_frames | intros _].
  apply sound_bind_unit; [apply assessing_curvature_frames | intros _].
  eapply sound_bind; [apply splines_frames | intros [da values] E].
  simpl in E. subst da. apply interactions_frames.
Qed.

End AnalysisFrames.

Lemma fits_staged (V : Type) (base : Frame) (age gender : Column)
  (evs : list (event V)) :
  Forall (@staged V base age gender) evs ->
  Forall (fun x => stage base age gender (fit_data x)) (fits evs).
Proof.
  induction 1 as [|ev evs H _ IH]; [constructor|].
  unfold fits in *. simpl. apply Forall_app. split; [|exact IH].
  unfold staged in H. destruct (fit_of_event ev); auto.
Qed.

(** Either the data could not be loaded and nothing was fitted, or the
    frame after line 112 is made of seven complete columns, every fit
    was given one of the four frames built on it, and a run that
    completes ends with that frame, [RIAGENDRx] and [RIDAGEYR_cen]. *)
Lemma run_frames (V : Type) (lib : Library V) (w : World) :
  (fits (trace lib w) = [] /\ completes (outcome lib w) = false) \/
  exists csv sel sbp age gender eth edu bmi smoke,
    network w url = Some csv /\
    getitem_list csv vars = inr sel /\
    dropna sel = measurements sbp age gender eth edu bmi smoke /\
    Forall (fun col => no_missing col = true)
           [sbp; age; gender; eth; edu; bmi; smoke] /\
    Forall (fun x => stage (dropna sel) age gender (fit_data x))
           (fits (trace lib w)) /\
    forall da, outcome lib w = Ok da ->
      exists xs,
        to_numeric age = inr xs /\
        da = dropna sel ++
             [("RIAGENDRx"%string, gender_labels gender);
              ("RIDAGEYR_cen"%string, of_numeric (centered binary64 xs))].
Proof.
  unfold trace, outcome, run, main, bind. rewrite nhanes_run. cbn [world log].
  destruct (network w url) as [csv|]; [|left; split; reflexivity].
  destruct (getitem_list csv vars) as [e|sel] eqn:E; [left; split; reflexivity|].
  right. destruct (nhanes_frame _ E)
    as (sbp & age & gender & eth & edu & bmi & smoke & D & C).
  exists csv, sel, sbp, age, gender, eth, edu, bmi, smoke.
  repeat (split; [solve [auto]|]). rewrite D.
  destruct (analysis_frames lib (w := w) sbp age gender eth edu bmi smoke
              {| world := w; log := [EvRead url] |} eq_refl)
    as (evs & E' & F & O).
  rewrite E'. cbn [log snd]. split.
  - rewrite rev_app_distr. simpl. apply fits_staged. apply Forall_rev. exact F.
  - intros da Hda. rewrite Hda in O. destruct O as [O _]. exact O.
Qed.

(** C10.  Once the seven columns are selected and the incomplete rows
    dropped, the frame given to every fit is that frame followed by
    derived columns only ([RIAGENDRx], [RIDAGEYR_z], [RIDAGEYR_cen]), so
    every measurement column holds the values it held after line 112;
    and a run that completes ends with that frame followed by
    [RIAGENDRx] and [RIDAGEYR_cen]. *)
Theorem measurements_never_change (V : Type) (lib : Library V) (w : World)
  (csv sel : Frame) :
  network w url = Some csv ->
  getitem_list csv vars = inr sel ->
  (forall x, In x (fits (trace lib w)) ->
     (exists extra,
        fit_data x = dropna sel ++ extra /\
        incl (columns extra) ["RIAGENDRx"; "RIDAGEYR_z"; "RIDAGEYR_cen"]%string) /\
     (forall c, In c vars -> frame_get (fit_data x) c = frame_get (dropna sel) c)) /\
  (forall da, outcome lib w = Ok da ->
     (exists extra,
        da = dropna sel ++ extra /\
        columns extra = ["RIAGENDRx"; "RIDAGEYR_cen"]%string) /\
     (forall c, In c vars -> frame_get da c = frame_get (dropna sel) c)).
Proof.
  intros Hn Hs.
  destruct (run_frames lib w) as [[Hf Hc] | H].
  - split.
    + intros x Hx. rewrite Hf in Hx. contradiction.
    + intros da Hda. rewrite Hda in Hc. discriminate.
  - destruct H as (csv' & sel' & sbp & age & gender & eth & edu & bmi & smoke
                   & Hn' & Hs' & D & _ & F & O).
    rewrite Hn in Hn'. injection Hn' as <-.
    rewrite Hs in Hs'. injection Hs' as <-.
    split.
    + intros x Hx. rewrite Forall_forall in F. specialize (F x Hx).
      rewrite D in *.
      assert (K : forall extra c, In c vars ->
                frame_get (measurements sbp age gender eth edu bmi smoke ++ extra) c
                = frame_get (measurements sbp age gender eth edu bmi smoke) c).
      { intros extra c Hc. simpl in Hc.
        repeat (destruct Hc as [<-|Hc]; [reflexivity|]). contradiction. }
      inversion F as [E|E|xs Hxs E|xs Hxs E]; split;
        try (intros c Hc; first [reflexivity | apply K; exact Hc]).
      * exists []. rewrite app_nil_r. split; [reflexivity | intros c []].
      * eexists. split; [reflexivity|]. intros c Hc. simpl in *. tauto.
      * eexists. split; [reflexivity|]. intros c Hc. simpl in *. tauto.
      * eexists. split; [reflexivity|]. intros c Hc. simpl in *. tauto.
    + intros da Hda. destruct (O da Hda) as (xs & Hxs & ->). split.
      * eexists. split; reflexivity.
      * rewrite D. intros c Hc. simpl in Hc.
        repeat (destruct Hc as [<-|Hc]; [reflexivity|]). contradiction.
Qed.

Lemma measurements_never_change_witness :
  exists sel,
    network nhanes_sample url = Some (survey sample_ages) /\
    getitem_list (survey sample_ages) vars = inr sel /\
    forall da, outcome quiet_library nhanes_sample = Ok da ->
      (exists extra,
         da = dropna sel ++ extra /\
         columns extra = ["RIAGENDRx"; "RIDAGEYR_cen"]%string) /\
      (forall c, In c vars -> frame_get da c = frame_get (dropna sel) c).
Proof.
  eexists. split; [reflexivity|]. split; [vm_compute; reflexivity|].
  refine (proj2 (measurements_never_change quiet_library nhanes_sample _ _)).
  - reflexivity.
  - vm_compute; reflexivity.
Defined.

(** X19.  The frame given to every fit has the seven measurement
    columns, none with a missing value; its column [RIAGENDRx], when it
    has one, has no missing value; its column [RIDAGEYR_cen] has none
    provided the mean of [RIDAGEYR] is finite; its column [RIDAGEYR_z]
    has none provided the mean of [RIDAGEYR] is finite and its standard
    deviation is finite and not zero.  (Whether a run can come to
    lines 612 and 686 without these provisos is for statsmodels to
    decide, on the fits and plots before.) *)
Theorem fits_get_complete_columns (V : Type) (lib : Library V) (w : World)
  (x : fit) :
  In x (fits (trace lib w)) ->
  (forall c, In c vars -> column_complete (fit_data x) c = true) /\
  (forall col, frame_get (fit_data x) "RIAGENDRx" = Some col ->
     no_missing col = true) /\
  (forall xs col,
     numbers (fit_data x) "RIDAGEYR" = Some xs ->
     F64.is_finite (series_mean binary64 xs) = true ->
     frame_get (fit_data x) "RIDAGEYR_cen" = Some col ->
     no_missing col = true) /\
  (forall xs col,
     numbers (fit_data x) "RIDAGEYR" = Some xs ->
     F64.is_finite (series_mean binary64 xs) = true ->
     F64.is_nonzero_finite (series_std binary64 xs) = true ->
     frame_get (fit_data x) "RIDAGEYR_z" = Some col ->
     no_missing col = true).
Proof.
  intros Hx.
  destruct (run_frames lib w) as [[Hf _] | H];
    [rewrite Hf in Hx; contradiction|].
  destruct H as (csv & sel & sbp & age & gender & eth & edu & bmi & smoke
                 & _ & _ & D & C & F & _).
  rewrite Forall_forall in F. specialize (F x Hx). rewrite D in F.
  assert (Hage : no_missing age = true).
  { inversion C as [|? ? _ C1]. inversion C1. assumption. }
  assert (Hgender : no_missing (gender_labels gender) = true).
  { apply gender_labels_complete.
    inversion C as [|? ? _ C1]. inversion C1 as [|? ? _ C2]. inversion C2.
    assumption. }
  assert (Hnum : forall extra xs,
            numbers (measurements sbp age gender eth edu bmi smoke ++ extra)
                    "RIDAGEYR" = Some xs ->
            Forall (fun v => F64.is_nan v = false) xs /\ to_numeric age = inr xs).
  { intros extra xs. unfold numbers. cbn [measurements app frame_get String.eqb Ascii.eqb Bool.eqb].
    cbn. destruct (to_numeric age) as [e|ys] eqn:E; [discriminate|].
    intros [= <-]. split; [|reflexivity].
    apply to_numeric_numbers with (col := age); assumption. }
  assert (Hkeys : forall extra c, In c vars ->
            column_complete (measurements sbp age gender eth edu bmi smoke ++ extra) c
            = true).
  { intros extra c Hc. rewrite Forall_forall in C. simpl in Hc.
    repeat (destruct Hc as [<-|Hc];
            [unfold column_complete; cbn; apply C; simpl; tauto|]).
    contradiction. }
  inversion F as [E|E|ys Hys E|ys Hys E]; clear F.
  - split; [intros c Hc; rewrite <- (app_nil_r (measurements _ _ _ _ _ _ _));
            apply Hkeys; exact Hc|].
    repeat split; intros; cbn in *; discriminate.
  - split; [intros c Hc; apply Hkeys; exact Hc|].
    split; [intros col [= <-]; exact Hgender|].
    split; intros; cbn in *; discriminate.
  - split; [intros c Hc; apply Hkeys; exact Hc|].
    split; [intros col [= <-]; exact Hgender|].
    split; [intros; cbn in *; discriminate|].
    intros xs col Hxs Hm Hs [= <-].
    apply Hnum in Hxs. destruct Hxs as [Hnan Hxs].
    rewrite Hys in Hxs. injection Hxs as ->.
    apply standardized_complete; assumption.
  - split; [intros c Hc; apply Hkeys; exact Hc|].
    split; [intros col [= <-]; exact Hgender|].
    split; [|intros; cbn in *; discriminate].
    intros xs col Hxs Hm [= <-].
    apply Hnum in Hxs. destruct Hxs as [Hnan Hxs].
    rewrite Hys in Hxs. injection Hxs as ->.
    apply centered_complete; assumption.
Qed.

Lemma fits_get_complete_columns_witness :
  exists x,
    In x (fits (trace quiet_library nhanes_sample)) /\
    fit_formula x = "BPXSY1 ~ RIDAGEYR_z + I(RIDAGEYR_z**2) + RIAGENDRx"%string /\
    (forall c, In c vars -> column_complete (fit_data x) c = true) /\
    column_complete (fit_data x) "RIDAGEYR_z" = true.
Proof.
  exists (nth 5 (fits (trace quiet_library nhanes_sample)) (Fit OLS "" [])).
  assert (H : In (nth 5 (fits (trace quiet_library nhanes_sample)) (Fit OLS "" []))
                 (fits (trace quiet_library nhanes_sample)))
    by (vm_compute; do 5 right; left; reflexivity).
  destruct (fits_get_complete_columns quiet_library nhanes_sample _ H)
    as (K & _ & _ & Z).
  split; [exact H|]. split; [vm_compute; reflexivity|]. split; [exact K|].
  unfold column_complete.
  destruct (frame_get _ "RIDAGEYR_z") as [col|] eqn:E; [|vm_compute in E; discriminate].
  eapply Z; [vm_compute; reflexivity | vm_compute; reflexivity
            | vm_compute; reflexivity | reflexivity].
Defined.

(* ================================================================== *)
(** * Centring and standardising *)
(* ================================================================== *)


Lemma to_numeric_of_numeric (xs : list F64.float) :
  to_numeric (of_numeric xs) = inr xs.
Proof.
  induction xs as [|x xs IH]; [reflexivity|].
  unfold of_numeric in *. simpl. rewrite IH. reflexivity.
Qed.



(** Whole ages with a whole mean do not make [RIDAGEYR_z] exact: the
    standardised values of 1, 2, 6 have a mean other than zero, and
    those of 1, 2, 3, 10 a standard deviation other than one. *)
Example standardized_whole_ages_are_rounded :
  F64.eqb (series_mean binary64
             (standardized binary64 (map F64.of_Z [1; 2; 6]%Z))) F64.zero = false /\
  F64.eqb (series_std binary64
             (standardized binary64 (map F64.of_Z [1; 2; 3; 10]%Z)))
          (F64.of_Z 1) = false.
Proof. split; vm_compute; reflexivity. Qed.


(* ================================================================== *)
(** * What a handler or a file written would change *)
(* ================================================================== *)

(** The statements that the script does not have would be seen: under a
    handler the exception is logged and is not the outcome. *)
Example a_handler_would_hide_the_exception :
  let guarded := try_except (main quiet_library) (fun _ => ret []) in
  let r := guarded {| world := offline; log := [] |} in
  fst r = Ok [] /\ In (EvRaise (URLError url)) (log (snd r)).
Proof. vm_compute. auto. Qed.

(** And a file written changes the disk and is logged. *)
Example a_write_would_change_the_disk :
  let r := write_file (V := nat) "da.csv" "BPXSY1" {| world := offline; log := [] |} in
  disk offline "da.csv" = None /\
  disk (world (snd r)) "da.csv" = Some "BPXSY1"%string /\
  writes (log (snd r)) = ["da.csv"%string].
Proof. vm_compute. auto. Qed.

(** A formula that the library rejects: the run stops there, with the
    exception of the library. *)
Example a_rejected_formula_stops_the_run :
  outcome failing_library nhanes_sample = Raised (Exn "PatsyError" "bs") /\
  raises (trace failing_library nhanes_sample) = [Exn "PatsyError" "bs"] /\
  List.length (fits (trace failing_library nhanes_sample)) = 7.
Proof. vm_compute. auto. Qed.

(** A file without one of the seven columns: nothing is fitted. *)
Example a_missing_column_stops_the_run :
  outcome quiet_library no_bmi = Raised (KeyError "BMXBMI") /\
  fits (trace quiet_library no_bmi) = [].
Proof. vm_compute. auto. Qed.

(* ================================================================== *)
(** * Selection, assignment and deletion of columns *)
(* ================================================================== *)

(** X1.  When [da[names]] succeeds, the new frame has exactly the
    listed columns, in the listed order, each with the cells it has in
    the frame it is taken from, wherever it stood there. *)
Theorem selection_has_the_named_columns (f sel : Frame) (names : list string) :
  getitem_list f names = inr sel ->
  columns sel = names /\
  forall n, In n names ->
    frame_get f n <> None /\ frame_get sel n = frame_get f n.
Proof.
  revert sel. induction names as [|n0 rest IH]; intros sel H; simpl in H.
  - injection H as <-. split; [reflexivity | intros n []].
  - destruct (frame_get f n0) as [col|] eqn:E0; [|discriminate].
    destruct (getitem_list f rest) as [e|g] eqn:Eg; [discriminate|].
    injection H as <-. destruct (IH g eq_refl) as [Hc Hg].
    split; [simpl; rewrite Hc; reflexivity|].
    intros n Hn. simpl.
    destruct (String.eqb n0 n) eqn:En.
    + apply String.eqb_eq in En. subst n. rewrite E0. split; [discriminate | reflexivity].
    + destruct Hn as [Hn|Hn]; [subst n; rewrite String.eqb_refl in En; discriminate|].
      apply Hg. exact Hn.
Qed.

Lemma selection_has_the_named_columns_witness :
  exists sel,
    getitem_list (survey sample_ages) vars = inr sel /\
    columns sel = vars /\
    frame_get sel "BMXBMI" = frame_get (survey sample_ages) "BMXBMI".
Proof.
  eexists. split; [vm_compute; reflexivity|].
  destruct (@selection_has_the_named_columns (survey sample_ages) _ vars eq_refl)
    as [Hc Hg].
  split; [exact Hc|]. apply Hg. simpl. tauto.
Defined.

Lemma frame_get_set_column_same (f : Frame) (n : string) (c : Column) :
  frame_get (set_column f n c) n = Some c.
Proof.
  induction f as [|[n0 c0] f IH]; simpl.
  - rewrite String.eqb_refl. reflexivity.
  - destruct (String.eqb n0 n) eqn:E; simpl; rewrite E; auto.
Qed.

Lemma frame_get_set_column_other (f : Frame) (n m : string) (c : Column) :
  m <> n -> frame_get (set_column f n c) m = frame_get f m.
Proof.
  intros H. induction f as [|[n0 c0] f IH]; simpl.
  - destruct (String.eqb n m) eqn:E; [|reflexivity].
    apply String.eqb_eq in E. congruence.
  - destruct (String.eqb n0 n) eqn:E; simpl.
    + apply String.eqb_eq in E. subst n0.
      destruct (String.eqb n m) eqn:E'; [|reflexivity].
      apply String.eqb_eq in E'. congruence.
    + rewrite IH. reflexivity.
Qed.

Lemma columns_set_column (f : Frame) (n : string) (c : Column) :
  columns (set_column f n c) =
  if mem_string n (columns f) then columns f else (columns f ++ [n])%list.
Proof.
  unfold mem_string. induction f as [|[n0 c0] f IH]; simpl; [reflexivity|].
  rewrite (String.eqb_sym n n0).
  destruct (String.eqb n0 n); simpl; [reflexivity|].
  rewrite IH. destruct (existsb (String.eqb n) (columns f)); reflexivity.
Qed.

(** X6.  [da[name] = col] on a frame that has columns raises
    [ValueError] when [col] has not as many values as the frame has
    rows.  Otherwise it gives the frame that column, leaves every other
    column as it is, and changes the list of labels only when the label
    is new, by putting it last. *)
Theorem assignment_touches_one_column (f : Frame) (n : string) (c : Column) :
  match setitem f n c with
  | inl e =>
      f <> [] /\ List.length c <> nrows f /\ exn_class e = "ValueError"%string
  | inr g =>
      (f = [] \/ List.length c = nrows f) /\
      frame_get g n = Some c /\
      (forall m, m <> n -> frame_get g m = frame_get f m) /\
      columns g =
        (if mem_string n (columns f) then columns f else columns f ++ [n])%list
  end.
Proof.
  assert (H : forall g, g = set_column f n c ->
            frame_get g n = Some c /\
            (forall m, m <> n -> frame_get g m = frame_get f m) /\
            columns g =
              (if mem_string n (columns f) then columns f
               else columns f ++ [n])%list).
  { intros g ->. split; [apply frame_get_set_column_same|].
    split; [intros m; apply frame_get_set_column_other | apply columns_set_column]. }
  unfold setitem. destruct f as [|nc f].
  - split; [left; reflexivity | apply H; reflexivity].
  - destruct (Nat.eqb (List.length c) (nrows (nc :: f))) eqn:E.
    + apply Nat.eqb_eq in E. split; [right; exact E | apply H; reflexivity].
    + apply Nat.eqb_neq in E. split; [discriminate|]. split; [exact E | reflexivity].
Qed.

Lemma frame_remove_set_column (f : Frame) (n : string) (c : Column) :
  frame_get f n = None -> frame_remove (set_column f n c) n = f.
Proof.
  induction f as [|[n0 c0] f IH]; simpl; intros H.
  - rewrite String.eqb_refl. reflexivity.
  - destruct (String.eqb n0 n) eqn:E; [discriminate|].
    simpl. rewrite E, IH; auto.
Qed.

(** X7.  Adding a column under a label that the frame does not have
    and deleting it again (lines 612 and 639) gives back the frame,
    cell for cell and in the same order. *)
Theorem add_then_delete_restores (f g : Frame) (n : string) (c : Column) :
  frame_get f n = None -> setitem f n c = inr g -> delitem g n = inr f.
Proof.
  intros H Hg. apply setitem_inr in Hg. subst g.
  unfold delitem. rewrite frame_get_set_column_same.
  rewrite frame_remove_set_column; auto.
Qed.

Lemma add_then_delete_restores_witness :
  frame_get (survey sample_ages) "RIDAGEYR_z" = None /\
  exists g,
    setitem (survey sample_ages) "RIDAGEYR_z"
      (of_numeric (standardized binary64 (map F64.of_Z sample_ages))) = inr g /\
    frame_get g "RIDAGEYR_z" <> None /\
    delitem g "RIDAGEYR_z" = inr (survey sample_ages).
Proof.
  assert (H : frame_get (survey sample_ages) "RIDAGEYR_z" = None) by reflexivity.
  split; [exact H|].
  set (z := of_numeric (standardized binary64 (map F64.of_Z sample_ages))).
  assert (Hs : setitem (survey sample_ages) "RIDAGEYR_z" z
               = inr (set_column (survey sample_ages) "RIDAGEYR_z" z))
    by (vm_compute; reflexivity).
  exists (set_column (survey sample_ages) "RIDAGEYR_z" z).
  split; [exact Hs|]. split; [vm_compute; discriminate|].
  exact (@add_then_delete_restores _ _ _ _ H Hs).
Defined.

Lemma frame_get_absent (f : Frame) (n : string) :
  ~ In n (columns f) -> frame_get f n = None.
Proof.
  induction f as [|[n0 c0] f IH]; simpl; intros H; [reflexivity|].
  destruct (String.eqb n0 n) eqn:E.
  - apply String.eqb_eq in E. tauto.
  - apply IH. tauto.
Qed.

(** X8.  [del da[name]] raises [KeyError] when the frame has no such
    column.  When it succeeds, every other column is as before; and
    if the labels of the frame are distinct, the label is gone. *)
Theorem deletion_removes_one_column (f : Frame) (n : string) :
  (frame_get f n = None -> delitem f n = inl (KeyError n)) /\
  (forall g, delitem f n = inr g ->
     (forall m, m <> n -> frame_get g m = frame_get f m) /\
     (NoDup (columns f) -> frame_get g n = None)).
Proof.
  unfold delitem. split; [intros ->; reflexivity|].
  intros g H. destruct (frame_get f n) as [c|] eqn:E; [|discriminate].
  injection H as <-. clear c E. split.
  - intros m Hm. induction f as [|[n0 c0] f IH]; simpl; [reflexivity|].
    destruct (String.eqb n0 n) eqn:E; simpl.
    + apply String.eqb_eq in E. subst n0.
      destruct (String.eqb n m) eqn:E'; [|reflexivity].
      apply String.eqb_eq in E'. congruence.
    + rewrite IH. reflexivity.
  - induction f as [|[n0 c0] f IH]; simpl; intros Hd; [reflexivity|].
    inversion Hd as [|? ? Hn Hd']. subst.
    destruct (String.eqb n0 n) eqn:E; simpl.
    + apply String.eqb_eq in E. subst n0. apply frame_get_absent. exact Hn.
    + rewrite E. apply IH. exact Hd'.
Qed.

(** X18.  On the dictionary of fixed values: after [d[k] = v] the key
    [k] has the value [v] and every other key what it had; [del d[k]]
    raises [KeyError] when the key is absent, and otherwise removes
    the key and nothing else. *)
Theorem dictionary_assignment_and_deletion (V : Type) (d : dict V)
  (k : string) (v : value V) :
  dict_get (dict_set d k v) k = Some v /\
  (forall k', k' <> k -> dict_get (dict_set d k v) k' = dict_get d k') /\
  (dict_get d k = None -> dict_del d k = inl (KeyError k)) /\
  (forall d', dict_del d k = inr d' ->
     dict_get d' k = None /\
     forall k', k' <> k -> dict_get d' k' = dict_get d k').
Proof.
  split; [|split; [|split]].
  - induction d as [|[k0 v0] d IH]; simpl.
    + rewrite String.eqb_refl. reflexivity.
    + destruct (String.eqb k0 k) eqn:E; simpl; rewrite E; auto.
  - intros k' Hk. induction d as [|[k0 v0] d IH]; simpl.
    + destruct (String.eqb k k') eqn:E; [|reflexivity].
      apply String.eqb_eq in E. congruence.
    + destruct (String.eqb k0 k) eqn:E; simpl.
      * apply String.eqb_eq in E. subst k0.
        destruct (String.eqb k k') eqn:E'; [|reflexivity].
        apply String.eqb_eq in E'. congruence.
      * rewrite IH. reflexivity.
  - unfold dict_del. intros ->. reflexivity.
  - unfold dict_del. intros d' H.
    destruct (dict_get d k) as [x|]; [|discriminate].
    injection H as <-. split.
    + induction d as [|[k0 v0] d IH]; simpl; [reflexivity|].
      destruct (String.eqb k0 k) eqn:E; simpl; [exact IH|].
      rewrite E. exact IH.
    + intros k' Hk. induction d as [|[k0 v0] d IH]; simpl; [reflexivity|].
      destruct (String.eqb k0 k) eqn:E; simpl.
      * apply String.eqb_eq in E. subst k0.
        destruct (String.eqb k k') eqn:E'; [|exact IH].
        apply String.eqb_eq in E'. congruence.
      * rewrite IH. reflexivity.
Qed.

(** X17.  The column of line 261 has as many cells as [RIAGENDR]; a
    string in it is ["Male"], ["Female"] or a string that [RIAGENDR]
    already held; a number in it is a number of [RIAGENDR] that is
    neither 1 nor 2.  No code 1 or 2 is left. *)
Theorem gender_labels_replace_the_codes (gender : Column) :
  List.length (gender_labels gender) = List.length gender /\
  forall c, In c (gender_labels gender) ->
    match c with
    | CStr s => s = "Male"%string \/ s = "Female"%string \/ In (CStr s) gender
    | CNum x =>
        In (CNum x) gender /\
        F64.eqb x (F64.of_Z 1) = false /\ F64.eqb x (F64.of_Z 2) = false
    end.
Proof.
  unfold gender_labels, series_replace. split; [apply length_map|].
  intros c Hc. apply in_map_iff in Hc. destruct Hc as (c0 & <- & Hc0).
  destruct c0 as [x|s]; cbn [replace_cell]; [|right; right; exact Hc0].
  destruct (F64.eqb x (F64.of_Z 1)) eqn:E1; [left; reflexivity|].
  destruct (F64.eqb x (F64.of_Z 2)) eqn:E2; [right; left; reflexivity|].
  repeat split; assumption.
Qed.

(* ================================================================== *)
(** * Dropping the incomplete rows *)
(* ================================================================== *)

Lemma length_keep_rows (A : Type) (g : nat -> bool) (l : list nat) (col : list A) :
  List.length l <= List.length col ->
  List.length (keep_rows (map g l) col) = List.length (filter g l).
Proof.
  revert col. induction l as [|i l IH]; intros col H; simpl; [reflexivity|].
  destruct col as [|x col]; simpl in H; [lia|].
  destruct (g i); simpl; rewrite IH; auto; lia.
Qed.

Lemma keep_rows_all (A : Type) (mask : list bool) (col : list A) :
  Forall (fun b => b = true) mask -> List.length mask = List.length col ->
  keep_rows mask col = col.
Proof.
  intros H. revert col. induction H as [|b mask Hb _ IH]; intros [|x col] Hl;
    simpl in *; try discriminate; try reflexivity.
  subst b. rewrite IH; auto.
Qed.

Lemma rectangular_length (f : Frame) (n : string) (col : Column) :
  rectangular f = true -> In (n, col) f -> List.length col = nrows f.
Proof.
  unfold rectangular. rewrite forallb_forall. intros H Hin.
  specialize (H (n, col) Hin). simpl in H. apply Nat.eqb_eq in H. exact H.
Qed.

Lemma dropna_lengths (f : Frame) (n : string) (col : Column) :
  rectangular f = true -> In (n, col) (dropna f) ->
  List.length col = complete_row_count f.
Proof.
  intros Hr Hin. unfold dropna in Hin. apply in_map_iff in Hin.
  destruct Hin as ([n0 c0] & E & Hin). simpl in E. injection E as _ <-.
  unfold complete_row_count. apply length_keep_rows.
  rewrite length_seq, (@rectangular_length _ _ _ Hr Hin). lia.
Qed.

Lemma dropna_rectangular (f : Frame) :
  rectangular f = true -> rectangular (dropna f) = true.
Proof.
  intros Hr. unfold rectangular. apply forallb_forall. intros [n col] Hin.
  simpl. apply Nat.eqb_eq.
  rewrite (@dropna_lengths _ _ _ Hr Hin).
  destruct f as [|[n0 c0] f]; [contradiction|].
  symmetry. apply (@dropna_lengths _ n0 _ Hr). unfold dropna. simpl. left. reflexivity.
Qed.

(** X4.  On a table whose columns have one length, [dropna] keeps the
    labels and their order, and leaves every column with one length
    again: the number of rows that have no missing cell. *)
Theorem dropna_keeps_the_complete_rows (f : Frame) :
  rectangular f = true ->
  columns (dropna f) = columns f /\
  rectangular (dropna f) = true /\
  forall n col, In (n, col) (dropna f) ->
    List.length col = complete_row_count f.
Proof.
  intros Hr. split; [|split].
  - unfold columns, dropna. rewrite map_map. reflexivity.
  - apply dropna_rectangular. exact Hr.
  - intros n col. apply dropna_lengths. exact Hr.
Qed.

Lemma dropna_keeps_the_complete_rows_witness :
  rectangular (survey sample_ages) = true /\
  complete_row_count (survey sample_ages) = 12 /\
  columns (dropna (survey sample_ages)) = columns (survey sample_ages) /\
  forall n col, In (n, col) (dropna (survey sample_ages)) -> List.length col = 12.
Proof.
  assert (H : rectangular (survey sample_ages) = true) by (vm_compute; reflexivity).
  assert (Hc : complete_row_count (survey sample_ages) = 12) by (vm_compute; reflexivity).
  destruct (@dropna_keeps_the_complete_rows _ H) as (H1 & _ & H3).
  split; [exact H|]. split; [exact Hc|]. split; [exact H1|].
  intros n col Hin. rewrite <- Hc. exact (H3 n col Hin).
Defined.

Lemma dropna_nothing_missing (f : Frame) :
  rectangular f = true ->
  forallb (fun nc : string * Column => no_missing (snd nc)) f = true ->
  dropna f = f.
Proof.
  intros Hr Hc. rewrite forallb_forall in Hc. unfold dropna.
  transitivity (map (fun nc : string * Column => nc) f); [|apply map_id].
  apply map_ext_in. intros [n col] Hin. simpl.
  apply (f_equal (pair n)). apply keep_rows_all.
  - apply Forall_map. apply Forall_forall. intros i Hi.
    apply in_seq in Hi. unfold row_complete. apply forallb_forall.
    intros [n' c'] Hin'. simpl.
    pose proof (@rectangular_length _ _ _ Hr Hin') as Hl.
    destruct (nth_error c' i) as [x|] eqn:E.
    + specialize (Hc (n', c') Hin'). simpl in Hc. unfold no_missing in Hc.
      rewrite forallb_forall in Hc. apply Hc. eapply nth_error_In. exact E.
    + apply nth_error_None in E. lia.
  - rewrite length_map, length_seq. symmetry.
    apply (@rectangular_length _ _ _ Hr Hin).
Qed.

(** X5.  On a table whose columns have one length: when no cell is
    missing [dropna] returns the table as it is; and in any case
    dropping the incomplete rows a second time changes nothing. *)
Theorem dropna_is_idempotent (f : Frame) :
  rectangular f = true ->
  (forallb (fun nc : string * Column => no_missing (snd nc)) f = true ->
   dropna f = f) /\
  dropna (dropna f) = dropna f.
Proof.
  intros Hr. split; [apply dropna_nothing_missing; exact Hr|].
  apply dropna_nothing_missing; [apply dropna_rectangular; exact Hr|].
  apply forallb_forall. intros [n col] Hin. simpl.
  apply (@dropna_complete _ _ _ Hin).
Qed.

Lemma dropna_is_idempotent_witness :
  rectangular (survey sample_ages) = true /\
  dropna (dropna (survey sample_ages)) = dropna (survey sample_ages) /\
  dropna (survey sample_ages) <> survey sample_ages.
Proof.
  assert (H : rectangular (survey sample_ages) = true) by (vm_compute; reflexivity).
  split; [exact H|]. split; [exact (proj2 (@dropna_is_idempotent _ H))|].
  intros E. apply (f_equal nrows) in E. vm_compute in E. discriminate.
Defined.

(** Whatever the lengths of the columns read, the columns that
    [dropna] returns have one length: a row is kept only if every
    column has a cell there. *)
Lemma length_keep_rows_within (A : Type) (mask : list bool) (col : list A) :
  (forall i, nth_error mask i = Some true -> i < List.length col) ->
  List.length (keep_rows mask col) = List.length (filter (fun b => b) mask).
Proof.
  revert col. induction mask as [|b mask IH]; intros col H; [reflexivity|].
  destruct col as [|x col].
  - destruct b; [specialize (H 0 eq_refl); simpl in H; lia|].
    simpl. rewrite <- (IH []).
    + destruct mask; reflexivity.
    + intros i Hi. specialize (H (S i) Hi). simpl in H. lia.
  - assert (Hm : forall i, nth_error mask i = Some true -> i < List.length col).
    { intros i Hi. specialize (H (S i) Hi). simpl in H. lia. }
    destruct b; simpl; rewrite (IH col Hm); reflexivity.
Qed.

Lemma length_filter_map (A : Type) (g : A -> bool) (l : list A) :
  List.length (filter (fun b => b) (map g l)) = List.length (filter g l).
Proof.
  induction l as [|x l IH]; simpl; [reflexivity|].
  destruct (g x); simpl; rewrite IH; reflexivity.
Qed.

Lemma dropna_rows (f : Frame) (n : string) (col : Column) :
  In (n, col) (dropna f) -> List.length col = complete_row_count f.
Proof.
  intros Hin. unfold dropna in Hin. apply in_map_iff in Hin.
  destruct Hin as ([n0 c0] & E & Hin). simpl in E. injection E as _ <-.
  unfold complete_row_count. rewrite <- length_filter_map.
  apply length_keep_rows_within. intros i Hi.
  apply nth_error_map_seq in Hi. simpl in Hi. symmetry in Hi.
  unfold row_complete in Hi. rewrite forallb_forall in Hi.
  specialize (Hi (n0, c0) Hin). simpl in Hi.
  destruct (nth_error c0 i) eqn:E; [|discriminate].
  apply nth_error_Some. rewrite E. discriminate.
Qed.

(** The frame after line 112 has one number of rows. *)
Lemma nhanes_rows (f : Frame) (sbp age gender eth edu bmi smoke : Column) :
  dropna f = measurements sbp age gender eth edu bmi smoke ->
  List.length age = List.length sbp /\ List.length gender = List.length sbp.
Proof.
  intros D.
  assert (H : forall n col, In (n, col) (measurements sbp age gender eth edu bmi smoke) ->
                            List.length col = complete_row_count f)
    by (intros n col; rewrite <- D; apply dropna_rows).
  rewrite (H "BPXSY1"%string sbp), (H "RIDAGEYR"%string age),
          (H "RIAGENDR"%string gender); simpl; auto.
Qed.

(* ================================================================== *)
(** * The standard deviation as a divisor *)
(* ================================================================== *)

(** X15.  When the standard deviation of the ages is zero or is not a
    number (all ages equal, or fewer than two rows), line 612 yields no
    finite value at all: every standardised age is NaN or infinite. *)
Theorem standardized_without_spread (xs : list F64.float) :
  (F64.is_nan (series_std binary64 xs)
   || F64.eqb (series_std binary64 xs) F64.zero)%bool = true ->
  Forall (fun z => F64.is_finite z = false) (standardized binary64 xs).
Proof.
  intros H. unfold standardized.
  set (s := series_std binary64 xs) in *. set (m := series_mean binary64 xs).
  apply Forall_map. apply Forall_forall. intros x _. simpl.
  destruct s as [ss|ss| |ss ms es]; simpl in H.
  - unfold F64.div, SFdiv. destruct (F64.sub x m); reflexivity.
  - destruct ss; discriminate.
  - unfold F64.div, SFdiv. destruct (F64.sub x m); reflexivity.
  - destruct ss; discriminate.
Qed.

Lemma standardized_without_spread_witness :
  series_std binary64 (map F64.of_Z [30; 30; 30]%Z) = F64.zero /\
  Forall (fun z => F64.is_finite z = false)
         (standardized binary64 (map F64.of_Z [30; 30; 30]%Z)).
Proof.
  split; [vm_compute; reflexivity|].
  apply standardized_without_spread. vm_compute. reflexivity.
Defined.

Lemma round_positive_not_negative (mz ez : Z) (lz : location) :
  F64.ltb (binary_round_aux F64.prec F64.emax false mz ez lz) F64.zero = false.
Proof.
  unfold binary_round_aux.
  destruct (shr_fexp F64.prec F64.emax mz ez lz) as [mrs' e'].
  destruct (shr_fexp F64.prec F64.emax _ e' loc_Exact) as [mrs'' e''].
  destruct (shr_m mrs''); try reflexivity.
  destruct (Z.leb e'' (F64.emax - F64.prec)); reflexivity.
Qed.

(** X16.  The standard deviation that pandas returns is never below
    zero, whatever the column: it is NaN, a zero, or positive. *)
Theorem std_is_never_negative (xs : list F64.float) :
  F64.ltb (series_std binary64 xs) F64.zero = false.
Proof.
  unfold series_std.
  match goal with |- context [if ?b then _ else _] => destruct b end;
    [reflexivity|].
  cbn [a_sqrt binary64]. generalize (series_var binary64 xs). intros v.
  unfold F64.sqrt, SFsqrt. destruct v as [s|s| |s m e]; try reflexivity.
  - destruct s; reflexivity.
  - destruct s; [reflexivity|].
    destruct (SFsqrt_core_binary F64.prec F64.emax (Z.pos m) e) as [[mz ez] lz].
    apply round_positive_not_negative.
Qed.

(* ================================================================== *)
(** * Rules of the judgment [fails_with] *)
(* ================================================================== *)

Section FailureRules.
Variable V : Type.
Variable lib : Library V.
Variable R : exn -> Prop.

Lemma fw_ret (A : Type) (a : A) (Q : A -> Prop) :
  Q a -> fails_with (V := V) R (ret a) Q.
Proof. intros H s. exact H. Qed.

Lemma fw_raise (A : Type) (e : exn) (Q : A -> Prop) :
  R e -> fails_with (V := V) R (raise (A := A) e) Q.
Proof. intros H s. simpl. split; [exact H | eauto]. Qed.

Lemma fw_lift (A : Type) (r : result A) (Q : A -> Prop) :
  (forall e, r = inl e -> R e) -> (forall a, r = inr a -> Q a) ->
  fails_with (V := V) R (lift r) Q.
Proof.
  intros He Ha. destruct r as [e|a]; simpl.
  - apply fw_raise. auto.
  - apply fw_ret. auto.
Qed.

Lemma fw_emit (ev : event V) (Q : unit -> Prop) :
  Q tt -> fails_with R (emit ev) Q.
Proof. intros H s. exact H. Qed.

Lemma fw_bind (A B : Type) (m : M V A) (k : A -> M V B)
  (Q1 : A -> Prop) (Q : B -> Prop) :
  fails_with R m Q1 -> (forall a, Q1 a -> fails_with R (k a) Q) ->
  fails_with R (bind m k) Q.
Proof.
  intros Hm Hk s. unfold bind. specialize (Hm s).
  destruct (m s) as [[a|e] s1]; [apply Hk; exact Hm | exact Hm].
Qed.

Lemma fw_call (fn : string) (args : list (value V)) (kwargs : dict V)
  (Q : value V -> Prop) :
  (forall e, lib fn args kwargs = inl e -> R e) ->
  (forall v, lib fn args kwargs = inr v -> Q v) ->
  fails_with R (call lib fn args kwargs) Q.
Proof.
  intros He Hv. unfold call.
  apply fw_bind with (Q1 := fun _ => True); [apply fw_emit; exact I|].
  intros _ _. destruct (lib fn args kwargs) as [e|v].
  - apply fw_raise. auto.
  - apply fw_bind with (Q1 := fun _ => True); [apply fw_emit; exact I|].
    intros _ _. apply fw_ret. auto.
Qed.

Lemma fw_bind_ret (A B : Type) (a : A) (k : A -> M V B) (Q : B -> Prop) :
  fails_with R (k a) Q -> fails_with R (bind (ret a) k) Q.
Proof.
  intros H. apply fw_bind with (Q1 := fun x => x = a).
  - apply fw_ret. reflexivity.
  - intros x ->. exact H.
Qed.

Lemma fw_bind_lift (A B : Type) (r : result A) (k : A -> M V B)
  (Q : B -> Prop) :
  (forall e, r = inl e -> R e) ->
  (forall a, r = inr a -> fails_with R (k a) Q) ->
  fails_with R (bind (lift r) k) Q.
Proof.
  intros He H. apply fw_bind with (Q1 := fun a => r = inr a).
  - apply fw_lift; auto.
  - exact H.
Qed.

Lemma fw_bind_call (B : Type) (fn : string) (args : list (value V))
  (kwargs : dict V) (k : value V -> M V B) (Q : B -> Prop) :
  (forall e, lib fn args kwargs = inl e -> R e) ->
  (forall v, lib fn args kwargs = inr v -> fails_with R (k v) Q) ->
  fails_with R (bind (call lib fn args kwargs) k) Q.
Proof.
  intros He H. apply fw_bind with (Q1 := fun v => lib fn args kwargs = inr v).
  - apply fw_call; auto.
  - exact H.
Qed.

Lemma fw_bind_print (B : Type) (v : value V) (k : unit -> M V B)
  (Q : B -> Prop) :
  fails_with R (k tt) Q -> fails_with R (bind (print v) k) Q.
Proof.
  intros H. apply fw_bind with (Q1 := fun _ => True).
  - apply fw_emit. exact I.
  - intros [] _. exact H.
Qed.

Lemma fw_bind_unit (A B : Type) (m : M V A) (k : A -> M V B)
  (Q : B -> Prop) :
  fails_with R m (fun _ => True) ->
  (forall a, fails_with R (k a) Q) ->
  fails_with R (bind m k) Q.
Proof.
  intros Hm H. apply fw_bind with (Q1 := fun _ => True); auto.
Qed.

End FailureRules.

Create HintDb failures.

(** One statement of a [fails_with] goal.  [cause] proves that an
    exception of a pandas operation has one of the causes allowed. *)
Ltac fw_library :=
  let e := fresh "e" in
  let H := fresh "H" in
  intros e H; left; do 3 eexists; exact H.

Ltac fw_step cause :=
  lazymatch goal with
  | |- fails_with _ (bind (ret _) _) _ => apply fw_bind_ret
  | |- fails_with _ (bind (lift _) _) _ =>
      apply fw_bind_lift;
      [ cause
      | let a := fresh "a" in
        let H := fresh "H" in
        intros a H;
        try (progress cbn in H;
             first [discriminate H | injection H as H; subst a]);
        try (apply setitem_inr in H; subst a) ]
  | |- fails_with _ (bind (call _ _ _ _) _) _ =>
      apply fw_bind_call; [fw_library | intros ? ?]
  | |- fails_with _ (bind (print _) _) _ => apply fw_bind_print
  | |- fails_with _ (bind _ _) _ =>
      apply fw_bind_unit; [solve [auto with failures] | intros ?]
  | |- fails_with _ (ret _) _ => apply fw_ret
  | |- fails_with _ (print _) _ => apply fw_emit
  | |- fails_with _ (call _ _ _ _) _ =>
      apply fw_call; [fw_library | intros ? ?]
  | |- fails_with _ (match ?x with _ => _ end) _ => destruct x
  | |- fails_with _ _ _ => solve [auto with failures]
  end.

Ltac fw_run cause :=
  unfold getattr, getitem, pow, method; repeat fw_step cause;
  try exact I; try reflexivity.

(* ================================================================== *)
(** * Why a run fails *)
(* ================================================================== *)

Section AnalysisFailures.
Variable V : Type.
Variable lib : Library V.
Variables sbp age gender eth edu bmi smoke : Column.

(** The columns come out of [dropna]: they have one length. *)
Hypothesis rows_age : List.length age = List.length sbp.
Hypothesis rows_gender : List.length gender = List.length sbp.

Local Abbreviation base := (measurements sbp age gender eth edu bmi smoke).
Local Abbreviation with_gender :=
  (base ++ [("RIAGENDRx"%string, gender_labels gender)]).
Local Abbreviation R := (analysis_failure lib age sbp).

(** The assigned column has as many values as the frame has rows. *)
Ltac rows_ok :=
  cbn [nrows measurements app];
  unfold gender_labels, series_replace, of_numeric, standardized, centered;
  rewrite ?length_map;
  first
    [ exact rows_gender
    | match goal with
      | H : to_numeric age = inr ?xs |- _ =>
          exact (eq_trans (to_numeric_length _ H) rows_age)
      end ].

Ltac cause :=
  idtac;
  let e := fresh "e" in
  let H := fresh "H" in
  intros e H;
  first
    [ solve [cbn in H; discriminate H]
    | solve [exfalso; apply (setitem_inl _ _ _ H); rows_ok]
    | solve [right; left; exact H]
    | solve [right; right; left; exact H]
    | solve [right; right; right; do 3 eexists; split; eassumption] ].

Lemma basic_model_failures :
  fails_with R (basic_model lib base) (fun _ => True).
Proof. unfold basic_model. fw_run cause. Qed.

Lemma second_variable_failures :
  fails_with R (second_variable lib base) (fun da => da = with_gender).
Proof. unfold second_variable. fw_run cause. Qed.

Lemma three_variables_failures :
  fails_with R (three_variables lib with_gender) (fun _ => True).
Proof. unfold three_variables. fw_run cause. Qed.

Lemma plot_fitted_failures (r : value V) (focus : string) (values : dict V)
  (xlabel : string) :
  fails_with R (plot_fitted lib r focus values xlabel) (fun _ => True).
Proof. unfold plot_fitted. fw_run cause. Qed.

Hint Resolve plot_fitted_failures : failures.

Lemma visualization_failures (r : value V) :
  fails_with R (visualization lib r) (fun _ => True).
Proof. unfold visualization. fw_run cause. Qed.

Lemma ccpr_plot_failures (r : value V) (focus : string) :
  fails_with R (ccpr_plot lib r focus) (fun _ => True).
Proof. unfold ccpr_plot. fw_run cause. Qed.

Hint Resolve ccpr_plot_failures : failures.

Lemma variance_structure_failures (r : value V) :
  fails_with R (variance_structure lib r) (fun _ => True).
Proof. unfold variance_structure. fw_run cause. Qed.

Lemma added_variable_plot_failures (focus : string) :
  fails_with R (added_variable_plot lib with_gender focus) (fun _ => True).
Proof. unfold added_variable_plot. fw_run cause. Qed.

Hint Resolve added_variable_plot_failures : failures.

Lemma assessing_curvature_failures :
  fails_with R (assessing_curvature lib with_gender) (fun _ => True).
Proof. unfold assessing_curvature. fw_run cause. Qed.

Lemma splines_failures :
  fails_with R (splines lib with_gender) (fun r => fst r = with_gender).
Proof. unfold splines. fw_run cause. Qed.

Lemma interactions_failures (values : dict V) :
  fails_with R (interactions lib with_gender values) (fun _ => True).
Proof. unfold interactions. fw_run cause. Qed.

Lemma analysis_failures :
  fails_with R (analysis lib base) (fun _ => True).
Proof.
  unfold analysis.
  apply fw_bind_unit; [apply basic_model_failures | intros _].
  eapply fw_bind; [apply second_variable_failures | intros da ->].
  apply fw_bind_unit; [apply three_variables_failures | intros r].
  apply fw_bind_unit; [apply visualization_failures | intros _].
  apply fw_bind_unit; [apply variance_structure_failures | intros _].
  apply fw_bind_unit; [apply assessing_curvature_failures | intros _].
  eapply fw_bind; [apply splines_failures | intros [da values] E].
  simpl in E. subst da. apply interactions_failures.
Qed.

End AnalysisFailures.

Lemma getitem_list_error (f : Frame) (names : list string) (e : exn) :
  getitem_list f names = inl e ->
  exists c, In c names /\ frame_get f c = None /\ e = KeyError c.
Proof.
  induction names as [|n rest IH]; simpl; [discriminate|].
  destruct (frame_get f n) as [col|] eqn:E.
  - destruct (getitem_list f rest) as [e'|g]; [|discriminate].
    intros [= <-]. destruct (IH eq_refl) as (c & Hc & Hf & He). eauto.
  - intros [= <-]. eauto.
Qed.

Lemma getitem_list_present (f sel : Frame) (names : list string) (c : string) :
  getitem_list f names = inr sel -> In c names -> frame_get f c <> None.
Proof.
  revert sel. induction names as [|n rest IH]; intros sel H Hc; simpl in *;
    [contradiction|].
  destruct (frame_get f n) as [col|] eqn:E; [|discriminate].
  destruct (getitem_list f rest) as [e'|g]; [discriminate|].
  destruct Hc as [<-|Hc]; [rewrite E; discriminate | eapply IH; eauto].
Qed.

(** A run that raises: the exception is the last event of its trace,
    and it comes from the download, from the selection of the seven
    columns, or from the statements after them. *)
Lemma run_failure (V : Type) (lib : Library V) (w : World) (e : exn) :
  outcome lib w = Raised e ->
  (exists before, trace lib w = before ++ [EvRaise e]) /\
  ((network w url = None /\ e = URLError url /\
    trace lib w = [EvRead url; EvRaise e]) \/
   (exists csv, network w url = Some csv /\ getitem_list csv vars = inl e /\
    trace lib w = [EvRead url; EvRaise e]) \/
   (exists csv sel sbp age gender eth edu bmi smoke,
      network w url = Some csv /\ getitem_list csv vars = inr sel /\
      dropna sel = measurements sbp age gender eth edu bmi smoke /\
      analysis_failure lib age sbp e)).
Proof.
  unfold trace, outcome, run, main, bind. rewrite nhanes_run. cbn [world log].
  destruct (network w url) as [csv|].
  - destruct (getitem_list csv vars) as [e0|sel] eqn:E; cbn [fst snd log].
    + intros [= <-]. split; [exists [EvRead url]; reflexivity|].
      right. left. exists csv. auto.
    + destruct (nhanes_frame _ E)
        as (sbp & age & gender & eth & edu & bmi & smoke & D & _).
      rewrite D.
      destruct (nhanes_rows _ D) as [Hage Hgender].
      pose proof (@analysis_failures V lib sbp age gender eth edu bmi smoke
                    Hage Hgender {| world := w; log := [EvRead url] |}) as F.
      destruct (analysis lib (measurements sbp age gender eth edu bmi smoke)
                  {| world := w; log := [EvRead url] |}) as [[da|e'] s'];
        cbn [fst snd]; [discriminate|].
      intros [= <-]. destruct F as [HR [rest Hl]]. split.
      * exists (rev rest). rewrite Hl. reflexivity.
      * right. right.
        exists csv, sel, sbp, age, gender, eth, edu, bmi, smoke. auto.
  - cbn [fst snd log]. intros [= <-].
    split; [exists [EvRead url]; reflexivity|]. left. auto.
Qed.

(** X2.  When the table cannot be downloaded, or lacks one of the seven
    columns, the run ends at once: its trace is the download followed
    by the exception ([URLError], or [KeyError] with the label of an
    absent column), and no library is called. *)
Theorem data_not_loaded_stops_the_run (V : Type) (lib : Library V) (w : World) :
  network w url = None \/
  (exists csv c, network w url = Some csv /\ In c vars /\ frame_get csv c = None) ->
  exists e,
    outcome lib w = Raised e /\
    trace lib w = [EvRead url; EvRaise e] /\
    (e = URLError url \/
     exists csv c, network w url = Some csv /\ In c vars /\
                   frame_get csv c = None /\ e = KeyError c).
Proof.
  intros H.
  assert (Hr : exists e, outcome lib w = Raised e /\
                 (e = URLError url /\ network w url = None \/
                  exists csv, network w url = Some csv /\
                              getitem_list csv vars = inl e)).
  { unfold outcome, run, main, bind. rewrite nhanes_run. cbn [world log].
    destruct H as [H | (csv & c & Hn & Hc & Hf)].
    - rewrite H. eexists. split; [reflexivity | left; auto].
    - rewrite Hn. destruct (getitem_list csv vars) as [e|sel] eqn:E.
      + eexists. split; [reflexivity | right; eauto].
      + exfalso. exact (@getitem_list_present _ _ _ _ E Hc Hf). }
  destruct Hr as (e & Ho & Hcause). exists e. split; [exact Ho|].
  destruct (@run_failure _ _ _ _ Ho) as [_ [(Hn & He & Ht) | [(csv & Hn & Hg & Ht) | F]]].
  - split; [exact Ht | left; exact He].
  - split; [exact Ht|]. right.
    destruct (@getitem_list_error _ _ _ Hg) as (c & Hc & Hf & He). eauto 10.
  - exfalso.
    destruct F as (csv & sel & ? & ? & ? & ? & ? & ? & ? & Hn & Hg & _).
    destruct Hcause as [[_ Hn'] | (csv' & Hn' & Hg')]; rewrite Hn in Hn'.
    + discriminate.
    + injection Hn' as <-. rewrite Hg in Hg'. discriminate.
Qed.

Lemma data_not_loaded_stops_the_run_witness :
  (exists csv c, network no_bmi url = Some csv /\ In c vars /\
                 frame_get csv c = None) /\
  exists e,
    outcome quiet_library no_bmi = Raised e /\
    trace quiet_library no_bmi = [EvRead url; EvRaise e].
Proof.
  assert (H : exists csv c, network no_bmi url = Some csv /\ In c vars /\
                            frame_get csv c = None).
  { exists (frame_remove (survey sample_ages) "BMXBMI"), "BMXBMI"%string.
    split; [reflexivity|]. split; [simpl; tauto | reflexivity]. }
  split; [exact H|].
  destruct (@data_not_loaded_stops_the_run _ quiet_library _ (or_intror H))
    as (e & Ho & Ht & _).
  exists e. split; assumption.
Defined.

(** X12.  Every failure of a run has one of these causes: the download
    failed; one of the seven columns is absent; a library raised the
    exception; the ages or the blood pressures are not numbers
    ([TypeError]); or [predict_functional] returned something that
    does not unpack into three values.  No lookup of the script in its
    own frame or dictionary fails once the data are loaded. *)
Theorem failures_have_a_cause (V : Type) (lib : Library V) (w : World) (e : exn) :
  outcome lib w = Raised e ->
  (network w url = None /\ e = URLError url) \/
  (exists csv c, network w url = Some csv /\ In c vars /\
                 frame_get csv c = None /\ e = KeyError c) \/
  (exists csv sel age sbp,
     network w url = Some csv /\ getitem_list csv vars = inr sel /\
     frame_get (dropna sel) "RIDAGEYR" = Some age /\
     frame_get (dropna sel) "BPXSY1" = Some sbp /\
     analysis_failure lib age sbp e).
Proof.
  intros Ho.
  destruct (@run_failure _ _ _ _ Ho) as [_ [(Hn & He & _) | [(csv & Hn & Hg & _) | F]]].
  - left. auto.
  - right. left. destruct (@getitem_list_error _ _ _ Hg) as (c & Hc & Hf & He).
    eauto 10.
  - right. right.
    destruct F as (csv & sel & sbp & age & ? & ? & ? & ? & ? & Hn & Hg & D & HR).
    exists csv, sel, age, sbp. rewrite D. auto.
Qed.

Lemma failures_have_a_cause_witness :
  outcome failing_library nhanes_sample = Raised (Exn "PatsyError" "bs") /\
  exists csv sel age sbp,
    network nhanes_sample url = Some csv /\ getitem_list csv vars = inr sel /\
    frame_get (dropna sel) "RIDAGEYR" = Some age /\
    frame_get (dropna sel) "BPXSY1" = Some sbp /\
    analysis_failure failing_library age sbp (Exn "PatsyError" "bs").
Proof.
  assert (H : outcome failing_library nhanes_sample = Raised (Exn "PatsyError" "bs"))
    by (vm_compute; reflexivity).
  split; [exact H|].
  destruct (@failures_have_a_cause _ failing_library nhanes_sample _ H)
    as [[Hn _] | [(csv & c & Hn & Hc & Hf & _) | F]].
  - vm_compute in Hn. discriminate.
  - exfalso. change (Some (survey sample_ages) = Some csv) in Hn.
    injection Hn as <-. simpl in Hc.
    repeat (destruct Hc as [<-|Hc]; [vm_compute in Hf; discriminate|]).
    contradiction.
  - exact F.
Defined.

(** X14.  Nothing follows an exception: when a run raises, the
    exception is the last event of its trace; no call, print or fit
    comes after it. *)
Theorem nothing_follows_an_exception (V : Type) (lib : Library V) (w : World)
  (e : exn) :
  outcome lib w = Raised e -> exists before, trace lib w = before ++ [EvRaise e].
Proof. intros Ho. exact (proj1 (@run_failure _ _ _ _ Ho)). Qed.

Lemma nothing_follows_an_exception_witness :
  outcome failing_library nhanes_sample = Raised (Exn "PatsyError" "bs") /\
  exists before,
    trace failing_library nhanes_sample = before ++ [EvRaise (Exn "PatsyError" "bs")].
Proof.
  assert (H : outcome failing_library nhanes_sample = Raised (Exn "PatsyError" "bs"))
    by (vm_compute; reflexivity).
  split; [exact H | exact (@nothing_follows_an_exception _ failing_library _ _ H)].
Defined.

(** X13.  The script has no failure of its own on well-formed data:
    when the table is served and has the seven columns, the ages and
    the blood pressures are numbers, no library call raises and
    [predict_functional] returns triples, the run completes. *)
Theorem well_behaved_libraries_complete (V : Type) (lib : Library V) (w : World)
  (csv sel : Frame) (ages pressures : list F64.float) :
  network w url = Some csv ->
  getitem_list csv vars = inr sel ->
  numbers (dropna sel) "RIDAGEYR" = Some ages ->
  numbers (dropna sel) "BPXSY1" = Some pressures ->
  (forall fn args kwargs, exists v, lib fn args kwargs = inr v) ->
  (forall args kwargs v,
     lib "predict_functional"%string args kwargs = inr v ->
     exists a b c, v = VTuple [a; b; c]) ->
  completes (outcome lib w) = true.
Proof.
  intros Hn Hg Ha Hp Hlib Hpred.
  destruct (outcome lib w) as [da|e] eqn:Ho; [reflexivity|].
  exfalso.
  destruct (@run_failure _ _ _ _ Ho) as [_ [(Hn' & _) | [(csv' & Hn' & Hg' & _) | F]]].
  - rewrite Hn in Hn'. discriminate.
  - rewrite Hn in Hn'. injection Hn' as <-. rewrite Hg in Hg'. discriminate.
  - destruct F as (csv' & sel' & sbp & age & ? & ? & ? & ? & ? & Hn' & Hg' & D & HR).
    rewrite Hn in Hn'. injection Hn' as <-.
    rewrite Hg in Hg'. injection Hg' as <-.
    rewrite D in Ha, Hp. unfold numbers in Ha, Hp. cbn in Ha, Hp.
    destruct HR as [(fn & args & kw & Hl) | [Hl | [Hl | (args & kw & v & Hl & Hu)]]].
    + destruct (Hlib fn args kw) as [v Hv]. rewrite Hv in Hl. discriminate.
    + rewrite Hl in Ha. discriminate.
    + rewrite Hl in Hp. discriminate.
    + destruct (Hpred _ _ _ Hl) as (a & b & c & ->). discriminate.
Qed.

Lemma well_behaved_libraries_complete_witness :
  completes (outcome quiet_library nhanes_sample) = true.
Proof.
  eapply (@well_behaved_libraries_complete nat quiet_library nhanes_sample
            (survey sample_ages)).
  - reflexivity.
  - vm_compute. reflexivity.
  - vm_compute. reflexivity.
  - vm_compute. reflexivity.
  - intros fn args kwargs. unfold quiet_library.
    destruct (String.eqb fn "predict_functional"); eauto.
  - intros args kwargs v. unfold quiet_library. simpl. intros [= <-]. eauto.
Defined.

(* ================================================================== *)
(** * Formulas, frames and fixed values agree *)
(* ================================================================== *)

Section AnalysisCalls.
Variable V : Type.
Variable lib : Library V.
Variable w : World.
Variables sbp age gender eth edu bmi smoke : Column.

Local Abbreviation base := (measurements sbp age gender eth edu bmi smoke).
Local Abbreviation with_gender :=
  (base ++ [("RIAGENDRx"%string, gender_labels gender)]).
Local Abbreviation P := (@consistent_call V).

Ltac call_ok :=
  solve [split; vm_compute; first [reflexivity | exact I]].

Lemma basic_model_calls :
  sound w P (basic_model lib base) (fun _ => True).
Proof. unfold basic_model. sound_run call_ok. Qed.

Lemma second_variable_calls :
  sound w P (second_variable lib base) (fun da => da = with_gender).
Proof. unfold second_variable. sound_run call_ok. Qed.

Lemma three_variables_calls :
  sound w P (three_variables lib with_gender) (fun _ => True).
Proof. unfold three_variables. sound_run call_ok. Qed.

Lemma plot_fitted_calls (r : value V) (focus : string) (values : dict V)
  (xlabel : string) :
  dict_get values focus = None ->
  sound w P (plot_fitted lib r focus values xlabel) (fun _ => True).
Proof.
  intros Hfocus. unfold plot_fitted.
  sound_run ltac:(first [call_ok | solve [split; [exact I | exact Hfocus]]]).
Qed.

Lemma visualization_calls (r : value V) :
  sound w P (visualization lib r) (fun _ => True).
Proof.
  unfold visualization. apply sound_bind_ret.
  apply sound_bind_unit; [apply plot_fitted_calls; reflexivity | intros _].
  apply sound_bind_lift; [passive | intros values H].
  cbn in H. injection H as <-. apply sound_bind_ret.
  apply plot_fitted_calls. reflexivity.
Qed.

Lemma ccpr_plot_calls (r : value V) (focus : string) :
  sound w P (ccpr_plot lib r focus) (fun _ => True).
Proof. unfold ccpr_plot. sound_run call_ok. Qed.

Hint Resolve ccpr_plot_calls : sound.

Lemma variance_structure_calls (r : value V) :
  sound w P (variance_structure lib r) (fun _ => True).
Proof. unfold variance_structure. sound_run call_ok. Qed.

Lemma added_variable_plot_calls (focus : string) :
  sound w P (added_variable_plot lib with_gender focus) (fun _ => True).
Proof. unfold added_variable_plot. sound_run call_ok. Qed.

Hint Resolve added_variable_plot_calls : sound.

Lemma assessing_curvature_calls :
  sound w P (assessing_curvature lib with_gender) (fun _ => True).
Proof. unfold assessing_curvature. sound_run call_ok. Qed.

Lemma splines_calls :
  sound w P (splines lib with_gender)
        (fun r => r = (with_gender, reference_values V)).
Proof.
  unfold splines. sound_run call_ok.
  apply sound_bind_unit; [apply plot_fitted_calls; reflexivity | intros _].
  apply sound_ret. reflexivity.
Qed.

Lemma interactions_calls :
  sound w P (interactions lib with_gender (reference_values V)) (fun _ => True).
Proof. unfold interactions. sound_run call_ok. Qed.

Lemma analysis_calls :
  sound w P (analysis lib base) (fun _ => True).
Proof.
  unfold analysis.
  apply sound_bind_unit; [apply basic_model_calls | intros _].
  eapply sound_bind; [apply second_variable_calls | intros da ->].
  apply sound_bind_unit; [apply three_variables_calls | intros r].
  apply sound_bind_unit; [apply visualization_calls | intros _].
  apply sound_bind_unit; [apply variance_structure_calls | intros _].
  apply sound_bind_unit; [apply assessing_curvature_calls | intros _].
  eapply sound_bind; [apply splines_calls | intros [da values] E].
  injection E as -> ->. apply interactions_calls.
Qed.

End AnalysisCalls.

Lemma run_consistent (V : Type) (lib : Library V) (w : World) :
  Forall (@consistent_call V) (trace lib w).
Proof.
  unfold trace, run, main, bind. rewrite nhanes_run. cbn [world log].
  destruct (network w url) as [csv|];
    [|cbn; repeat constructor].
  destruct (getitem_list csv vars) as [e|sel] eqn:E;
    [cbn; repeat constructor|].
  destruct (nhanes_frame _ E)
    as (sbp & age & gender & eth & edu & bmi & smoke & D & _).
  rewrite D.
  destruct (@analysis_calls V lib w sbp age gender eth edu bmi smoke
              {| world := w; log := [EvRead url] |} eq_refl)
    as (evs & E' & F & _).
  rewrite E'. cbn [log snd]. rewrite rev_app_distr. simpl.
  constructor; [split; exact I|]. apply Forall_rev. exact F.
Qed.

(** X9.  In every run, each name that the formula of a fit looks up in
    its data is a column of the frame given with it at that moment:
    [RIAGENDRx] from line 265 on, [RIDAGEYR_z] at line 613 (before it
    is deleted), [RIDAGEYR_cen] at line 687. *)
Theorem formulas_name_columns_of_their_frame (V : Type) (lib : Library V)
  (w : World) :
  Forall (fun x => names_resolved x = true) (fits (trace lib w)).
Proof.
  pose proof (run_consistent lib w) as H. unfold fits.
  induction H as [|ev evs [H1 _] _ IH]; simpl; [constructor|].
  apply Forall_app. split; [|exact IH].
  destruct (fit_of_event ev); auto.
Qed.

(** X10.  In every call of [predict_functional] the focus variable has
    no entry in the dictionary of fixed values: line 432 removes
    [BMXBMI] before it becomes the focus. *)
Theorem focus_variable_is_not_fixed (V : Type) (lib : Library V) (w : World) :
  Forall (fun p => dict_get (snd p) (fst p) = None) (predictions (trace lib w)).
Proof.
  pose proof (run_consistent lib w) as H. unfold predictions.
  induction H as [|ev evs [_ H2] _ IH]; simpl; [constructor|].
  apply Forall_app. split; [|exact IH].
  destruct (prediction_of_event ev) as [[focus d]|]; auto.
Qed.

(** The five predictions of a complete run, with the keys fixed in
    each. *)
Example predictions_of_the_sample_run :
  map (fun p => (fst p, map fst (snd p)))
      (predictions (trace quiet_library nhanes_sample)) =
  [("RIDAGEYR", ["RIAGENDRx"; "RIAGENDR"; "BMXBMI"; "DMDEDUC2"; "RIDRETH1"; "SMQ020"]);
   ("BMXBMI", ["RIAGENDRx"; "RIAGENDR"; "DMDEDUC2"; "RIDRETH1"; "SMQ020"; "RIDAGEYR"]);
   ("RIDAGEYR", ["RIAGENDRx"; "RIAGENDR"; "BMXBMI"; "DMDEDUC2"; "RIDRETH1"; "SMQ020"]);
   ("RIDAGEYR_cen", ["RIAGENDRx"; "RIAGENDR"; "BMXBMI"; "DMDEDUC2"; "RIDRETH1"; "SMQ020"; "RIDAGEYR"]);
   ("RIDAGEYR_cen", ["RIAGENDRx"; "RIAGENDR"; "BMXBMI"; "DMDEDUC2"; "RIDRETH1"; "SMQ020"; "RIDAGEYR"])]%string.
Proof. vm_compute. reflexivity. Qed.

(* ================================================================== *)
(** * What of the table a run depends on *)
(* ================================================================== *)

Section BlindRules.
Variable V : Type.
Variable lib : Library V.

Lemma blind_ret (A : Type) (a : A) : blind (ret (V := V) a).
Proof. intros s1 s2 H. simpl. auto. Qed.

Lemma blind_emit (ev : event V) : blind (emit ev).
Proof. intros s1 s2 H. simpl. rewrite H. auto. Qed.

Lemma blind_raise (A : Type) (e : exn) : blind (raise (V := V) (A := A) e).
Proof. intros s1 s2 H. simpl. rewrite H. auto. Qed.

Lemma blind_bind (A B : Type) (m : M V A) (k : A -> M V B) :
  blind m -> (forall a, blind (k a)) -> blind (bind m k).
Proof.
  intros Hm Hk s1 s2 H. unfold bind.
  destruct (Hm s1 s2 H) as [Ho Hl].
  destruct (m s1) as [o1 t1], (m s2) as [o2 t2]. simpl in *. subst o2.
  destruct o1 as [a|e]; [apply Hk; exact Hl | simpl; auto].
Qed.

Lemma blind_lift (A : Type) (r : result A) : blind (lift (V := V) r).
Proof. destruct r; simpl; [apply blind_raise | apply blind_ret]. Qed.

Lemma blind_print (v : value V) : blind (print v).
Proof. apply blind_emit. Qed.

Lemma blind_call (fn : string) (args : list (value V)) (kwargs : dict V) :
  blind (call lib fn args kwargs).
Proof.
  unfold call. apply blind_bind; [apply blind_emit|]. intros _.
  destruct (lib fn args kwargs).
  - apply blind_raise.
  - apply blind_bind; [apply blind_emit|]. intros _. apply blind_ret.
Qed.

End BlindRules.

Ltac blind_step :=
  lazymatch goal with
  | |- blind (bind _ _) => apply blind_bind; [ | intros ? ]
  | |- blind (ret _) => apply blind_ret
  | |- blind (lift _) => apply blind_lift
  | |- blind (print _) => apply blind_print
  | |- blind (call _ _ _ _) => apply blind_call
  | |- blind (match ?x with _ => _ end) => destruct x
  end.

(** No statement after the download looks at the world. *)
Lemma analysis_blind (V : Type) (lib : Library V) (da : Frame) :
  blind (analysis lib da).
Proof.
  unfold analysis, basic_model, second_variable,
    three_variables, visualization, variance_structure, assessing_curvature,
    splines, interactions, plot_fitted, ccpr_plot, added_variable_plot,
    getattr, getitem, pow, method.
  repeat blind_step.
Qed.

Lemma getitem_list_ext (f1 f2 : Frame) (names : list string) :
  (forall c, In c names -> frame_get f1 c = frame_get f2 c) ->
  getitem_list f1 names = getitem_list f2 names.
Proof.
  induction names as [|n rest IH]; intros H; simpl; [reflexivity|].
  rewrite (H n) by (simpl; auto). rewrite IH by (intros c Hc; apply H; simpl; auto).
  reflexivity.
Qed.

(** X11.  A run depends on the table only through the seven columns of
    line 111.  Two tables that hold the same cells under these seven
    labels give the same outcome and the same trace, whatever their
    other columns, the order of their columns, and the cells missing
    elsewhere. *)
Theorem only_the_seven_columns_matter (V : Type) (lib : Library V)
  (w1 w2 : World) (csv1 csv2 : Frame) :
  network w1 url = Some csv1 ->
  network w2 url = Some csv2 ->
  (forall c, In c vars -> frame_get csv1 c = frame_get csv2 c) ->
  outcome lib w1 = outcome lib w2 /\ trace lib w1 = trace lib w2.
Proof.
  intros H1 H2 Hc. apply getitem_list_ext in Hc.
  unfold outcome, trace, run, main, bind. rewrite !nhanes_run. cbn [world log].
  rewrite H1, H2, Hc.
  destruct (getitem_list csv2 vars) as [e|sel]; [split; reflexivity|].
  destruct (@analysis_blind V lib (dropna sel)
              {| world := w1; log := [EvRead url] |}
              {| world := w2; log := [EvRead url] |} eq_refl) as [Ho Hl].
  rewrite Hl. split; [exact Ho | reflexivity].
Qed.

Lemma only_the_seven_columns_matter_witness :
  columns survey_rearranged <> columns (survey sample_ages) /\
  outcome quiet_library nhanes_sample = outcome quiet_library nhanes_rearranged /\
  trace quiet_library nhanes_sample = trace quiet_library nhanes_rearranged.
Proof.
  split; [vm_compute; discriminate|].
  apply (@only_the_seven_columns_matter nat quiet_library nhanes_sample
           nhanes_rearranged (survey sample_ages) survey_rearranged).
  - reflexivity.
  - reflexivity.
  - intros c Hc. simpl in Hc.
    repeat (destruct Hc as [<-|Hc]; [vm_compute; reflexivity|]). contradiction.
Defined.

(* ================================================================== *)
(** * One formula, one frame *)
(* ================================================================== *)

Section AnalysisFormulas.
Variable V : Type.
Variable lib : Library V.
Variable w : World.
Variables sbp age gender eth edu bmi smoke : Column.

Local Abbreviation base := (measurements sbp age gender eth edu bmi smoke).
Local Abbreviation with_gender :=
  (base ++ [("RIAGENDRx"%string, gender_labels gender)]).
Local Abbreviation P := (@fitted_consistently V base age gender).

Ltac fitted_ok :=
  first
    [ exact I
    | exact (on_measurements base age gender)
    | exact (@on_gender base age gender _ (or_introl eq_refl))
    | exact (@on_gender base age gender _ (or_intror eq_refl))
    | match goal with
      | H : to_numeric age = inr ?xs |- _ =>
          first [ exact (@on_standardized base age gender _ xs (or_introl eq_refl) H)
                | exact (@on_standardized base age gender _ xs (or_intror eq_refl) H)
                | exact (@on_centered base age gender xs H) ]
      end ].

Lemma basic_model_formulas :
  sound w P (basic_model lib base) (fun _ => True).
Proof. unfold basic_model. sound_run fitted_ok. Qed.

Lemma second_variable_formulas :
  sound w P (second_variable lib base) (fun da => da = with_gender).
Proof. unfold second_variable. sound_run fitted_ok. Qed.

Lemma three_variables_formulas :
  sound w P (three_variables lib with_gender) (fun _ => True).
Proof. unfold three_variables. sound_run fitted_ok. Qed.

Lemma plot_fitted_formulas (r : value V) (focus : string) (values : dict V)
  (xlabel : string) :
  sound w P (plot_fitted lib r focus values xlabel) (fun _ => True).
Proof. unfold plot_fitted. sound_run fitted_ok. Qed.

Hint Resolve plot_fitted_formulas : sound.

Lemma visualization_formulas (r : value V) :
  sound w P (visualization lib r) (fun _ => True).
Proof. unfold visualization. sound_run fitted_ok. Qed.

Lemma ccpr_plot_formulas (r : value V) (focus : string) :
  sound w P (ccpr_plot lib r focus) (fun _ => True).
Proof. unfold ccpr_plot. sound_run fitted_ok. Qed.

Hint Resolve ccpr_plot_formulas : sound.

Lemma variance_structure_formulas (r : value V) :
  sound w P (variance_structure lib r) (fun _ => True).
Proof. unfold variance_structure. sound_run fitted_ok. Qed.

Lemma added_variable_plot_formulas (focus : string) :
  sound w P (added_variable_plot lib with_gender focus) (fun _ => True).
Proof. unfold added_variable_plot. sound_run fitted_ok. Qed.

Hint Resolve added_variable_plot_formulas : sound.

Lemma assessing_curvature_formulas :
  sound w P (assessing_curvature lib with_gender) (fun _ => True).
Proof. unfold assessing_curvature. sound_run fitted_ok. Qed.

Lemma splines_formulas :
  sound w P (splines lib with_gender) (fun r => fst r = with_gender).
Proof. unfold splines. sound_run fitted_ok. Qed.

Lemma interactions_formulas (values : dict V) :
  sound w P (interactions lib with_gender values) (fun _ => True).
Proof. unfold interactions. sound_run fitted_ok. Qed.

Lemma analysis_formulas :
  sound w P (analysis lib base) (fun _ => True).
Proof.
  unfold analysis.
  apply sound_bind_unit; [apply basic_model_formulas | intros _].
  eapply sound_bind; [apply second_variable_formulas | intros da ->].
  apply sound_bind_unit; [apply three_variables_formulas | intros r].
  apply sound_bind_unit; [apply visualization_formulas | intros _].
  apply sound_bind_unit; [apply variance_structure_formulas | intros _].
  apply sound_bind_unit; [apply assessing_curvature_formulas | intros _].
  eapply sound_bind; [apply splines_formulas | intros [da values] E].
  simpl in E. subst da. apply interactions_formulas.
Qed.

End AnalysisFormulas.

Lemma run_formulas (V : Type) (lib : Library V) (w : World) :
  exists base age gender,
    Forall (fun x => fitted_on base age gender (fit_formula x) (fit_data x))
           (fits (trace lib w)).
Proof.
  unfold trace, run, main, bind. rewrite nhanes_run. cbn [world log].
  destruct (network w url) as [csv|];
    [|exists [], [], []; cbn; constructor].
  destruct (getitem_list csv vars) as [e|sel] eqn:E;
    [exists [], [], []; cbn; constructor|].
  destruct (nhanes_frame _ E)
    as (sbp & age & gender & eth & edu & bmi & smoke & D & _).
  rewrite D.
  destruct (@analysis_formulas V lib w sbp age gender eth edu bmi smoke
              {| world := w; log := [EvRead url] |} eq_refl)
    as (evs & E' & F & _).
  exists (measurements sbp age gender eth edu bmi smoke), age, gender.
  rewrite E'. cbn [log snd]. rewrite rev_app_distr. simpl.
  apply Forall_rev in F. revert F. generalize (rev evs). intros l F.
  unfold fits. induction F as [|ev l H _ IH]; simpl; [constructor|].
  apply Forall_app. split; [|exact IH].
  unfold fitted_consistently in H. destruct (fit_of_event ev); auto.
Qed.

(** X3.  Within a run, two fits with the same formula are given the
    same frame, cell for cell: the two fits through [GLM] (lines 558
    and 580) work on the very data of the fit through [OLS] at line
    366. *)
Theorem same_formula_same_data (V : Type) (lib : Library V) (w : World)
  (x y : fit) :
  In x (fits (trace lib w)) -> In y (fits (trace lib w)) ->
  fit_formula x = fit_formula y -> fit_data x = fit_data y.
Proof.
  intros Hx Hy Hf.
  destruct (run_formulas lib w) as (base & age & gender & F).
  rewrite Forall_forall in F.
  pose proof (F x Hx) as Px. pose proof (F y Hy) as Py.
  rewrite <- Hf in Py. clear F Hx Hy Hf.
  destruct x as [kx fx dx], y as [ky fy dy]. simpl in *.
  inversion Px as [E1 E2 | f [Hg|Hg] E1 E2 | f xs [Hg|Hg] Hxs E1 E2 | xs Hxs E1 E2];
    subst;
    inversion Py as [E3 E4 | f' [Hg'|Hg'] E3 E4 | f' xs' [Hg'|Hg'] Hxs' E3 E4
                     | xs' Hxs' E3 E4];
    subst; try reflexivity; try discriminate;
    rewrite Hxs in Hxs'; injection Hxs' as <-; reflexivity.
Qed.

Lemma same_formula_same_data_witness :
  exists x y,
    In x (fits (trace quiet_library nhanes_sample)) /\
    In y (fits (trace quiet_library nhanes_sample)) /\
    fit_estimator x = OLS /\ fit_estimator y = GLM /\
    fit_formula x = fit_formula y /\ fit_data x = fit_data y.
Proof.
  exists (nth 2 (fits (trace quiet_library nhanes_sample)) (Fit OLS "" [])),
         (nth 3 (fits (trace quiet_library nhanes_sample)) (Fit OLS "" [])).
  assert (Hx : In (nth 2 (fits (trace quiet_library nhanes_sample)) (Fit OLS "" []))
                  (fits (trace quiet_library nhanes_sample)))
    by (vm_compute; do 2 right; left; reflexivity).
  assert (Hy : In (nth 3 (fits (trace quiet_library nhanes_sample)) (Fit OLS "" []))
                  (fits (trace quiet_library nhanes_sample)))
    by (vm_compute; do 3 right; left; reflexivity).
  assert (Hf : fit_formula (nth 2 (fits (trace quiet_library nhanes_sample)) (Fit OLS "" []))
               = fit_formula (nth 3 (fits (trace quiet_library nhanes_sample)) (Fit OLS "" [])))
    by (vm_compute; reflexivity).
  split; [exact Hx|]. split; [exact Hy|].
  split; [vm_compute; reflexivity|]. split; [vm_compute; reflexivity|].
  split; [exact Hf|].
  exact (@same_formula_same_data _ quiet_library nhanes_sample _ _ Hx Hy Hf).
Defined.
